(** * bsc-multiplayer-backend: lobby runtime, message structures, lobby manager

    A shallow embedding of the Go sources
      - [src/internal/messageStructure.go]  (ComputeStructure and its helpers)
      - [src/internal/client.go] and its later revision (DisclosedClientState)
      - [src/internal/lobby.go]             (read loop, RemoveClient, close)
      - the lobby manager                   (CreateLobby, IsJoinPossible, JoinLobby)
    together with the properties stated about them.

    Conventions.  A [uintN] is a [Z] with its wrap-around written out
    ([wrap32], [wrap64]).  A Go panic is the [Panic] outcome.  Pointers to
    clients and lobbies are modelled by the maps that hold them; a nil
    [*Client] is [None].  Everything the code writes to the outside world
    (frames, broadcasts, spawned goroutines) is recorded in a list of
    [Event]s, oldest first.  A byte slice is the list of its elements;
    where the code takes a slice of it, the bytes that lie behind it in
    its backing array, up to its capacity, are given beside it. *)

From Stdlib Require Import ZArith Lia Bool.
From stdpp Require Import base option list gmap strings pretty.

Open Scope Z_scope.

(** ** Machine integers and outcomes *)

Definition wrap32 (z : Z) : Z := z mod 2 ^ 32.
Definition wrap64 (z : Z) : Z := z mod 2 ^ 64.

Inductive Outcome (A : Type) : Type :=
| Ok (a : A)
| Panic (msg : string).
Arguments Ok {A} a.
Arguments Panic {A} msg.

Abbreviation bytes := (list Byte.byte).

Definition byteZ (b : Byte.byte) : Z := Z.of_N (Byte.to_N b).

Definition Zbyte (z : Z) : Byte.byte :=
  match Byte.of_N (Z.to_N (z mod 256)) with
  | Some b => b
  | None => Byte.x00
  end.

(** Go slice expression [s[lo:hi]] on a slice.  The bound is the capacity,
    not the length: [behind] holds the bytes of the backing array that
    follow [s], up to its capacity, and the expression panics unless
    [0 <= lo <= hi <= len s + len behind].  The result shows the bytes of
    the backing array in that range, also those that lie behind [s]. *)
Definition slice (s behind : bytes) (lo hi : Z) : Outcome bytes :=
  if (0 <=? lo) && (lo <=? hi) && (hi <=? Z.of_nat (length s + length behind))
  then Ok (take (Z.to_nat (hi - lo)) (drop (Z.to_nat lo) (s ++ behind)))
  else Panic "slice bounds out of range".

(** [binary.BigEndian.Uint32] and [binary.LittleEndian.Uint32]: both index
    [b[3]] first, so they panic on fewer than four bytes. *)
Definition BigEndian_Uint32 (b : bytes) : Outcome Z :=
  match b with
  | b0 :: b1 :: b2 :: b3 :: _ =>
      Ok (Z.lor (Z.lor (Z.lor (byteZ b3) (Z.shiftl (byteZ b2) 8))
                       (Z.shiftl (byteZ b1) 16))
                (Z.shiftl (byteZ b0) 24))
  | _ => Panic "index out of range"
  end.

Definition LittleEndian_Uint32 (b : bytes) : Outcome Z :=
  match b with
  | b0 :: b1 :: b2 :: b3 :: _ =>
      Ok (Z.lor (Z.lor (Z.lor (byteZ b0) (Z.shiftl (byteZ b1) 8))
                       (Z.shiftl (byteZ b2) 16))
                (Z.shiftl (byteZ b3) 24))
  | _ => Panic "index out of range"
  end.

Definition BigEndian_PutUint32 (v : Z) : bytes :=
  [Zbyte (Z.shiftr v 24); Zbyte (Z.shiftr v 16); Zbyte (Z.shiftr v 8); Zbyte v].

Definition LittleEndian_PutUint32 (v : Z) : bytes :=
  [Zbyte v; Zbyte (Z.shiftr v 8); Zbyte (Z.shiftr v 16); Zbyte (Z.shiftr v 24)].

(** ** messageStructure.go *)

(** Go's [reflect.Kind]. *)
Inductive Kind : Set :=
| Invalid | Bool | Int | Int8 | Int16 | Int32 | Int64
| Uint | Uint8 | Uint16 | Uint32 | Uint64 | Uintptr
| Float32 | Float64 | Complex64 | Complex128
| Array | Chan | Func | Interface | Map | Pointer | Slice
| String | Struct | UnsafePointer.

Definition Kind_String (k : Kind) : string :=
  match k with
  | Invalid => "invalid" | Bool => "bool" | Int => "int" | Int8 => "int8"
  | Int16 => "int16" | Int32 => "int32" | Int64 => "int64" | Uint => "uint"
  | Uint8 => "uint8" | Uint16 => "uint16" | Uint32 => "uint32"
  | Uint64 => "uint64" | Uintptr => "uintptr" | Float32 => "float32"
  | Float64 => "float64" | Complex64 => "complex64"
  | Complex128 => "complex128" | Array => "array" | Chan => "chan"
  | Func => "func" | Interface => "interface" | Map => "map"
  | Pointer => "ptr" | Slice => "slice" | String => "string"
  | Struct => "struct" | UnsafePointer => "unsafe.Pointer"
  end.

Record MessageElementDescriptor : Type := {
  ByteSize : Z;  (* Byte size of 0 means variable size *)
  Offset : Z;
  FieldName : string;
  Description : string;
  ElementKind : Kind
}.

Record ShortElementDescriptor : Type := {
  ShortDescription : string;
  ShortFieldName : string;
  ShortKind : Kind
}.

Definition NewElementDescriptor (description fieldName : string) (kind : Kind)
  : ShortElementDescriptor :=
  {| ShortDescription := description;
     ShortFieldName := fieldName;
     ShortKind := kind |}.

Abbreviation ReferenceStructure := (list ShortElementDescriptor).
Definition REFERENCE_STRUCTURE_EMPTY : ReferenceStructure := [].
Abbreviation ComputedStructure := (list MessageElementDescriptor).

Definition MESSAGE_HEADER_SIZE : Z := 8.

(** [isValidKind]: [None] is the nil error. *)
Definition isValidKind (kind : Kind) : option string :=
  match kind with
  | Bool | Int | Int8 | Int16 | Int32 | Int64
  | Uint | Uint8 | Uint16 | Uint32 | Uint64 | Uintptr
  | Float32 | Float64 | Complex64 | Complex128 | String => None
  | _ => Some ("kind " +:+ Kind_String kind +:+ " is not supported")
  end.

Definition isKindOfVariableSize (kind : Kind) : bool :=
  match kind with
  | String | Slice | Array | Interface | Struct => true
  | _ => false
  end.

Definition sizeOfSerializedKind (kind : Kind) : Z :=
  match kind with
  | Bool => 1
  | Int8 | Uint8 => 1
  | Int16 | Uint16 => 2
  | Int32 | Uint32 | Float32 => 4
  | Int64 | Uint64 | Float64 | Complex64 => 8
  | Complex128 => 16
  | String | Slice | Array => 0
  | _ => 0
  end.

(** The local variables of [ComputeStructure] that live across iterations. *)
Record ComputeState : Type := {
  computedStructure : ComputedStructure;
  offset : Z;
  hasVariableSizeElement : bool;
  minimumTotalSize : Z
}.

(** One iteration of the [for index, element := range shortDescription]
    loop; [len] is [len(shortDescription)]. *)
Definition ComputeStructure_body (messageName : string) (len : Z)
    (index : Z) (element : ShortElementDescriptor) (st : ComputeState)
  : Outcome ComputeState :=
  match isValidKind (ShortKind element) with
  | Some err => Panic err
  | None =>
      let isVariable := isKindOfVariableSize (ShortKind element) in
      if isVariable && hasVariableSizeElement st then
        Panic ("message " +:+ messageName +:+ " has multiple variable size elements")
      else if isVariable && negb (index =? len - 1) then
        Panic ("message " +:+ messageName +:+
               " has a variable size element that is not the last element")
      else
        let sizeOfElement := sizeOfSerializedKind (ShortKind element) in
        Ok {| computedStructure :=
                computedStructure st ++
                  [{| ByteSize := sizeOfElement;
                      Offset := offset st;
                      FieldName := ShortFieldName element;
                      Description := ShortDescription element;
                      ElementKind := ShortKind element |}];
              offset := wrap32 (offset st + sizeOfElement);
              hasVariableSizeElement := hasVariableSizeElement st;
              minimumTotalSize := wrap32 (minimumTotalSize st + sizeOfElement) |}
  end.

Fixpoint ComputeStructure_loop (messageName : string) (len : Z) (index : Z)
    (rest : list ShortElementDescriptor) (st : ComputeState)
  : Outcome ComputeState :=
  match rest with
  | [] => Ok st
  | element :: rest' =>
      match ComputeStructure_body messageName len index element st with
      | Panic e => Panic e
      | Ok st' => ComputeStructure_loop messageName len (index + 1) rest' st'
      end
  end.

Definition ComputeStructure (messageName : string)
    (shortDescription : ReferenceStructure) : Outcome (Z * ComputedStructure) :=
  let st0 := {| computedStructure := [];
                offset := MESSAGE_HEADER_SIZE;
                hasVariableSizeElement := false;
                minimumTotalSize := 0 |} in
  match ComputeStructure_loop messageName
          (Z.of_nat (length shortDescription)) 0 shortDescription st0 with
  | Panic e => Panic e
  | Ok st => Ok (minimumTotalSize st, computedStructure st)
  end.

(** Sum of the serialized sizes of the fixed-size elements of a reference
    structure, as an unbounded integer. *)
Definition fixedElements (s : list ShortElementDescriptor)
  : list ShortElementDescriptor :=
  filter (fun e => isKindOfVariableSize (ShortKind e) = false) s.

Definition sumByteSizes (s : list ShortElementDescriptor) : Z :=
  foldr (fun e acc => sizeOfSerializedKind (ShortKind e) + acc) 0 s.

(** The minimum size as the specification words it: the header plus the sum
    of the fixed element sizes. *)
Definition spec_expectedMinSize (s : ReferenceStructure) : Z :=
  wrap32 (MESSAGE_HEADER_SIZE + sumByteSizes (fixedElements s)).

(** ** Event specifications *)

Definition MessageID := Z.
Definition ClientID := Z.
Definition LobbyID := Z.

(** Modelled from the spec: the declaration of [OriginType] is not part of
    the available sources; the originators are Server, Owner and Guest. *)
Inductive OriginType : Set :=
| ORIGIN_TYPE_SERVER
| ORIGIN_TYPE_OWNER
| ORIGIN_TYPE_GUEST.

Global Instance OriginType_eq_dec : EqDecision OriginType.
Proof. solve_decision. Defined.

Global Instance OriginType_countable : Countable OriginType.
Proof.
  refine (inj_countable'
    (fun t => match t with
              | ORIGIN_TYPE_SERVER => 0%nat
              | ORIGIN_TYPE_OWNER => 1%nat
              | ORIGIN_TYPE_GUEST => 2%nat
              end)
    (fun n => match n with
              | 0%nat => ORIGIN_TYPE_SERVER
              | 1%nat => ORIGIN_TYPE_OWNER
              | _ => ORIGIN_TYPE_GUEST
              end) _).
  intros []; reflexivity.
Defined.

(** [SendPermissions] is a Go [map[OriginType]bool]; indexing a key that is
    absent yields [false]. *)
Definition mayOriginate (perms : gmap OriginType bool) (t : OriginType) : bool :=
  default false (perms !! t).

(** Modelled from the spec: the three canonical originator sets. *)
Definition SERVER_ONLY : gmap OriginType bool :=
  <[ORIGIN_TYPE_SERVER := true]> (<[ORIGIN_TYPE_OWNER := false]>
    (<[ORIGIN_TYPE_GUEST := false]> ∅)).
Definition OWNER_ONLY : gmap OriginType bool :=
  <[ORIGIN_TYPE_SERVER := false]> (<[ORIGIN_TYPE_OWNER := true]>
    (<[ORIGIN_TYPE_GUEST := false]> ∅)).
Definition OWNER_AND_GUESTS : gmap OriginType bool :=
  <[ORIGIN_TYPE_SERVER := false]> (<[ORIGIN_TYPE_OWNER := true]>
    (<[ORIGIN_TYPE_GUEST := true]> ∅)).

(** A handler is a Go function value stored in the specification; here it is
    a reference that the environment interprets. *)
Inductive HandlerRef : Set :=
| NO_HANDLER_YET
| HandlerNamed (name : string).

(** Modelled from the spec: the declaration of [EventSpecification] is not
    part of the available sources; the fields are those the code reads. *)
Record EventSpecification : Type := {
  Spec_ID : MessageID;
  Spec_Name : string;
  SendPermissions : gmap OriginType bool;
  Structure : ComputedStructure;
  ExpectedMinSize : Z;
  Handler : HandlerRef
}.

(** Modelled from the spec: [NewSpecification] is not part of the available
    sources; it validates the entry with [ComputeStructure] and records the
    pair that it returns. *)
Definition NewSpecification (id : MessageID) (name : string)
    (whoMaySend : gmap OriginType bool) (structure : ReferenceStructure)
    (handler : HandlerRef) : Outcome EventSpecification :=
  match ComputeStructure name structure with
  | Panic e => Panic e
  | Ok (minSize, computed) =>
      Ok {| Spec_ID := id; Spec_Name := name; SendPermissions := whoMaySend;
            Structure := computed; ExpectedMinSize := minSize;
            Handler := handler |}
  end.

(** The reference structures of the asteroids events. *)
Definition ASTEROID_SPAWN_structure : ReferenceStructure :=
  [ NewElementDescriptor "ID" "id" Uint32;
    NewElementDescriptor "X Offset" "x" Float32;
    NewElementDescriptor "Y Offset" "y" Float32;
    NewElementDescriptor "Health" "health" Uint8;
    NewElementDescriptor "Time until impact" "timeUntilImpact" Uint8;
    NewElementDescriptor "Asteroid Type" "type" Uint8;
    NewElementDescriptor "CharCode" "charCode" String ].

Definition ASTEROID_IMPACT_structure : ReferenceStructure :=
  [ NewElementDescriptor "Asteroid ID" "id" Uint32;
    NewElementDescriptor "Remaining Colony Health" "colonyHPLeft" Uint32 ].

Definition PLAYER_SHOOT_structure : ReferenceStructure :=
  [ NewElementDescriptor "Player ID" "id" Uint32;
    NewElementDescriptor "CharCode" "code" String ].

Definition ASTEROID_SPAWN_EVENT : Outcome EventSpecification :=
  NewSpecification 3000 "AsteroidsAsteroidSpawn" SERVER_ONLY
    ASTEROID_SPAWN_structure NO_HANDLER_YET.

Definition ASTEROID_IMPACT_EVENT : Outcome EventSpecification :=
  NewSpecification 3002 "AsteroidsAsteroidImpactOnColony" SERVER_ONLY
    ASTEROID_IMPACT_structure NO_HANDLER_YET.

Definition PLAYER_SHOOT_EVENT : Outcome EventSpecification :=
  NewSpecification 3003 "AsteroidsPlayerShootAtCode" OWNER_AND_GUESTS
    PLAYER_SHOOT_structure NO_HANDLER_YET.

Definition GAME_WON_EVENT : Outcome EventSpecification :=
  NewSpecification 3004 "AsteroidsGameWon" SERVER_ONLY
    REFERENCE_STRUCTURE_EMPTY NO_HANDLER_YET.

(** ** Clients *)

(** Modelled from the spec: [meta.MessageEncoding] is not part of the
    available sources; it is the enumeration binary, base16, base64. *)
Inductive MessageEncoding : Set :=
| MESSAGE_ENCODING_BINARY
| MESSAGE_ENCODING_BASE16
| MESSAGE_ENCODING_BASE64.

Global Instance MessageEncoding_eq_dec : EqDecision MessageEncoding.
Proof. solve_decision. Defined.

(** Element [i] of a Go slice; out of range panics. *)
Definition index {A : Type} (l : list A) (i : nat) : Outcome A :=
  match l !! i with
  | Some x => Ok x
  | None => Panic "index out of range"
  end.

(** The earlier revision of the client file ([src/internal/client.go]):
    the disclosed state has one field and integers are big-endian. *)
Module ClientV1.

Record DisclosedClientState : Type := {
  LastKnownPosition : Z
}.

Definition NewDisclosedClientState : DisclosedClientState :=
  {| LastKnownPosition := 0 |}.

Definition UpdateAny (PLAYER_MOVE_EVENT : EventSpecification)
    (dcs : DisclosedClientState) (messageID : MessageID)
    (remainder behind : bytes)
  : Outcome DisclosedClientState :=
  if messageID =? Spec_ID PLAYER_MOVE_EVENT then
    match index (Structure PLAYER_MOVE_EVENT) 1 with
    | Panic e => Panic e
    | Ok locationIDElement =>
        let offset := Offset locationIDElement in
        let byteSize := ByteSize locationIDElement in
        match slice remainder behind offset (wrap32 (offset + byteSize)) with
        | Panic e => Panic e
        | Ok subSlice =>
            match BigEndian_Uint32 subSlice with
            | Panic e => Panic e
            | Ok v => Ok {| LastKnownPosition := v |}
            end
        end
    end
  else Ok dcs.

End ClientV1.

(** The later revision of the client file: a time stamp is added and
    integers are little-endian.  The lobby and the lobby manager below use
    this revision. *)
Record DisclosedClientState : Type := {
  LastKnownPosition : Z;
  MSOfLastMessage : Z
}.

Definition NewDisclosedClientState : DisclosedClientState :=
  {| LastKnownPosition := 0; MSOfLastMessage := 0 |}.

(** [uint64(time.Now().UnixNano() / 1000000)]: [nowNano] is the reading of
    the wall clock, a signed 64-bit count of nanoseconds; Go's division
    truncates. *)
Definition nowInMS (nowNano : Z) : Z := wrap64 (Z.quot nowNano 1000000).

(** [UpdateAny]; the wall clock is an input, and so are the bytes
    [behind] that follow [remainder] in its backing array. *)
Definition UpdateAny (PLAYER_MOVE_EVENT : EventSpecification) (nowNano : Z)
    (dcs : DisclosedClientState) (messageID : MessageID)
    (remainder behind : bytes)
  : Outcome DisclosedClientState :=
  let afterSwitch : Outcome DisclosedClientState :=
    if messageID =? Spec_ID PLAYER_MOVE_EVENT then
      match index (Structure PLAYER_MOVE_EVENT) 1 with
      | Panic e => Panic e
      | Ok locationIDElement =>
          let offset := Offset locationIDElement in
          let byteSize := ByteSize locationIDElement in
          match slice remainder behind offset (wrap32 (offset + byteSize)) with
          | Panic e => Panic e
          | Ok subSlice =>
              match LittleEndian_Uint32 subSlice with
              | Panic e => Panic e
              | Ok v => Ok {| LastKnownPosition := v;
                              MSOfLastMessage := MSOfLastMessage dcs |}
              end
          end
      end
    else Ok dcs in
  match afterSwitch with
  | Panic e => Panic e
  | Ok dcs1 =>
      Ok {| LastKnownPosition := LastKnownPosition dcs1;
            MSOfLastMessage := nowInMS nowNano |}
  end.

Record Client : Type := {
  Client_ID : ClientID;
  IDBytes : bytes;
  IGN : string;
  Client_Type : OriginType;
  State : DisclosedClientState;
  Client_Encoding : MessageEncoding;
  Conn : Z  (* the websocket connection, by its identity *)
}.

Definition NewClient (id : ClientID) (ign : string) (clientType : OriginType)
    (conn : Z) (encoding : MessageEncoding) : Client :=
  {| Client_ID := id;
     IDBytes := LittleEndian_PutUint32 id;
     IGN := ign;
     Client_Type := clientType;
     State := NewDisclosedClientState;
     Client_Encoding := encoding;
     Conn := conn |}.

(** The call [client.State.UpdateAny(messageID, remainder)] seen from the
    client that holds the state. *)
Definition Client_UpdateAny (PLAYER_MOVE_EVENT : EventSpecification)
    (nowNano : Z) (client : Client) (messageID : MessageID)
    (remainder behind : bytes)
  : Outcome Client :=
  match UpdateAny PLAYER_MOVE_EVENT nowNano (State client) messageID
          remainder behind with
  | Panic e => Panic e
  | Ok st =>
      Ok {| Client_ID := Client_ID client; IDBytes := IDBytes client;
            IGN := IGN client; Client_Type := Client_Type client;
            State := st; Client_Encoding := Client_Encoding client;
            Conn := Conn client |}
  end.

(** ** lobby.go *)

(** Modelled from the spec: the activity tracker is not part of the
    available sources; it stores the current activity and difficulty. *)
Record ActivityTracker : Type := {
  currentActivityID : Z;
  currentDifficultyID : Z
}.

Definition NewActivityTracker : ActivityTracker :=
  {| currentActivityID := 0; currentDifficultyID := 0 |}.

Definition ChangeActivityID (t : ActivityTracker) (id : Z) : ActivityTracker :=
  {| currentActivityID := id; currentDifficultyID := currentDifficultyID t |}.

Definition ChangeDifficultyID (t : ActivityTracker) (id : Z) : ActivityTracker :=
  {| currentActivityID := currentActivityID t; currentDifficultyID := id |}.

(** [Clients] is the concurrent map of the lobby: [Load] is the lookup
    [!!], [Store] is insertion, [Delete] is deletion.  The broadcast
    function is chosen by [Lobby_Encoding]; the mutex [Sync] has no
    counterpart in a sequential run. *)
Record Lobby : Type := {
  Lobby_ID : LobbyID;
  OwnerID : ClientID;
  ColonyID : Z;
  Clients : gmap ClientID Client;
  Closing : bool;
  Lobby_Encoding : MessageEncoding;
  activityTracker : ActivityTracker
}.

Definition NewLobby (id : LobbyID) (ownerID : ClientID) (colonyID : Z)
    (encoding : MessageEncoding) : Lobby :=
  {| Lobby_ID := id; OwnerID := ownerID; ColonyID := colonyID;
     Clients := ∅; Closing := false; Lobby_Encoding := encoding;
     activityTracker := NewActivityTracker |}.

Definition setClients (lobby : Lobby) (clients : gmap ClientID Client) : Lobby :=
  {| Lobby_ID := Lobby_ID lobby; OwnerID := OwnerID lobby;
     ColonyID := ColonyID lobby; Clients := clients;
     Closing := Closing lobby; Lobby_Encoding := Lobby_Encoding lobby;
     activityTracker := activityTracker lobby |}.

Definition setClosing (lobby : Lobby) (closing : bool) : Lobby :=
  {| Lobby_ID := Lobby_ID lobby; OwnerID := OwnerID lobby;
     ColonyID := ColonyID lobby; Clients := Clients lobby;
     Closing := closing; Lobby_Encoding := Lobby_Encoding lobby;
     activityTracker := activityTracker lobby |}.

Definition setActivityTracker (lobby : Lobby) (t : ActivityTracker) : Lobby :=
  {| Lobby_ID := Lobby_ID lobby; OwnerID := OwnerID lobby;
     ColonyID := ColonyID lobby; Clients := Clients lobby;
     Closing := Closing lobby; Lobby_Encoding := Lobby_Encoding lobby;
     activityTracker := t |}.

Inductive JoinError : Set :=
| JoinErrorNotFound
| JoinErrorClosing
| JoinErrorAlreadyInLobby
| JoinErrorSerializationFailure.

Record LobbyJoinError : Type := {
  Err_LobbyID : LobbyID;
  Err_Type : JoinError;
  Reason : string
}.

(** What a run does to the outside world. *)
Inductive Event : Type :=
| EvSendDebugInfo (target : option Client) (code : Z) (text : string)
    (* a call SendDebugInfoToClient(target, code, text) *)
| EvHandler (specID : MessageID) (client : Client) (remainder : bytes)
    (* a call spec.Handler(lobby, client, spec, remainder) *)
| EvBroadcast (lobbyID : LobbyID) (encoding : MessageEncoding)
    (clientsAtCall : gmap ClientID Client) (senderID : ClientID) (message : bytes)
    (* a call lobby.BroadcastMessage(senderID, message), with the client
       map as it is when the call is made *)
| EvConnClose (conn : Z)
| EvEnqueueClose (lobbyID : LobbyID)
| EvGoHandleConnection (lobbyID : LobbyID) (client : Client)
| EvGoCloseColony (colonyID ownerID : Z).

(** Modelled from the spec: the broadcast functions are not part of the
    available sources; a broadcast writes to every client that is in the
    lobby's client map when it runs. *)
Definition recipients (e : Event) : list ClientID :=
  match e with
  | EvBroadcast _ _ clientsAtCall _ _ => (map_to_list clientsAtCall).*1
  | _ => []
  end.

Definition isBroadcast (e : Event) : bool :=
  match e with
  | EvBroadcast _ _ _ _ _ => true
  | _ => false
  end.

Definition SERVER_ID : ClientID := 4294967295.  (* math.MaxUint32 *)

Definition TextMessage : Z := 1.
Definition BinaryMessage : Z := 2.

(** The functions and table entries the lobby uses whose sources are not
    available, and the library functions it calls.  An [error] is a
    [string]; [None] is nil. *)
Class Environment : Type := {
  hex_DecodeString : bytes -> bytes * option string;
  ExtractClientIDAndMessageID :
    bytes -> (ClientID * EventSpecification * bytes) + string;
  SendDebugInfoToClient : option Client -> Z -> string -> Outcome (option string);
  invokeHandler :
    HandlerRef -> Lobby -> Client -> EventSpecification -> bytes ->
    Outcome (Lobby * list Event * option string);
  isUnresponsiveClientsError : string -> bool;
  PrepareServerMessage : EventSpecification -> bytes;
  Serialize_PlayerJoined : EventSpecification -> ClientID -> string -> bytes + string;
  PLAYER_MOVE_EVENT : EventSpecification;
  PLAYER_JOINED_EVENT : EventSpecification;
  PLAYER_LEFT_EVENT : EventSpecification;
  LOBBY_CLOSING_EVENT : EventSpecification;
  DIFFICULTY_SELECT_FOR_MINIGAME_EVENT : EventSpecification
}.

Inductive LoopControl : Set := Continue | Break.

Definition bytes_of_string (s : string) : bytes := String.list_byte_of_string s.

Section LobbyRuntime.
Context `{Env : Environment}.

(** [lobby.BroadcastMessage(senderID, message)]; none of the callers
    below uses the list of unresponsive clients it returns. *)
Definition BroadcastMessage (lobby : Lobby) (senderID : ClientID)
    (message : bytes) : list Event :=
  [EvBroadcast (Lobby_ID lobby) (Lobby_Encoding lobby) (Clients lobby)
     senderID message].

(** The pattern
    [if err := SendDebugInfoToClient(c, code, text); err != nil { break }]
    followed by [next]. *)
Definition debugOrBreak (lobby : Lobby) (target : option Client) (code : Z)
    (text : string) (next : LoopControl)
  : Outcome (Lobby * list Event * LoopControl) :=
  match SendDebugInfoToClient target code text with
  | Panic e => Panic e
  | Ok (Some _) => Ok (lobby, [EvSendDebugInfo target code text], Break)
  | Ok None => Ok (lobby, [EvSendDebugInfo target code text], next)
  end.

Definition updateTrackedActivity (lobby : Lobby) (client : Client)
    (spec : EventSpecification) (remainder behind : bytes) : Outcome Lobby :=
  if Spec_ID spec =? Spec_ID DIFFICULTY_SELECT_FOR_MINIGAME_EVENT then
    match index (Structure DIFFICULTY_SELECT_FOR_MINIGAME_EVENT) 0 with
    | Panic e => Panic e
    | Ok messageElement =>
    match slice remainder behind (Offset messageElement)
            (wrap32 (Offset messageElement + ByteSize messageElement)) with
    | Panic e => Panic e
    | Ok minigameIDBytes =>
    match BigEndian_Uint32 minigameIDBytes with
    | Panic e => Panic e
    | Ok minigameID =>
    let tracker1 := ChangeActivityID (activityTracker lobby) minigameID in
    match index (Structure DIFFICULTY_SELECT_FOR_MINIGAME_EVENT) 1 with
    | Panic e => Panic e
    | Ok messageElement' =>
    match slice remainder behind (Offset messageElement')
            (wrap32 (Offset messageElement' + ByteSize messageElement')) with
    | Panic e => Panic e
    | Ok difficultyIDBytes =>
    match BigEndian_Uint32 difficultyIDBytes with
    | Panic e => Panic e
    | Ok difficultyID =>
        Ok (setActivityTracker lobby (ChangeDifficultyID tracker1 difficultyID))
    end end end end end end
  else Ok lobby.

(** The part of [processClientMessage] after the handler has been dealt
    with: the disclosed state of [client] is updated in place, and the
    owner's events feed the activity tracker. *)
Definition trackClientMessage (lobby : Lobby) (client : Client)
    (spec : EventSpecification) (remainder behind : bytes) (nowNano : Z)
  : Outcome Lobby :=
  match Client_UpdateAny PLAYER_MOVE_EVENT nowNano client (Spec_ID spec)
          remainder behind with
  | Panic e => Panic e
  | Ok client' =>
      let lobby' :=
        setClients lobby (alter (fun _ => client') (Client_ID client) (Clients lobby)) in
      match Client_Type client with
      | ORIGIN_TYPE_OWNER => updateTrackedActivity lobby' client spec remainder behind
      | _ => Ok lobby'
      end
  end.

Definition processClientMessage (lobby : Lobby) (client : Client)
    (spec : EventSpecification) (remainder behind : bytes) (nowNano : Z)
  : Outcome (Lobby * list Event * option string) :=
  match invokeHandler (Handler spec) lobby client spec remainder with
  | Panic e => Panic e
  | Ok (lobby1, evH, handlingErr) =>
      let called := EvHandler (Spec_ID spec) client remainder :: evH in
      let proceed :=
        match trackClientMessage lobby1 client spec remainder behind nowNano with
        | Panic e => Panic e
        | Ok lobby2 => Ok (lobby2, called, None)
        end in
      match handlingErr with
      | Some e =>
          if negb (isUnresponsiveClientsError e) then
            let text := "Error handling message: " +:+ e in
            match SendDebugInfoToClient (Some client) 500 text with
            | Panic p => Panic p
            | Ok _ =>
                Ok (lobby1, called ++ [EvSendDebugInfo (Some client) 500 text],
                    Some ("Error handling message ID " +:+ pretty (Spec_ID spec)
                          +:+ " from clientID " +:+ pretty (Client_ID client)
                          +:+ ": " +:+ e))
            end
          else proceed
      | None => proceed
      end
  end.

(** The loop body of [handleConnection] from [ExtractClientIDAndMessageID]
    on.  [client] is the client of the session; after the map load the
    name denotes the loaded value, here [loaded].  [behind] holds the bytes
    that follow the remainder in its backing array. *)
Definition handleMessage (lobby : Lobby) (client : Client) (nowNano : Z)
    (msg behind : bytes) : Outcome (Lobby * list Event * LoopControl) :=
  match ExtractClientIDAndMessageID msg with
  | inr extractErr => debugOrBreak lobby (Some client) 400 extractErr Continue
  | inl (clientID, spec, remainder) =>
      match Clients lobby !! clientID with
      | None =>
          (* [client] is the nil result of the load *)
          debugOrBreak lobby None 401
            ("Unauthorized: client " +:+ pretty clientID
             +:+ " not found in lobby " +:+ pretty (Lobby_ID lobby))
            Continue
      | Some loaded =>
          if negb (mayOriginate (SendPermissions spec) (Client_Type loaded)) then
            debugOrBreak lobby (Some loaded) 401
              ("Unauthorized: client " +:+ pretty (Client_ID loaded)
               +:+ " is not allowed to send messages of id "
               +:+ pretty (Spec_ID spec))
              Continue
          else
            match processClientMessage lobby loaded spec remainder behind nowNano with
            | Panic e => Panic e
            | Ok (lobby1, ev, None) => Ok (lobby1, ev, Continue)
            | Ok (lobby1, ev, Some processingError) =>
                match debugOrBreak lobby1 (Some loaded) 500
                        ("Error processing message: " +:+ processingError)
                        Continue with
                | Panic e => Panic e
                | Ok (lobby2, ev', ctl) => Ok (lobby2, ev ++ ev', ctl)
                end
            end
      end
  end.

(** The whole loop body, for a frame that [ReadMessage] has returned.
    [behind] holds the bytes that follow, in its backing array, the message
    that is parsed: the frame itself, or the decoded bytes of a text
    frame. *)
Definition handleFrame (lobby : Lobby) (client : Client) (nowNano : Z)
    (dataType : Z) (msg behind : bytes)
  : Outcome (Lobby * list Event * LoopControl) :=
  if dataType =? TextMessage then
    match hex_DecodeString msg with
    | (msg', Some _) =>
        match debugOrBreak lobby (Some client) 400 "Error decoding message"
                Continue with
        | Panic e => Panic e
        | Ok (lobby1, ev, Break) => Ok (lobby1, ev, Break)
        | Ok (lobby1, ev, Continue) =>
            (* no [continue] here: the partly decoded message is parsed *)
            match handleMessage lobby1 client nowNano msg' behind with
            | Panic e => Panic e
            | Ok (lobby2, ev', ctl) => Ok (lobby2, ev ++ ev', ctl)
            end
        end
    | (msg', None) => handleMessage lobby client nowNano msg' behind
    end
  else if negb (dataType =? BinaryMessage) then
    debugOrBreak lobby (Some client) 404
      ("Invalid message type: " +:+ pretty dataType) Continue
  else handleMessage lobby client nowNano msg behind.

(** [RemoveClient]: the parameter is overwritten by the result of the
    load, and the not-found branch reads [client.ID] of that result. *)
Definition RemoveClient (lobby : Lobby) (client : Client)
  : Outcome (Lobby * list Event) :=
  match Clients lobby !! Client_ID client with
  | None => Panic "invalid memory address or nil pointer dereference"
  | Some client' =>
      let lobby1 := setClients lobby (delete (Client_ID client') (Clients lobby)) in
      let msg := PrepareServerMessage PLAYER_LEFT_EVENT
                   ++ IDBytes client' ++ bytes_of_string (IGN client') in
      Ok (lobby1, EvConnClose (Conn client') :: BroadcastMessage lobby1 SERVER_ID msg)
  end.

(** [close]: [CloseQueue] is the channel of the manager, which
    [ShutdownLobbyManager] closes; [queueClosed] tells whether it has done
    so.  The send on a closed channel panics; the broadcast and the store
    of the flag come before it. *)
Definition close (lobby : Lobby) (queueClosed : bool)
  : Outcome (Lobby * list Event) :=
  let ev := BroadcastMessage lobby SERVER_ID
              (PrepareServerMessage LOBBY_CLOSING_EVENT) in
  let lobby1 := setClosing lobby true in
  if queueClosed then Panic "send on closed channel"
  else Ok (lobby1, ev ++ [EvEnqueueClose (Lobby_ID lobby)]).

Definition shutdown (lobby : Lobby) : list Event :=
  (fun kv : ClientID * Client => EvConnClose (Conn kv.2)) <$> map_to_list (Clients lobby).

Definition handleGuestDisconnect (lobby : Lobby) (user : Client)
  : Outcome (Lobby * list Event) :=
  RemoveClient lobby user.

Definition handleOwnerDisconnect (lobby : Lobby) (user : Client)
    (queueClosed : bool) : Outcome (Lobby * list Event) :=
  match RemoveClient lobby user with
  | Panic e => Panic e
  | Ok (lobby1, ev) =>
      match close lobby1 queueClosed with
      | Panic e => Panic e
      | Ok (lobby2, ev') => Ok (lobby2, ev ++ ev')
      end
  end.

Definition onDisconnect (client : Client) (lobby : Lobby) (user : Client)
    (queueClosed : bool) : Outcome (Lobby * list Event) :=
  match Client_Type client with
  | ORIGIN_TYPE_OWNER => handleOwnerDisconnect lobby user queueClosed
  | _ => handleGuestDisconnect lobby user
  end.

(** What [client.Conn.ReadMessage()] delivers: a data frame, read at the
    given clock value, with the bytes behind the message that is parsed,
    or a close frame, for which the close handler runs before the read
    returns its error.  The end of the list is a read error.
    [queueClosed] tells whether the close queue of the manager has been
    closed by the time the session ends. *)
Inductive Incoming : Type :=
| Frame (nowNano : Z) (dataType : Z) (msg behind : bytes)
| CloseFrame (code : Z) (text : string).

Fixpoint readLoop (lobby : Lobby) (client : Client) (queueClosed : bool)
    (inputs : list Incoming) : Outcome (Lobby * list Event) :=
  match inputs with
  | [] => Ok (lobby, [])
  | CloseFrame _ _ :: _ => onDisconnect client lobby client queueClosed
  | Frame nowNano dataType msg behind :: rest =>
      match handleFrame lobby client nowNano dataType msg behind with
      | Panic e => Panic e
      | Ok (lobby1, ev, Break) => Ok (lobby1, ev)
      | Ok (lobby1, ev, Continue) =>
          match readLoop lobby1 client queueClosed rest with
          | Panic e => Panic e
          | Ok (lobby2, ev') => Ok (lobby2, ev ++ ev')
          end
      end
  end.

Definition handleConnection (lobby : Lobby) (client : Client)
    (queueClosed : bool) (inputs : list Incoming)
  : Outcome (Lobby * list Event) :=
  match readLoop lobby client queueClosed inputs with
  | Panic e => Panic e
  | Ok (lobby1, ev) =>
      match onDisconnect client lobby1 client queueClosed with
      | Panic e => Panic e
      | Ok (lobby2, ev') => Ok (lobby2, ev ++ ev')
      end
  end.

End LobbyRuntime.

(** ** The lobby manager *)

(** Modelled from the spec: [meta.RuntimeConfiguration] is not part of the
    available sources; the manager reads its default encoding. *)
Record RuntimeConfiguration : Type := {
  Config_Encoding : MessageEncoding
}.

(** [Lobbies] holds the lobbies by identifier; a lobby that the code
    changes through its pointer is changed in this map.  [CloseQueue] is the
    content of the channel, and [CloseQueueClosed] tells whether the
    channel has been closed. *)
Record LobbyManager : Type := {
  Lobbies : gmap LobbyID Lobby;
  nextLobbyID : Z;
  acceptsNewLobbies : bool;
  CloseQueue : list LobbyID;
  CloseQueueClosed : bool;
  configuration : RuntimeConfiguration
}.

Definition CreateLobbyManager (runtimeConfiguration : RuntimeConfiguration)
  : LobbyManager :=
  {| Lobbies := ∅;
     nextLobbyID := 1;
     acceptsNewLobbies := true;
     CloseQueue := [];
     CloseQueueClosed := false;
     configuration := runtimeConfiguration |}.

Definition setLobbies (lm : LobbyManager) (lobbies : gmap LobbyID Lobby)
  : LobbyManager :=
  {| Lobbies := lobbies; nextLobbyID := nextLobbyID lm;
     acceptsNewLobbies := acceptsNewLobbies lm; CloseQueue := CloseQueue lm;
     CloseQueueClosed := CloseQueueClosed lm;
     configuration := configuration lm |}.

Definition setNextLobbyID (lm : LobbyManager) (n : Z) : LobbyManager :=
  {| Lobbies := Lobbies lm; nextLobbyID := n;
     acceptsNewLobbies := acceptsNewLobbies lm; CloseQueue := CloseQueue lm;
     CloseQueueClosed := CloseQueueClosed lm;
     configuration := configuration lm |}.

Definition setAcceptsNewLobbies (lm : LobbyManager) (accepts : bool)
  : LobbyManager :=
  {| Lobbies := Lobbies lm; nextLobbyID := nextLobbyID lm;
     acceptsNewLobbies := accepts; CloseQueue := CloseQueue lm;
     CloseQueueClosed := CloseQueueClosed lm;
     configuration := configuration lm |}.

Definition setCloseQueueClosed (lm : LobbyManager) (closed : bool)
  : LobbyManager :=
  {| Lobbies := Lobbies lm; nextLobbyID := nextLobbyID lm;
     acceptsNewLobbies := acceptsNewLobbies lm; CloseQueue := CloseQueue lm;
     CloseQueueClosed := closed;
     configuration := configuration lm |}.

(** [atomic.Uint32.Add(delta)]: adds and returns the new value. *)
Definition atomic_Add (old delta : Z) : Z := wrap32 (old + delta).

(** The [Range] of [CreateLobby]: the first lobby, in the order the map is
    walked, whose colony is [colonyID]. *)
Definition existingLobbyFor (lobbies : gmap LobbyID Lobby) (colonyID : Z)
  : option Lobby :=
  snd <$> List.find (fun kv : LobbyID * Lobby => ColonyID kv.2 =? colonyID)
            (map_to_list lobbies).

Definition CreateLobby (lm : LobbyManager) (ownerID : ClientID) (colonyID : Z)
    (userSetEncoding : MessageEncoding) : LobbyManager * (Lobby + string) :=
  if negb (acceptsNewLobbies lm) then
    (lm, inr "[lob man] Lobby manager is not accepting new lobbies at this point")
  else
    match existingLobbyFor (Lobbies lm) colonyID with
    | Some existingLobby => (lm, inl existingLobby)
    | None =>
        let lobbyID := atomic_Add (nextLobbyID lm) 1 in
        let lm1 := setNextLobbyID lm lobbyID in
        let encodingToUse :=
          if decide (userSetEncoding = MESSAGE_ENCODING_BINARY)
          then Config_Encoding (configuration lm)
          else userSetEncoding in
        let lobby := NewLobby lobbyID ownerID colonyID encodingToUse in
        (setLobbies lm1 (<[lobbyID := lobby]> (Lobbies lm1)), inl lobby)
    end.

Definition IsJoinPossible (lm : LobbyManager) (lobbyID : LobbyID)
    (clientID : ClientID) (colonyID colonyOwnerID : Z)
  : list Event * option LobbyJoinError :=
  match Lobbies lm !! lobbyID with
  | None =>
      ([EvGoCloseColony colonyID colonyOwnerID],
       Some {| Reason := "Lobby does not exist"; Err_Type := JoinErrorNotFound;
               Err_LobbyID := lobbyID |})
  | Some lobby =>
      if Closing lobby then
        ([], Some {| Reason := "Lobby is closing"; Err_Type := JoinErrorClosing;
                     Err_LobbyID := lobbyID |})
      else
        match Clients lobby !! clientID with
        | Some _ =>
            ([], Some {| Reason := "User is already in lobby";
                         Err_Type := JoinErrorAlreadyInLobby;
                         Err_LobbyID := lobbyID |})
        | None => ([], None)
        end
  end.

Definition Ternary {A : Type} (condition : bool) (ifTrue ifFalse : A) : A :=
  if condition then ifTrue else ifFalse.

Section Manager.
Context `{Env : Environment}.

Definition JoinLobby (lm : LobbyManager) (lobbyID : LobbyID)
    (clientID : ClientID) (clientIGN : string) (conn : Z)
  : LobbyManager * list Event * option LobbyJoinError :=
  match Lobbies lm !! lobbyID with
  | None =>
      (lm, [], Some {| Reason := "Lobby does not exist";
                       Err_Type := JoinErrorNotFound; Err_LobbyID := lobbyID |})
  | Some lobby =>
      if Closing lobby then
        (lm, [], Some {| Reason := "Lobby is closing";
                         Err_Type := JoinErrorClosing; Err_LobbyID := lobbyID |})
      else
        match Clients lobby !! clientID with
        | Some _ =>
            (lm, [], Some {| Reason := "User is already in lobby";
                             Err_Type := JoinErrorAlreadyInLobby;
                             Err_LobbyID := lobbyID |})
        | None =>
            let client :=
              NewClient clientID clientIGN
                (Ternary (OwnerID lobby =? clientID)
                   ORIGIN_TYPE_OWNER ORIGIN_TYPE_GUEST)
                conn (Lobby_Encoding lobby) in
            match Serialize_PlayerJoined PLAYER_JOINED_EVENT
                    (Client_ID client) (IGN client) with
            | inr _ =>
                (lm, [], Some {| Reason := "Failed to serialize player joined message";
                                 Err_Type := JoinErrorSerializationFailure;
                                 Err_LobbyID := lobbyID |})
            | inl msg =>
                (* Broadcasting before we add the client to the lobbies client map *)
                let ev := BroadcastMessage lobby SERVER_ID msg in
                let lobby' :=
                  setClients lobby (<[Client_ID client := client]> (Clients lobby)) in
                (setLobbies lm (<[lobbyID := lobby']> (Lobbies lm)),
                 ev ++ [EvGoHandleConnection (Lobby_ID lobby) client],
                 None)
            end
        end
  end.

(** [UnregisterLobby]: the lobby is taken out of the map by the identifier
    it carries and its remaining connections are closed. *)
Definition UnregisterLobby (lm : LobbyManager) (lobby : Lobby)
  : LobbyManager * list Event :=
  match Lobbies lm !! Lobby_ID lobby with
  | Some lobby' =>
      (setLobbies lm (delete (Lobby_ID lobby) (Lobbies lm)), shutdown lobby')
  | None => (lm, [])
  end.

End Manager.

(** ** A concrete environment

    Used to run the definitions above on explicit inputs.  The functions
    here stand for sources that are not available. *)

(** Go's [encoding/hex]: [fromHexChar] and [DecodeString], which returns the
    bytes decoded before the error. *)
Definition fromHexChar (c : Byte.byte) : option Z :=
  let z := byteZ c in
  if (48 <=? z) && (z <=? 57) then Some (z - 48)
  else if (97 <=? z) && (z <=? 102) then Some (z - 97 + 10)
  else if (65 <=? z) && (z <=? 70) then Some (z - 65 + 10)
  else None.

Fixpoint hexDecode (src : bytes) : bytes * option string :=
  match src with
  | [] => ([], None)
  | [c] =>
      match fromHexChar c with
      | None => ([], Some "encoding/hex: invalid byte")
      | Some _ => ([], Some "encoding/hex: odd length hex string")
      end
  | p :: q :: rest =>
      match fromHexChar p, fromHexChar q with
      | Some a, Some b =>
          let '(out, err) := hexDecode rest in (Zbyte (a * 16 + b) :: out, err)
      | _, _ => ([], Some "encoding/hex: invalid byte")
      end
  end.

Definition specOr (o : Outcome EventSpecification) : EventSpecification :=
  match o with
  | Ok s => s
  | Panic _ =>
      {| Spec_ID := 0; Spec_Name := ""; SendPermissions := ∅; Structure := [];
         ExpectedMinSize := 0; Handler := NO_HANDLER_YET |}
  end.

(** The asteroids table, [ALL_ASTEROIDS_EVENTS]. *)
Definition ALL_ASTEROIDS_EVENTS : gmap MessageID EventSpecification :=
  list_to_map
    ((fun s => (Spec_ID s, s)) <$>
       [ specOr ASTEROID_SPAWN_EVENT; specOr ASTEROID_IMPACT_EVENT;
         specOr PLAYER_SHOOT_EVENT; specOr GAME_WON_EVENT ]).

(** Modelled from the spec: [ExtractClientIDAndMessageID] is not part of the
    available sources; the header is eight bytes, sender then message
    identifier, the identifier is looked up in the registry, and a message
    shorter than the expected minimum is refused.  The byte order is taken
    from [lobby.go]. *)
Definition ExtractClientIDAndMessageID_model
    (registry : gmap MessageID EventSpecification) (message : bytes)
  : (ClientID * EventSpecification * bytes) + string :=
  match BigEndian_Uint32 (take 4 message),
        BigEndian_Uint32 (take 4 (drop 4 message)) with
  | Ok clientID, Ok messageID =>
      match registry !! messageID with
      | None => inr "UnknownMessage"
      | Some spec =>
          if Z.of_nat (length message) <? ExpectedMinSize spec
          then inr "PayloadTooShort"
          else inl (clientID, spec, drop 8 message)
      end
  | _, _ => inr "MalformedHeader"
  end.

(** Modelled from the spec: [PrepareServerMessage] is not part of the
    available sources; the buffer starts with the server identifier and the
    message identifier. *)
Definition PrepareServerMessage_model (spec : EventSpecification) : bytes :=
  BigEndian_PutUint32 SERVER_ID ++ BigEndian_PutUint32 (Spec_ID spec).

(** Example entries for the events that the lobby names; the table that
    declares them is not part of the available sources. *)
Definition example_PLAYER_MOVE_EVENT : EventSpecification :=
  specOr (NewSpecification 2007 "PlayerMove" OWNER_AND_GUESTS
            [ NewElementDescriptor "Player ID" "playerID" Uint32;
              NewElementDescriptor "Colony Location ID" "colonyLocationID" Uint32 ]
            NO_HANDLER_YET).

Definition example_PLAYER_JOINED_EVENT : EventSpecification :=
  specOr (NewSpecification 2001 "PlayerJoined" SERVER_ONLY
            [ NewElementDescriptor "Player ID" "id" Uint32;
              NewElementDescriptor "Player IGN" "ign" String ]
            NO_HANDLER_YET).

Definition example_PLAYER_LEFT_EVENT : EventSpecification :=
  specOr (NewSpecification 2002 "PlayerLeft" SERVER_ONLY
            [ NewElementDescriptor "Player ID" "id" Uint32;
              NewElementDescriptor "Player IGN" "ign" String ]
            NO_HANDLER_YET).

Definition example_LOBBY_CLOSING_EVENT : EventSpecification :=
  specOr (NewSpecification 2003 "LobbyClosing" SERVER_ONLY
            REFERENCE_STRUCTURE_EMPTY NO_HANDLER_YET).

Definition example_DIFFICULTY_SELECT_EVENT : EventSpecification :=
  specOr (NewSpecification 2010 "DifficultySelectForMinigame" OWNER_ONLY
            [ NewElementDescriptor "Minigame ID" "minigameID" Uint32;
              NewElementDescriptor "Difficulty ID" "difficultyID" Uint32 ]
            NO_HANDLER_YET).

(** In this environment every handler succeeds without effect, every debug
    frame addressed to a client is delivered, and a debug frame addressed
    to nil is a nil dereference. *)
Definition exampleEnv : Environment :=
  {| hex_DecodeString := hexDecode;
     ExtractClientIDAndMessageID :=
       ExtractClientIDAndMessageID_model ALL_ASTEROIDS_EVENTS;
     SendDebugInfoToClient := fun target _ _ =>
       match target with
       | Some _ => Ok None
       | None => Panic "invalid memory address or nil pointer dereference"
       end;
     invokeHandler := fun _ lobby _ _ _ => Ok (lobby, [], None);
     isUnresponsiveClientsError := fun e => String.eqb e "unresponsive clients";
     PrepareServerMessage := PrepareServerMessage_model;
     Serialize_PlayerJoined := fun _ id ign =>
       inl (BigEndian_PutUint32 id ++ bytes_of_string ign);
     PLAYER_MOVE_EVENT := example_PLAYER_MOVE_EVENT;
     PLAYER_JOINED_EVENT := example_PLAYER_JOINED_EVENT;
     PLAYER_LEFT_EVENT := example_PLAYER_LEFT_EVENT;
     LOBBY_CLOSING_EVENT := example_LOBBY_CLOSING_EVENT;
     DIFFICULTY_SELECT_FOR_MINIGAME_EVENT := example_DIFFICULTY_SELECT_EVENT |}.

(** A lobby for colony 42 owned by client 7, with the owner and guest 8
    connected. *)
Definition exampleConfig : RuntimeConfiguration :=
  {| Config_Encoding := MESSAGE_ENCODING_BASE16 |}.

Definition owner7 : Client :=
  NewClient 7 "owner" ORIGIN_TYPE_OWNER 100 MESSAGE_ENCODING_BASE16.

Definition guest8 : Client :=
  NewClient 8 "guest" ORIGIN_TYPE_GUEST 101 MESSAGE_ENCODING_BASE16.

Definition exampleLobby : Lobby :=
  setClients (NewLobby 2 7 42 MESSAGE_ENCODING_BASE16)
    (<[8 := guest8]> (<[7 := owner7]> ∅)).

Definition exampleManager : LobbyManager :=
  setLobbies (setNextLobbyID (CreateLobbyManager exampleConfig) 2)
    (<[2 := exampleLobby]> ∅).


(** The manager after the owner of lobby 2 has left: the lobby is closing
    and has not been taken out of the map yet. *)
Definition closingManager : LobbyManager :=
  setLobbies exampleManager (<[2 := setClosing exampleLobby true]> ∅).

(** A [PLAYER_SHOOT_EVENT] frame whose header names client 7 as sender:
    sender 7, message 3003, player 7, code [a]. *)
Definition shootFrameFrom7 : bytes :=
  BigEndian_PutUint32 7 ++ BigEndian_PutUint32 3003
    ++ BigEndian_PutUint32 7 ++ bytes_of_string "a".

(** The same event with a sender that is in no lobby. *)
Definition shootFrameFrom9 : bytes :=
  BigEndian_PutUint32 9 ++ BigEndian_PutUint32 3003
    ++ BigEndian_PutUint32 9 ++ bytes_of_string "a".

(** An [ASTEROID_SPAWN_EVENT] frame, which only the server may send, with
    guest 8 as sender. *)
Definition spawnFrameFrom8 : bytes :=
  BigEndian_PutUint32 8 ++ BigEndian_PutUint32 3000
    ++ BigEndian_PutUint32 1 ++ BigEndian_PutUint32 0 ++ BigEndian_PutUint32 0
    ++ [Byte.x01; Byte.x02; Byte.x03] ++ bytes_of_string "a".

(** A client that has not joined. *)
Definition stranger9 : Client :=
  NewClient 9 "stranger" ORIGIN_TYPE_GUEST 102 MESSAGE_ENCODING_BASE16.

(** ** Predicates used in the statements *)

Definition isHandlerCall (e : Event) : bool :=
  match e with
  | EvHandler _ _ _ => true
  | _ => false
  end.

Definition isDebugTo (target : option Client) (e : Event) : Prop :=
  match e with
  | EvSendDebugInfo t _ _ => t = target
  | _ => False
  end.

(** Every client of the lobby is stored under its own identifier, as
    [JoinLobby] stores it. *)
Definition clientsKeyedByID (lobby : Lobby) : Prop :=
  forall k c, Clients lobby !! k = Some c -> Client_ID c = k.

(** No lobby of the manager carries an identifier above the counter. *)
Definition lobbyIDsBelowCounter (lm : LobbyManager) : Prop :=
  forall k l, Lobbies lm !! k = Some l -> 0 <= k <= nextLobbyID lm.

Definition withState (c : Client) (st : DisclosedClientState) : Client :=
  {| Client_ID := Client_ID c; IDBytes := IDBytes c; IGN := IGN c;
     Client_Type := Client_Type c; State := st;
     Client_Encoding := Client_Encoding c; Conn := Conn c |}.

(** A [PLAYER_MOVE_EVENT] message for the example table: player 8 moves to
    location 5; the location is at bytes 12 to 15. *)
Definition moveMessage : bytes :=
  BigEndian_PutUint32 8 ++ BigEndian_PutUint32 2007
    ++ LittleEndian_PutUint32 8 ++ LittleEndian_PutUint32 5.

(** ** Further functions of the same files *)

(** [Lobby.ClientCount] and [LobbyManager.GetLobbyCount]: a [Range] that
    counts the entries. *)
Definition ClientCount (lobby : Lobby) : Z :=
  foldl (fun count (_ : ClientID * Client) => count + 1) 0
    (map_to_list (Clients lobby)).

Definition GetLobbyCount (lm : LobbyManager) : Z :=
  foldl (fun count (_ : LobbyID * Lobby) => count + 1) 0
    (map_to_list (Lobbies lm)).

(** [LobbyJoinError.Error]. *)
Definition LobbyJoinError_Error (e : LobbyJoinError) : string :=
  "Failed to join lobby " +:+ pretty (Err_LobbyID e) +:+ ": " +:+ Reason e.

(** [processClosures]: the lobbies received from the close queue, in the
    order received, are unregistered one by one. *)
Definition processClosures (lm : LobbyManager) (queue : list Lobby)
  : LobbyManager * list Event :=
  foldl (fun (acc : LobbyManager * list Event) lobby =>
           let '(lm', ev') := UnregisterLobby acc.1 lobby in (lm', acc.2 ++ ev'))
        (lm, []) queue.

(** The identifiers sent to the close queue in a run. *)
Definition enqueued (ev : list Event) : list LobbyID :=
  omap (fun e => match e with EvEnqueueClose id => Some id | _ => None end) ev.

(** What the manager and the HTTP handlers do beyond the events of a
    lobby: closing the close queue, and writing a text frame to a
    connection that has not joined. *)
Inductive ManagerEvent : Type :=
| InLobby (e : Event)
| EvCloseQueueClosed
| EvConnWriteText (conn : Z) (data : bytes).

Section Shutdown.
Context `{Env : Environment}.
(** [SERVER_CLOSING_EVENT.CopyIDBytes()]; the event table is not part of
    the available sources. *)
Variable SERVER_CLOSING_IDBytes : bytes.

(** The body of the [Range] in [ShutdownLobbyManager] for one entry: the
    lobby is told that the server closes and is then closed; the lobby
    behind the pointer changes, under the key it was found at.  A panic
    ends the walk. *)
Definition shutdownLobby (queueClosed : bool)
    (acc : Outcome (gmap LobbyID Lobby * list Event))
    (kv : LobbyID * Lobby) : Outcome (gmap LobbyID Lobby * list Event) :=
  match acc with
  | Panic e => Panic e
  | Ok (lobbies, ev) =>
      match close kv.2 queueClosed with
      | Panic e => Panic e
      | Ok (value', evClose) =>
          Ok (<[kv.1 := value']> lobbies,
              ev ++ BroadcastMessage kv.2 SERVER_ID SERVER_CLOSING_IDBytes
                 ++ evClose)
      end
  end.

(** [ShutdownLobbyManager]; [close(lm.CloseQueue)] panics when the channel
    is closed already. *)
Definition ShutdownLobbyManager (lm : LobbyManager)
  : Outcome (LobbyManager * list ManagerEvent) :=
  let lm1 := setAcceptsNewLobbies lm false in
  match foldl (shutdownLobby (CloseQueueClosed lm1)) (Ok (Lobbies lm1, []))
          (map_to_list (Lobbies lm1)) with
  | Panic e => Panic e
  | Ok (lobbies, ev) =>
      if CloseQueueClosed lm1 then Panic "close of closed channel"
      else Ok (setCloseQueueClosed (setLobbies lm1 lobbies) true,
               (InLobby <$> ev) ++ [EvCloseQueueClosed])
  end.

End Shutdown.

(** ** The HTTP handlers *)

(** What a handler leaves in the [http.ResponseWriter]: the status, the
    [Default-Debug-Header] if set, and the body. *)
Record Response : Type := {
  Status : Z;
  DebugHeader : option string;
  Body : string
}.

Definition StatusBadRequest : Z := 400.
Definition StatusNotFound : Z := 404.
Definition StatusConflict : Z := 409.
Definition StatusGone : Z := 410.

Definition newline : string := String.String (Ascii.ascii_of_nat 10) "".

(** [w.Header().Set("Default-Debug-Header", header); http.Error(w, text, code)]. *)
Definition httpError (header : string) (text : string) (code : Z) : Response :=
  {| Status := code; DebugHeader := Some header; Body := text +:+ newline |}.

(** The result of [upgrader.Upgrade(w, r, nil)] of gorilla/websocket: the
    connection, or a failure.  A failing [Upgrade] has either answered the
    request itself, and [answer] is what it has written, or it has taken
    the connection over from the server and closed it, so that nothing
    written to [w] reaches the client any more. *)
Inductive UpgradeResult : Type :=
| Upgraded (conn : Z)
| UpgradeRefused (answer : Response)
| UpgradeAborted.

(** [http.Error(w, text, code)] on a writer whose status line has been
    written: the second [WriteHeader] is ignored and so are the headers set
    after the first; the text is appended to the body.  [headerSet] is the
    [Default-Debug-Header] that the handler had set before the status line
    was written, if any. *)
Definition httpErrorAfter (answer : Response) (headerSet : option string)
    (text : string) : Response :=
  {| Status := Status answer;
     DebugHeader := match headerSet with
                    | Some h => Some h
                    | None => DebugHeader answer
                    end;
     Body := Body answer +:+ text +:+ newline |}.

Section Handlers.
Context `{Env : Environment}.
(** [strconv.Atoi] and [strconv.ParseUint(_, 10, 32)]: the value and the
    error. *)
Variable strconv_Atoi : string -> Z * option string.
Variable strconv_ParseUint32 : string -> Z * option string.
(** [internal.DEBUG_EVENT.CopyIDBytes()], [util.BytesOfUint32] and
    [util.EncodeBase16], whose sources are not available. *)
Variable DEBUG_IDBytes : bytes.
Variable BytesOfUint32 : Z -> bytes.
Variable EncodeBase16 : bytes -> bytes.

(** [query] is [r.URL.Query().Get]: the empty string for a key that is
    absent. *)
Definition getAsInt (query : string -> string) (key : string)
  : Z * option string :=
  let value := query key in
  if String.eqb value "" then (0, Some ("query param " +:+ key +:+ " missing"))
  else strconv_Atoi value.

Definition getAsUint32 (query : string -> string) (key : string)
  : Z * option string :=
  let value := query key in
  if String.eqb value "" then (0, Some ("query param " +:+ key +:+ " missing"))
  else
    let '(parsed, err) := strconv_ParseUint32 value in (wrap32 parsed, err).



(** [webSocketConnectionRequestHandler].  [upgrade] is the result of
    [upgrader.Upgrade].  The response is what reaches the client over
    HTTP; it is [None] once the connection has been taken over from the
    server: a status that the handler sets after that is not sent. *)
Definition webSocketConnectionRequestHandler (lobbyManager : LobbyManager)
    (query : string -> string) (upgrade : UpgradeResult)
  : LobbyManager * list ManagerEvent * option Response :=
  let '(lobbyID, lobbyIDErr) := getAsInt query "lobbyID" in
  let '(userID, userIDErr) := getAsInt query "clientID" in
  let IGN := query "IGN" in
  let '(colonyID, colonyIDErr) := getAsUint32 query "colonyID" in
  let '(ownerID, ownerIDErr) := getAsUint32 query "ownerID" in
  if String.eqb IGN "" then
    (lobbyManager, [],
     Some (httpError "IGN query param missing" "IGN not provided" StatusBadRequest))
  else
  match lobbyIDErr with
  | Some e =>
      (lobbyManager, [],
       Some (httpError ("Error in lobbyID: " +:+ e) ("Error in lobbyID: " +:+ e)
               StatusBadRequest))
  | None =>
  match userIDErr with
  | Some e =>
      (lobbyManager, [],
       Some (httpError ("Error in clientID: " +:+ e) ("Error in clientID: " +:+ e)
               StatusBadRequest))
  | None =>
  match colonyIDErr with
  | Some e =>
      (lobbyManager, [],
       Some (httpError ("Error in colonyID: " +:+ e) ("Error in colonyID: " +:+ e)
               StatusBadRequest))
  | None =>
  match ownerIDErr with
  | Some e =>
      (lobbyManager, [],
       Some (httpError ("Error in ownerID: " +:+ e) ("Error in ownerID: " +:+ e)
               StatusBadRequest))
  | None =>
      let '(evPossible, possible) :=
        IsJoinPossible lobbyManager (wrap32 lobbyID) (wrap32 userID)
          colonyID ownerID in
      let refused : option Response :=
        match possible with
        | Some err =>
            match Err_Type err with
            | JoinErrorNotFound =>
                Some (httpError (LobbyJoinError_Error err) "Lobby not found"
                        StatusNotFound)
            | JoinErrorAlreadyInLobby =>
                Some (httpError (LobbyJoinError_Error err) "User already in lobby"
                        StatusConflict)
            | JoinErrorClosing =>
                Some (httpError (LobbyJoinError_Error err) "Lobby is closing"
                        StatusGone)
            | JoinErrorSerializationFailure => None
            end
        | None => None
        end in
      match refused with
      | Some response => (lobbyManager, InLobby <$> evPossible, Some response)
      | None =>
          match upgrade with
          | UpgradeRefused answer =>
              (* http.Error(w, "Failed to upgrade connection", 500) *)
              (lobbyManager, InLobby <$> evPossible,
               Some (httpErrorAfter answer (LobbyJoinError_Error <$> possible)
                       "Failed to upgrade connection"))
          | UpgradeAborted => (lobbyManager, InLobby <$> evPossible, None)
          | Upgraded conn =>
              match JoinLobby lobbyManager (wrap32 lobbyID) (wrap32 userID)
                      IGN conn with
              | (lm', evJoin, Some joinError) =>
                  let msg := DEBUG_IDBytes ++ BytesOfUint32 500
                               ++ bytes_of_string (LobbyJoinError_Error joinError) in
                  (* the header and the status 500 set here are not sent *)
                  (lm',
                   (InLobby <$> (evPossible ++ evJoin))
                     ++ [EvConnWriteText conn (EncodeBase16 msg);
                         InLobby (EvConnClose conn)],
                   None)
              | (lm', evJoin, None) =>
                  (lm', InLobby <$> (evPossible ++ evJoin), None)
              end
          end
      end
  end end end end.

End Handlers.

(** Go's [strconv] on decimal strings, for the examples: digits only for
    [ParseUint], an optional sign for [Atoi]; a value out of range is
    clamped and reported. *)
Fixpoint digitsValue (acc : Z) (s : string) : option Z :=
  match s with
  | EmptyString => Some acc
  | String.String c rest =>
      let d := Z.of_nat (Ascii.nat_of_ascii c) - 48 in
      if (0 <=? d) && (d <=? 9) then digitsValue (acc * 10 + d) rest else None
  end.

Definition ParseUint32_model (s : string) : Z * option string :=
  match s with
  | EmptyString => (0, Some "invalid syntax")
  | _ =>
      match digitsValue 0 s with
      | None => (0, Some "invalid syntax")
      | Some v =>
          if v <? 2 ^ 32 then (v, None) else (2 ^ 32 - 1, Some "value out of range")
      end
  end.

Definition Atoi_model (s : string) : Z * option string :=
  let '(negative, digits) :=
    match s with
    | String.String c rest =>
        if Ascii.eqb c (Ascii.ascii_of_nat 45) then (true, rest)
        else if Ascii.eqb c (Ascii.ascii_of_nat 43) then (false, rest)
        else (false, s)
    | EmptyString => (false, s)
    end in
  match digits with
  | EmptyString => (0, Some "invalid syntax")
  | _ =>
      match digitsValue 0 digits with
      | None => (0, Some "invalid syntax")
      | Some v =>
          if negative then
            if v <=? 2 ^ 63 then (- v, None) else (- 2 ^ 63, Some "value out of range")
          else
            if v <? 2 ^ 63 then (v, None) else (2 ^ 63 - 1, Some "value out of range")
      end
  end.

(** A query string as an association list. *)
Definition queryOf (params : list (string * string)) (key : string) : string :=
  match List.find (fun kv : string * string => String.eqb kv.1 key) params with
  | Some kv => kv.2
  | None => ""
  end.

(** The descriptor that [ComputeStructure] appends for [e] when the
    running offset is [off]. *)
Definition describe (off : Z) (e : ShortElementDescriptor) : MessageElementDescriptor :=
  {| ByteSize := sizeOfSerializedKind (ShortKind e);
     Offset := off;
     FieldName := ShortFieldName e;
     Description := ShortDescription e;
     ElementKind := ShortKind e |}.

(** Every kind is supported and a variable-size element is the last. *)
Definition acceptable (s : list ShortElementDescriptor) : Prop :=
  forall (i : nat) e, s !! i = Some e ->
    isValidKind (ShortKind e) = None
    /\ (isKindOfVariableSize (ShortKind e) = true ->
        Z.of_nat i = Z.of_nat (length s) - 1).

(** A structure with two strings, and one with a machine-sized integer in
    the middle. *)
Definition twoStrings : list ShortElementDescriptor :=
  [ NewElementDescriptor "First" "first" String;
    NewElementDescriptor "Second" "second" String ].

Definition intInTheMiddle : list ShortElementDescriptor :=
  [ NewElementDescriptor "ID" "id" Uint32;
    NewElementDescriptor "Count" "count" Int;
    NewElementDescriptor "Flag" "flag" Bool ].

(** A debug frame that refuses a frame: codes 400, 401 and 404. *)
Definition isRefusal (e : Event) : Prop :=
  match e with
  | EvSendDebugInfo _ code _ => code = 400 \/ code = 401 \/ code = 404
  | _ => False
  end.

(** The example environment with a handler that fails, and with one that
    reports unresponsive clients. *)
Definition withHandlerResult (result : option string) : Environment :=
  {| hex_DecodeString := hexDecode;
     ExtractClientIDAndMessageID :=
       ExtractClientIDAndMessageID_model ALL_ASTEROIDS_EVENTS;
     SendDebugInfoToClient := fun target _ _ =>
       match target with
       | Some _ => Ok None
       | None => Panic "invalid memory address or nil pointer dereference"
       end;
     invokeHandler := fun _ lobby _ _ _ => Ok (lobby, [], result);
     isUnresponsiveClientsError := fun e => String.eqb e "unresponsive clients";
     PrepareServerMessage := PrepareServerMessage_model;
     Serialize_PlayerJoined := fun _ id ign =>
       inl (BigEndian_PutUint32 id ++ bytes_of_string ign);
     PLAYER_MOVE_EVENT := example_PLAYER_MOVE_EVENT;
     PLAYER_JOINED_EVENT := example_PLAYER_JOINED_EVENT;
     PLAYER_LEFT_EVENT := example_PLAYER_LEFT_EVENT;
     LOBBY_CLOSING_EVENT := example_LOBBY_CLOSING_EVENT;
     DIFFICULTY_SELECT_FOR_MINIGAME_EVENT := example_DIFFICULTY_SELECT_EVENT |}.

Definition failingEnv : Environment := withHandlerResult (Some "boom").
Definition unresponsiveEnv : Environment :=
  withHandlerResult (Some "unresponsive clients").

(** A text frame: the hexadecimal form of [shootFrameFrom7] followed by two
    characters that are not hexadecimal digits. *)
Definition brokenTextFrame : bytes :=
  bytes_of_string "0000000700000bbb0000000761zz".

(** Every lobby is stored under its own identifier, no two lobbies share a
    colony, and the clients of every lobby are stored under their own
    identifiers. *)
Definition lobbiesKeyedByID (lm : LobbyManager) : Prop :=
  forall k l, Lobbies lm !! k = Some l -> Lobby_ID l = k.

Definition colonyUnique (lm : LobbyManager) : Prop :=
  forall k1 k2 l1 l2,
    Lobbies lm !! k1 = Some l1 -> Lobbies lm !! k2 = Some l2 ->
    ColonyID l1 = ColonyID l2 -> k1 = k2.

Definition managerWellFormed (lm : LobbyManager) : Prop :=
  lobbiesKeyedByID lm /\ colonyUnique lm
  /\ forall k l, Lobbies lm !! k = Some l -> clientsKeyedByID l.

(** The events of lobbies among the events of the manager. *)
Definition lobbyEvents (ev : list ManagerEvent) : list Event :=
  omap (fun e => match e with InLobby e' => Some e' | _ => None end) ev.

(** One step of the manager's state: a creation, a join, the end of a
    session of a lobby (the lobby behind the pointer changes under its
    key), an unregistration, a shutdown.  A call that panics ends the
    program and is no step.  The effect of message handlers, which the
    environment interprets, is not among the steps. *)
Inductive managerStep `{Env : Environment} : LobbyManager -> LobbyManager -> Prop :=
| step_create lm ownerID colonyID encoding lm' result :
    CreateLobby lm ownerID colonyID encoding = (lm', result) ->
    managerStep lm lm'
| step_join lm lobbyID clientID ign conn lm' ev err :
    JoinLobby lm lobbyID clientID ign conn = (lm', ev, err) ->
    managerStep lm lm'
| step_disconnect lm k lobby client lobby' ev :
    Lobbies lm !! k = Some lobby ->
    onDisconnect client lobby client (CloseQueueClosed lm) = Ok (lobby', ev) ->
    managerStep lm (setLobbies lm (<[k := lobby']> (Lobbies lm)))
| step_unregister lm lobby lm' ev :
    UnregisterLobby lm lobby = (lm', ev) ->
    managerStep lm lm'
| step_shutdown lm idBytes lm' ev :
    ShutdownLobbyManager idBytes lm = Ok (lm', ev) ->
    managerStep lm lm'.

(** The example manager after a lobby for colony 43, owned by client 11,
    has been created, and after the stranger has joined lobby 2. *)
Definition managerWithLobby3 : LobbyManager :=
  setLobbies (setNextLobbyID exampleManager 3)
    (<[3 := NewLobby 3 11 43 MESSAGE_ENCODING_BASE16]> (Lobbies exampleManager)).

Definition managerAfterJoin9 : LobbyManager :=
  setLobbies exampleManager
    (<[2 := setClients exampleLobby (<[9 := stranger9]> (Clients exampleLobby))]>
       (Lobbies exampleManager)).


Definition unknownLobby : Lobby := NewLobby 5 1 99 MESSAGE_ENCODING_BINARY.

(** The parameters of a connection request are all present and parse to
    [lid], [cid], [col] and [own]. *)
Definition wellParsed (Atoi ParseUint32 : string -> Z * option string)
    (query : string -> string) (lid cid col own : Z) : Prop :=
  query "IGN" <> ""
  /\ getAsInt Atoi query "lobbyID" = (lid, None)
  /\ getAsInt Atoi query "clientID" = (cid, None)
  /\ getAsUint32 ParseUint32 query "colonyID" = (col, None)
  /\ getAsUint32 ParseUint32 query "ownerID" = (own, None).

(** Lower-case hexadecimal digits, as [encoding/hex] writes them, for the
    examples. *)
Definition hexDigit (n : Z) : Byte.byte :=
  Zbyte (if n <? 10 then 48 + n else 87 + n).

Definition hexEncode (b : bytes) : bytes :=
  flat_map (fun x => [hexDigit (byteZ x / 16); hexDigit (byteZ x mod 16)]) b.

(** The requests of the examples: a connection request for colony 42 of
    owner 7 by a player called nina, and a creation request for colony
    43. *)
Definition connectQuery (lobbyID clientID : string) : string -> string :=
  queryOf [("lobbyID", lobbyID); ("clientID", clientID); ("IGN", "nina");
           ("colonyID", "42"); ("ownerID", "7")].


(** What gorilla/websocket answers to a request that is not a websocket
    handshake. *)
Definition badHandshake : UpgradeResult :=
  UpgradeRefused {| Status := StatusBadRequest; DebugHeader := None;
                    Body := "Bad Request" +:+ newline |}.

Definition exampleConnect (lm : LobbyManager) (query : string -> string)
    (upgrade : UpgradeResult)
  : LobbyManager * list ManagerEvent * option Response :=
  webSocketConnectionRequestHandler (Env := exampleEnv) Atoi_model
    ParseUint32_model (BigEndian_PutUint32 0) BigEndian_PutUint32 hexEncode
    lm query upgrade.

(** * Properties *)

(** ** ComputeStructure *)

Lemma wrap32_add_l a b : wrap32 (wrap32 a + b) = wrap32 (a + b).
Proof. unfold wrap32. apply Zplus_mod_idemp_l. Qed.

Lemma variable_kind_has_size_0 k :
  isKindOfVariableSize k = true -> sizeOfSerializedKind k = 0.
Proof. destruct k; simpl; intros H; congruence. Qed.

Lemma sumByteSizes_fixedElements s :
  sumByteSizes (fixedElements s) = sumByteSizes s.
Proof.
  unfold fixedElements.
  induction s as [|e s IH]; [reflexivity|].
  rewrite filter_cons. simpl.
  destruct (decide (isKindOfVariableSize (ShortKind e) = false)) as [Hf|Hv].
  - simpl. rewrite IH. reflexivity.
  - apply not_false_is_true in Hv.
    rewrite (variable_kind_has_size_0 _ Hv), IH. reflexivity.
Qed.

Lemma ComputeStructure_body_sizes name len i e st st' :
  ComputeStructure_body name len i e st = Ok st' ->
  minimumTotalSize st' = wrap32 (minimumTotalSize st + sizeOfSerializedKind (ShortKind e))
  /\ offset st' = wrap32 (offset st + sizeOfSerializedKind (ShortKind e)).
Proof.
  unfold ComputeStructure_body.
  destruct (isValidKind (ShortKind e)); [discriminate|].
  destruct (isKindOfVariableSize (ShortKind e) && hasVariableSizeElement st);
    [discriminate|].
  destruct (isKindOfVariableSize (ShortKind e) && negb (i =? len - 1));
    [discriminate|].
  intros [= <-]. simpl. split; reflexivity.
Qed.

Lemma ComputeStructure_loop_sizes name len rest : forall i st st',
  ComputeStructure_loop name len i rest st = Ok st' ->
  minimumTotalSize st' = wrap32 (minimumTotalSize st + sumByteSizes rest)
  /\ offset st' = wrap32 (offset st + sumByteSizes rest)
  \/ rest = [] /\ st' = st.
Proof.
  induction rest as [|e rest IH]; intros i st st' H; simpl in H.
  - right. split; congruence.
  - left.
    destruct (ComputeStructure_body name len i e st) as [st1|] eqn:Hb;
      [|discriminate].
    apply ComputeStructure_body_sizes in Hb as [Hm Ho].
    destruct (IH _ _ _ H) as [[Hm' Ho']|[-> ->]].
    + rewrite Hm', Ho', Hm, Ho, !wrap32_add_l. simpl sumByteSizes.
      split; f_equal; lia.
    + simpl sumByteSizes. rewrite Hm, Ho. split; f_equal; lia.
Qed.

(** C2, as amended: when [ComputeStructure] accepts a structure, the size
    it returns is the sum of the byte sizes of the fixed-size elements, in
    32-bit arithmetic, and the header is not part of it: the size the
    specification describes is the returned size plus the eight bytes of
    the header. *)
Theorem ComputeStructure_returns_payload_size name s m cs :
  ComputeStructure name s = Ok (m, cs) ->
  m = wrap32 (sumByteSizes (fixedElements s))
  /\ spec_expectedMinSize s = wrap32 (MESSAGE_HEADER_SIZE + m).
Proof.
  unfold ComputeStructure, spec_expectedMinSize.
  destruct (ComputeStructure_loop name (Z.of_nat (length s)) 0 s _)
    as [st|] eqn:Hl; [|discriminate].
  intros [= <- <-]. rewrite sumByteSizes_fixedElements.
  assert (Hm : minimumTotalSize st = wrap32 (sumByteSizes s)).
  { destruct (ComputeStructure_loop_sizes _ _ _ _ _ _ Hl) as [[Hm _]|[-> ->]];
      [exact Hm | reflexivity]. }
  split; [exact Hm|].
  rewrite Hm. unfold wrap32. rewrite Zplus_mod_idemp_r. reflexivity.
Qed.

Lemma ComputeStructure_returns_payload_size_witness :
  15 = wrap32 (sumByteSizes (fixedElements ASTEROID_SPAWN_structure))
  /\ spec_expectedMinSize ASTEROID_SPAWN_structure = wrap32 (MESSAGE_HEADER_SIZE + 15).
Proof.
  eapply (ComputeStructure_returns_payload_size "AsteroidsAsteroidSpawn"
            ASTEROID_SPAWN_structure 15).
  vm_compute. reflexivity.
Defined.

(** C2 as stated fails: for the two [uint32] elements of
    [ASTEROID_IMPACT_EVENT] the function returns 8, and the header plus
    the fixed sizes is 16. *)
Lemma ComputeStructure_omits_header :
  match ComputeStructure "AsteroidsAsteroidImpactOnColony" ASTEROID_IMPACT_structure with
  | Ok (m, _) => m = 8 /\ spec_expectedMinSize ASTEROID_IMPACT_structure = 16
                 /\ m <> spec_expectedMinSize ASTEROID_IMPACT_structure
  | Panic _ => False
  end.
Proof. vm_compute. repeat split; discriminate. Qed.

(** ** DisclosedClientState.UpdateAny *)

Lemma slice_within s behind lo hi :
  0 <= lo -> lo <= hi -> hi <= Z.of_nat (length s + length behind) ->
  slice s behind lo hi
  = Ok (take (Z.to_nat (hi - lo)) (drop (Z.to_nat lo) (s ++ behind))).
Proof.
  intros H0 H1 H2. unfold slice.
  replace (0 <=? lo) with true by (symmetry; apply Z.leb_le; exact H0).
  replace (lo <=? hi) with true by (symmetry; apply Z.leb_le; exact H1).
  replace (hi <=? Z.of_nat (length s + length behind)) with true
    by (symmetry; apply Z.leb_le; exact H2).
  reflexivity.
Qed.

Lemma slice_outside s behind lo hi :
  lo < 0 \/ hi < lo \/ Z.of_nat (length s + length behind) < hi ->
  slice s behind lo hi = Panic "slice bounds out of range".
Proof.
  intros H. unfold slice.
  destruct (Z.leb_spec 0 lo); [|reflexivity].
  destruct (Z.leb_spec lo hi); [|reflexivity].
  destruct (Z.leb_spec hi (Z.of_nat (length s + length behind))); [|reflexivity].
  lia.
Qed.

Lemma slice_length s behind lo hi sub :
  slice s behind lo hi = Ok sub -> Z.of_nat (length sub) = hi - lo.
Proof.
  unfold slice.
  destruct (Z.leb_spec 0 lo); [|discriminate].
  destruct (Z.leb_spec lo hi); [|discriminate].
  destruct (Z.leb_spec hi (Z.of_nat (length s + length behind))); [|discriminate].
  simpl. intros [= <-].
  rewrite length_take, length_drop, length_app. lia.
Qed.

Lemma LittleEndian_Uint32_returns b :
  (4 <= length b)%nat -> exists v, LittleEndian_Uint32 b = Ok v.
Proof.
  destruct b as [|b0 [|b1 [|b2 [|b3 rest]]]]; simpl; intros H; try lia.
  eexists. reflexivity.
Qed.

Lemma LittleEndian_Uint32_short b :
  (length b < 4)%nat -> LittleEndian_Uint32 b = Panic "index out of range".
Proof.
  destruct b as [|b0 [|b1 [|b2 [|b3 rest]]]]; simpl; intros H;
    try reflexivity; lia.
Qed.

Lemma UpdateAny_other_message PM now dcs messageID remainder behind :
  messageID <> Spec_ID PM ->
  UpdateAny PM now dcs messageID remainder behind
  = Ok {| LastKnownPosition := LastKnownPosition dcs;
          MSOfLastMessage := nowInMS now |}.
Proof.
  intros Hne. unfold UpdateAny.
  destruct (Z.eqb_spec messageID (Spec_ID PM)); [contradiction|reflexivity].
Qed.

Lemma UpdateAny_move_message PM now dcs remainder behind el sub v :
  Structure PM !! 1%nat = Some el ->
  slice remainder behind (Offset el) (wrap32 (Offset el + ByteSize el)) = Ok sub ->
  LittleEndian_Uint32 sub = Ok v ->
  UpdateAny PM now dcs (Spec_ID PM) remainder behind
  = Ok {| LastKnownPosition := v; MSOfLastMessage := nowInMS now |}.
Proof.
  intros Hel Hsl Hv. unfold UpdateAny, index.
  rewrite Z.eqb_refl, Hel, Hsl, Hv. reflexivity.
Qed.

Lemma UpdateAny_returns PM now dcs messageID remainder behind dcs' :
  UpdateAny PM now dcs messageID remainder behind = Ok dcs' ->
  MSOfLastMessage dcs' = nowInMS now
  /\ (LastKnownPosition dcs' <> LastKnownPosition dcs -> messageID = Spec_ID PM).
Proof.
  destruct (Z.eq_dec messageID (Spec_ID PM)) as [->|Hne].
  - intros H. split; [|reflexivity].
    unfold UpdateAny in H.
    repeat match type of H with
           | match ?x with _ => _ end = _ => destruct x; try discriminate
           end.
    injection H as <-. reflexivity.
  - rewrite UpdateAny_other_message by assumption.
    intros [= <-]. simpl. split; [reflexivity|congruence].
Qed.

(** The second element of the event lies within the capacity of the
    payload and is at least four bytes long. *)
Lemma UpdateAny_within_capacity PM now dcs remainder behind el :
  Structure PM !! 1%nat = Some el ->
  0 <= Offset el ->
  Offset el + 4 <= wrap32 (Offset el + ByteSize el) ->
  wrap32 (Offset el + ByteSize el) <= Z.of_nat (length remainder + length behind) ->
  exists sub v,
    slice remainder behind (Offset el) (wrap32 (Offset el + ByteSize el)) = Ok sub
    /\ LittleEndian_Uint32 sub = Ok v
    /\ UpdateAny PM now dcs (Spec_ID PM) remainder behind
       = Ok {| LastKnownPosition := v; MSOfLastMessage := nowInMS now |}.
Proof.
  intros Hel H0 H4 Hcap.
  pose proof (slice_within remainder behind (Offset el)
                (wrap32 (Offset el + ByteSize el)) H0 ltac:(lia) Hcap) as Hsl.
  destruct (LittleEndian_Uint32_returns
              (take (Z.to_nat (wrap32 (Offset el + ByteSize el) - Offset el))
                 (drop (Z.to_nat (Offset el)) (remainder ++ behind)))) as [v Hv].
  { apply slice_length in Hsl. lia. }
  eexists _, v. split; [exact Hsl|]. split; [exact Hv|].
  exact (UpdateAny_move_message _ _ _ _ _ _ _ _ Hel Hsl Hv).
Qed.

(** No second element, or one that does not lie within the capacity of the
    payload or is shorter than four bytes. *)
Lemma UpdateAny_panics PM now dcs remainder behind :
  (Structure PM !! 1%nat = None
   \/ exists el, Structure PM !! 1%nat = Some el
        /\ (Offset el < 0
            \/ wrap32 (Offset el + ByteSize el) < Offset el + 4
            \/ Z.of_nat (length remainder + length behind)
               < wrap32 (Offset el + ByteSize el))) ->
  exists msg, UpdateAny PM now dcs (Spec_ID PM) remainder behind = Panic msg.
Proof.
  unfold UpdateAny, index. rewrite Z.eqb_refl.
  intros [->|(el & -> & Hbad)]; [eexists; reflexivity|].
  destruct (slice remainder behind (Offset el) (wrap32 (Offset el + ByteSize el)))
    as [sub|e] eqn:Hsl; [|eexists; reflexivity].
  pose proof (slice_length _ _ _ _ _ Hsl) as Hlen.
  rewrite LittleEndian_Uint32_short; [eexists; reflexivity|].
  destruct Hbad as [H|[H|H]].
  - rewrite slice_outside in Hsl by lia. discriminate.
  - lia.
  - rewrite slice_outside in Hsl by lia. discriminate.
Qed.

(** The earlier revision stores the position alone, read big-endian. *)
Lemma ClientV1_UpdateAny_position PM dcs messageID remainder behind :
  (messageID <> Spec_ID PM ->
   ClientV1.UpdateAny PM dcs messageID remainder behind = Ok dcs)
  /\ (forall el sub v,
        messageID = Spec_ID PM ->
        Structure PM !! 1%nat = Some el ->
        slice remainder behind (Offset el) (wrap32 (Offset el + ByteSize el))
        = Ok sub ->
        BigEndian_Uint32 sub = Ok v ->
        ClientV1.UpdateAny PM dcs messageID remainder behind
        = Ok {| ClientV1.LastKnownPosition := v |}).
Proof.
  unfold ClientV1.UpdateAny, index. split.
  - intros Hne. destruct (Z.eqb_spec messageID (Spec_ID PM)); [contradiction|reflexivity].
  - intros el sub v -> Hel Hsl Hv. rewrite Z.eqb_refl, Hel, Hsl, Hv. reflexivity.
Qed.

(** C8, as amended: the call [client.State.UpdateAny(messageID, payload)],
    where [behind] holds the bytes that follow the payload in its backing
    array,
    (i) for an identifier other than [PLAYER_MOVE_EVENT.ID] returns, keeps
    [LastKnownPosition] and stamps [MSOfLastMessage] with the clock in
    milliseconds;
    (ii) for [PLAYER_MOVE_EVENT.ID] returns when the slice expression and
    the decoding succeed, stores the 32-bit value read at the offset and
    size of the second structure element, and stamps [MSOfLastMessage];
    (iii) they succeed when the event has a second element that is at least
    four bytes long and lies within the capacity of the payload;
    (iv) otherwise the call panics: nothing is stored and nothing is
    stamped;
    (v) whenever it returns, the stamp is the clock, the position has
    changed only if the identifier is [PLAYER_MOVE_EVENT.ID], and every
    other field of the client is as before. *)
Theorem Client_UpdateAny_effect (PM : EventSpecification) (now : Z) (c : Client)
    (messageID : MessageID) (payload behind : bytes) :
  (messageID <> Spec_ID PM ->
   Client_UpdateAny PM now c messageID payload behind
   = Ok (withState c {| LastKnownPosition := LastKnownPosition (State c);
                        MSOfLastMessage := nowInMS now |}))
  /\ (forall el sub v,
        messageID = Spec_ID PM ->
        Structure PM !! 1%nat = Some el ->
        slice payload behind (Offset el) (wrap32 (Offset el + ByteSize el)) = Ok sub ->
        LittleEndian_Uint32 sub = Ok v ->
        Client_UpdateAny PM now c messageID payload behind
        = Ok (withState c {| LastKnownPosition := v;
                             MSOfLastMessage := nowInMS now |}))
  /\ (forall el,
        messageID = Spec_ID PM ->
        Structure PM !! 1%nat = Some el ->
        0 <= Offset el ->
        Offset el + 4 <= wrap32 (Offset el + ByteSize el) ->
        wrap32 (Offset el + ByteSize el)
        <= Z.of_nat (length payload + length behind) ->
        exists sub v,
          slice payload behind (Offset el) (wrap32 (Offset el + ByteSize el))
          = Ok sub
          /\ LittleEndian_Uint32 sub = Ok v
          /\ Client_UpdateAny PM now c messageID payload behind
             = Ok (withState c {| LastKnownPosition := v;
                                  MSOfLastMessage := nowInMS now |}))
  /\ (messageID = Spec_ID PM ->
      (Structure PM !! 1%nat = None
       \/ exists el, Structure PM !! 1%nat = Some el
            /\ (Offset el < 0
                \/ wrap32 (Offset el + ByteSize el) < Offset el + 4
                \/ Z.of_nat (length payload + length behind)
                   < wrap32 (Offset el + ByteSize el))) ->
      exists msg, Client_UpdateAny PM now c messageID payload behind = Panic msg)
  /\ (forall c',
        Client_UpdateAny PM now c messageID payload behind = Ok c' ->
        MSOfLastMessage (State c') = nowInMS now
        /\ (LastKnownPosition (State c') <> LastKnownPosition (State c) ->
            messageID = Spec_ID PM)
        /\ Client_ID c' = Client_ID c /\ IDBytes c' = IDBytes c
        /\ IGN c' = IGN c /\ Client_Type c' = Client_Type c
        /\ Client_Encoding c' = Client_Encoding c /\ Conn c' = Conn c).
Proof.
  unfold Client_UpdateAny. split; [|split; [|split; [|split]]].
  - intros Hne. rewrite UpdateAny_other_message by assumption. reflexivity.
  - intros el sub v -> Hel Hsl Hv.
    rewrite (UpdateAny_move_message _ _ _ _ _ _ _ _ Hel Hsl Hv). reflexivity.
  - intros el -> Hel H0 H4 Hcap.
    destruct (UpdateAny_within_capacity PM now (State c) payload behind el
                Hel H0 H4 Hcap) as (sub & v & Hsl & Hv & Hu).
    exists sub, v. split; [exact Hsl|]. split; [exact Hv|].
    rewrite Hu. reflexivity.
  - intros -> Hbad.
    destruct (UpdateAny_panics PM now (State c) payload behind Hbad) as [msg Hu].
    exists msg. rewrite Hu. reflexivity.
  - intros c'.
    destruct (UpdateAny PM now (State c) messageID payload behind) as [st|] eqn:Hu;
      [|discriminate].
    intros [= <-]. simpl.
    destruct (UpdateAny_returns _ _ _ _ _ _ _ Hu) as [Hs Hp].
    repeat split; assumption.
Qed.

Lemma Client_UpdateAny_effect_witness :
  Client_UpdateAny example_PLAYER_MOVE_EVENT 1700000000123456789 guest8 3003
    moveMessage []
  = Ok (withState guest8 {| LastKnownPosition := 0;
                            MSOfLastMessage := 1700000000123 |})
  /\ Client_UpdateAny example_PLAYER_MOVE_EVENT 1700000000123456789 guest8 2007
       moveMessage []
     = Ok (withState guest8 {| LastKnownPosition := 5;
                               MSOfLastMessage := 1700000000123 |})
  /\ (exists msg,
        Client_UpdateAny example_PLAYER_MOVE_EVENT 1700000000123456789 guest8 2007
          (take 12 moveMessage) [] = Panic msg)
  /\ MSOfLastMessage (State (withState guest8
        {| LastKnownPosition := 5; MSOfLastMessage := 1700000000123 |}))
     = nowInMS 1700000000123456789.
Proof.
  split; [|split; [|split]].
  - apply (proj1 (Client_UpdateAny_effect example_PLAYER_MOVE_EVENT
                    1700000000123456789 guest8 3003 moveMessage [])).
    vm_compute. discriminate.
  - apply (proj1 (proj2 (Client_UpdateAny_effect example_PLAYER_MOVE_EVENT
                           1700000000123456789 guest8 2007 moveMessage []))
             {| ByteSize := 4; Offset := 12; FieldName := "colonyLocationID";
                Description := "Colony Location ID"; ElementKind := Uint32 |}
             (LittleEndian_PutUint32 5) 5);
      reflexivity.
  - apply (proj1 (proj2 (proj2 (proj2 (Client_UpdateAny_effect
             example_PLAYER_MOVE_EVENT 1700000000123456789 guest8 2007
             (take 12 moveMessage) []))))); [reflexivity|].
    right.
    exists {| ByteSize := 4; Offset := 12; FieldName := "colonyLocationID";
              Description := "Colony Location ID"; ElementKind := Uint32 |}.
    split; [reflexivity|]. right. right. vm_compute. reflexivity.
  - apply (proj2 (proj2 (proj2 (proj2 (Client_UpdateAny_effect
             example_PLAYER_MOVE_EVENT 1700000000123456789 guest8 2007
             moveMessage []))))
             (withState guest8 {| LastKnownPosition := 5;
                                  MSOfLastMessage := 1700000000123 |})).
    reflexivity.
Defined.

(** C8 as stated fails: for [PLAYER_MOVE_EVENT.ID] and a payload of four
    bytes, with nothing behind them, the slice expression panics, so the
    call does not stamp [MSOfLastMessage]; and with a position behind the
    four bytes, that position, which is not part of the payload, is what
    is stored. *)
Lemma UpdateAny_panics_before_stamp :
  UpdateAny example_PLAYER_MOVE_EVENT 5000000 NewDisclosedClientState 2007
    (LittleEndian_PutUint32 8) []
  = Panic "slice bounds out of range"
  /\ Client_UpdateAny example_PLAYER_MOVE_EVENT 5000000 guest8 2007
       (LittleEndian_PutUint32 8) []
     = Panic "slice bounds out of range"
  /\ UpdateAny example_PLAYER_MOVE_EVENT 5000000 NewDisclosedClientState 2007
       (LittleEndian_PutUint32 8)
       (BigEndian_PutUint32 0 ++ BigEndian_PutUint32 0 ++ LittleEndian_PutUint32 77)
     = Ok {| LastKnownPosition := 77; MSOfLastMessage := 5 |}.
Proof. vm_compute. repeat split; reflexivity. Qed.

(** ** The read loop *)

Section ReadLoopProperties.
Context `{Env : Environment}.

Lemma debugOrBreak_returns lobby target code text next lobby' ev ctl :
  debugOrBreak lobby target code text next = Ok (lobby', ev, ctl) ->
  lobby' = lobby /\ ev = [EvSendDebugInfo target code text].
Proof.
  unfold debugOrBreak.
  destruct (SendDebugInfoToClient target code text) as [[e|]|];
    intros [= <- <- <-]; auto.
Qed.

Lemma processClientMessage_returns lobby c spec rem behind now lobby' ev err :
  processClientMessage lobby c spec rem behind now = Ok (lobby', ev, err) ->
  head ev = Some (EvHandler (Spec_ID spec) c rem).
Proof.
  unfold processClientMessage.
  destruct (invokeHandler (Handler spec) lobby c spec rem)
    as [[[l1 evH] herr]|]; [|discriminate].
  destruct herr as [e|].
  - destruct (negb (isUnresponsiveClientsError e)).
    + destruct (SendDebugInfoToClient _ _ _); [|discriminate].
      intros [= <- <- <-]. reflexivity.
    + destruct (trackClientMessage l1 c spec rem behind now); [|discriminate].
      intros [= <- <- <-]. reflexivity.
  - destruct (trackClientMessage l1 c spec rem behind now); [|discriminate].
    intros [= <- <- <-]. reflexivity.
Qed.

Lemma handleMessage_accepted lobby client now msg behind senderID spec rem c :
  ExtractClientIDAndMessageID msg = inl (senderID, spec, rem) ->
  Clients lobby !! senderID = Some c ->
  mayOriginate (SendPermissions spec) (Client_Type c) = true ->
  forall lobby' ev ctl,
    handleMessage lobby client now msg behind = Ok (lobby', ev, ctl) ->
    head ev = Some (EvHandler (Spec_ID spec) c rem).
Proof.
  intros Hx Hc Hp lobby' ev ctl. unfold handleMessage.
  rewrite Hx, Hc, Hp. simpl.
  destruct (processClientMessage lobby c spec rem behind now)
    as [[[l1 ev1] err]|] eqn:Hpm; [|discriminate].
  apply processClientMessage_returns in Hpm.
  destruct err as [e|].
  - destruct (debugOrBreak _ _ _ _ _) as [[[l2 ev2] ctl2]|]; [|discriminate].
    intros [= <- <- <-]. destruct ev1; [discriminate|]. exact Hpm.
  - intros [= <- <- <-]. exact Hpm.
Qed.

Lemma handleMessage_dispatch_inv lobby client now msg behind lobby' ev ctl specID c rem :
  handleMessage lobby client now msg behind = Ok (lobby', ev, ctl) ->
  head ev = Some (EvHandler specID c rem) ->
  exists senderID spec,
    ExtractClientIDAndMessageID msg = inl (senderID, spec, rem)
    /\ specID = Spec_ID spec
    /\ Clients lobby !! senderID = Some c
    /\ mayOriginate (SendPermissions spec) (Client_Type c) = true.
Proof.
  intros H Hh. unfold handleMessage in H.
  destruct (ExtractClientIDAndMessageID msg) as [[[sid spec] rem']|err] eqn:Hx.
  - destruct (Clients lobby !! sid) as [loaded|] eqn:Hc.
    + destruct (mayOriginate (SendPermissions spec) (Client_Type loaded)) eqn:Hp;
        simpl in H.
      * pose proof (handleMessage_accepted lobby client now msg behind _ _ _ _
                      Hx Hc Hp lobby' ev ctl) as Ha.
        unfold handleMessage in Ha. rewrite Hx, Hc, Hp in Ha. simpl in Ha.
        specialize (Ha H). rewrite Ha in Hh. injection Hh as <- <- <-.
        exists sid, spec. auto.
      * apply debugOrBreak_returns in H as [_ ->]. discriminate.
    + apply debugOrBreak_returns in H as [_ ->]. discriminate.
  - apply debugOrBreak_returns in H as [_ ->]. discriminate.
Qed.

(** C1, as amended: in the loop body run on the session of [client], a
    message whose handler is called has a header sender that is a key of
    the lobby's client map, and the specification permits the origin type
    of the client stored under that key; that stored client, not the
    client of the session, is what the handler receives.  A message whose
    sender is not a key, or whose stored client is not permitted, calls no
    handler and leaves the lobby as it is; the refusal for a stored client
    that is not permitted is a Debug(401) addressed to that stored client.
    When both checks pass and the run returns, the handler has been
    called. *)
Theorem handleMessage_checks_stored_client lobby client now msg behind :
  (forall lobby' ev ctl specID c rem,
     handleMessage lobby client now msg behind = Ok (lobby', ev, ctl) ->
     head ev = Some (EvHandler specID c rem) ->
     exists senderID spec,
       ExtractClientIDAndMessageID msg = inl (senderID, spec, rem)
       /\ specID = Spec_ID spec
       /\ Clients lobby !! senderID = Some c
       /\ mayOriginate (SendPermissions spec) (Client_Type c) = true)
  /\ (forall senderID spec rem,
        ExtractClientIDAndMessageID msg = inl (senderID, spec, rem) ->
        (Clients lobby !! senderID = None
         \/ exists c, Clients lobby !! senderID = Some c
              /\ mayOriginate (SendPermissions spec) (Client_Type c) = false) ->
        forall lobby' ev ctl,
          handleMessage lobby client now msg behind = Ok (lobby', ev, ctl) ->
          lobby' = lobby /\ Forall (fun e => isHandlerCall e = false) ev)
  /\ (forall senderID spec rem c,
        ExtractClientIDAndMessageID msg = inl (senderID, spec, rem) ->
        Clients lobby !! senderID = Some c ->
        mayOriginate (SendPermissions spec) (Client_Type c) = false ->
        handleMessage lobby client now msg behind
        = debugOrBreak lobby (Some c) 401
            ("Unauthorized: client " +:+ pretty (Client_ID c)
             +:+ " is not allowed to send messages of id " +:+ pretty (Spec_ID spec))
            Continue)
  /\ (forall senderID spec rem c,
        ExtractClientIDAndMessageID msg = inl (senderID, spec, rem) ->
        Clients lobby !! senderID = Some c ->
        mayOriginate (SendPermissions spec) (Client_Type c) = true ->
        forall lobby' ev ctl,
          handleMessage lobby client now msg behind = Ok (lobby', ev, ctl) ->
          head ev = Some (EvHandler (Spec_ID spec) c rem)).
Proof.
  split; [|split; [|split]].
  - intros *. apply handleMessage_dispatch_inv.
  - intros senderID spec rem Hx Hfail lobby' ev ctl H.
    unfold handleMessage in H. rewrite Hx in H.
    destruct Hfail as [Hc|[c [Hc Hp]]]; rewrite Hc in H.
    + apply debugOrBreak_returns in H as [-> ->].
      split; [reflexivity|]. repeat constructor.
    + rewrite Hp in H. simpl in H.
      apply debugOrBreak_returns in H as [-> ->].
      split; [reflexivity|]. repeat constructor.
  - intros senderID spec rem c Hx Hc Hp.
    unfold handleMessage. rewrite Hx, Hc, Hp. reflexivity.
  - intros *. apply handleMessage_accepted.
Qed.

(** C9: when the sender named in the header is not a key of the lobby's
    client map, the loop body is the single call
    [SendDebugInfoToClient(nil, 401, ...)]: the target is the nil result of
    the load, not the client of the session, so no debug frame is
    addressed to the session's client. *)
Theorem unknown_sender_debug_targets_nil lobby client now msg behind senderID spec rem :
  ExtractClientIDAndMessageID msg = inl (senderID, spec, rem) ->
  Clients lobby !! senderID = None ->
  let text := "Unauthorized: client " +:+ pretty senderID
              +:+ " not found in lobby " +:+ pretty (Lobby_ID lobby) in
  handleMessage lobby client now msg behind = debugOrBreak lobby None 401 text Continue
  /\ forall lobby' ev ctl,
       handleMessage lobby client now msg behind = Ok (lobby', ev, ctl) ->
       ev = [EvSendDebugInfo None 401 text]
       /\ ~ Exists (isDebugTo (Some client)) ev.
Proof.
  intros Hx Hc text.
  assert (Heq : handleMessage lobby client now msg behind
                = debugOrBreak lobby None 401 text Continue).
  { unfold handleMessage. rewrite Hx, Hc. reflexivity. }
  split; [exact Heq|].
  intros lobby' ev ctl H. rewrite Heq in H.
  apply debugOrBreak_returns in H as [_ ->].
  split; [reflexivity|].
  intros Hex. apply Exists_cons in Hex as [Hd|Hn].
  - simpl in Hd. discriminate.
  - apply Exists_nil in Hn. exact Hn.
Qed.

(** ** RemoveClient *)

Lemma RemoveClient_absent lobby client :
  Clients lobby !! Client_ID client = None ->
  RemoveClient lobby client
  = Panic "invalid memory address or nil pointer dereference".
Proof. intros H. unfold RemoveClient. rewrite H. reflexivity. Qed.

Lemma RemoveClient_present lobby client lobby1 ev :
  clientsKeyedByID lobby ->
  RemoveClient lobby client = Ok (lobby1, ev) ->
  Clients lobby1 = delete (Client_ID client) (Clients lobby).
Proof.
  intros Hk. unfold RemoveClient.
  destruct (Clients lobby !! Client_ID client) as [c'|] eqn:Hc; [|discriminate].
  intros [= <- _]. simpl. rewrite (Hk _ _ Hc). reflexivity.
Qed.

Lemma RemoveClient_twice lobby client lobby1 ev :
  clientsKeyedByID lobby ->
  RemoveClient lobby client = Ok (lobby1, ev) ->
  RemoveClient lobby1 client
  = Panic "invalid memory address or nil pointer dereference".
Proof.
  intros Hk H. apply RemoveClient_absent.
  rewrite (RemoveClient_present _ _ _ _ Hk H). apply lookup_delete_eq.
Qed.

Lemma onDisconnect_twice lobby client queueClosed lobby1 ev :
  clientsKeyedByID lobby ->
  onDisconnect client lobby client queueClosed = Ok (lobby1, ev) ->
  forall queueClosed',
    onDisconnect client lobby1 client queueClosed'
    = Panic "invalid memory address or nil pointer dereference".
Proof.
  intros Hk. unfold onDisconnect, handleGuestDisconnect, handleOwnerDisconnect.
  destruct (Client_Type client).
  - intros H _. revert H. apply RemoveClient_twice; assumption.
  - destruct (RemoveClient lobby client) as [[l1 ev1]|] eqn:Hr; [|discriminate].
    unfold close. destruct queueClosed; [discriminate|].
    intros [= <- _] queueClosed'.
    assert (Hn : Clients (setClosing l1 true) !! Client_ID client = None).
    { simpl. rewrite (RemoveClient_present _ _ _ _ Hk Hr). apply lookup_delete_eq. }
    rewrite (RemoveClient_absent _ _ Hn). reflexivity.
  - intros H _. revert H. apply RemoveClient_twice; assumption.
Qed.

Lemma onDisconnect_panic_open lobby client e :
  onDisconnect client lobby client false = Panic e ->
  e = "invalid memory address or nil pointer dereference".
Proof.
  unfold onDisconnect, handleGuestDisconnect, handleOwnerDisconnect, close,
    RemoveClient.
  destruct (Client_Type client), (Clients lobby !! Client_ID client);
    simpl; congruence.
Qed.

(** C10: [RemoveClient] on a client whose identifier is not in the lobby's
    client map is not a silent return but a panic (the first conjunct).
    A removal that succeeded makes the next removal of the same client
    such a call (the second), and that is what happens on a close frame:
    the close handler removes the client, the read then fails, and the
    removal after the loop panics (the third; when the close queue has
    been closed and the session is the owner's, the close handler itself
    panics before that, on the send to the queue). *)
Theorem RemoveClient_not_found_panics lobby client :
  (Clients lobby !! Client_ID client = None ->
   RemoveClient lobby client
   = Panic "invalid memory address or nil pointer dereference")
  /\ (clientsKeyedByID lobby ->
      forall lobby1 ev,
        RemoveClient lobby client = Ok (lobby1, ev) ->
        RemoveClient lobby1 client
        = Panic "invalid memory address or nil pointer dereference")
  /\ (clientsKeyedByID lobby ->
      forall code text rest,
        handleConnection lobby client false (CloseFrame code text :: rest)
        = Panic "invalid memory address or nil pointer dereference"
        /\ exists msg,
             handleConnection lobby client true (CloseFrame code text :: rest)
             = Panic msg).
Proof.
  split; [apply RemoveClient_absent|split].
  - intros Hk lobby1 ev. apply RemoveClient_twice. exact Hk.
  - intros Hk code text rest. unfold handleConnection. simpl. split.
    + destruct (onDisconnect client lobby client false) as [[l1 ev1]|e] eqn:Hd.
      * rewrite (onDisconnect_twice _ _ _ _ _ Hk Hd). reflexivity.
      * rewrite (onDisconnect_panic_open _ _ _ Hd). reflexivity.
    + destruct (onDisconnect client lobby client true) as [[l1 ev1]|e] eqn:Hd.
      * rewrite (onDisconnect_twice _ _ _ _ _ Hk Hd). eexists. reflexivity.
      * eexists. reflexivity.
Qed.

End ReadLoopProperties.

Lemma exampleLobby_keyed : clientsKeyedByID exampleLobby.
Proof.
  intros k c H. unfold exampleLobby in H. simpl in H.
  apply lookup_insert_Some in H as [[<- <-]|[_ H]]; [reflexivity|].
  apply lookup_insert_Some in H as [[<- <-]|[_ H]]; [reflexivity|].
  rewrite lookup_empty in H. discriminate.
Qed.

(** C1 as stated fails: on the session of guest 8, a binary frame whose
    header names client 7 passes both checks and its handler is called,
    with client 7. *)
Lemma handleMessage_accepts_foreign_sender :
  ExtractClientIDAndMessageID (Environment := exampleEnv) shootFrameFrom7
  = inl (7, specOr PLAYER_SHOOT_EVENT, drop 8 shootFrameFrom7)
  /\ handleMessage (Env := exampleEnv) exampleLobby guest8 5000000 shootFrameFrom7 []
     = Ok (setClients exampleLobby
             (<[7 := withState owner7 {| LastKnownPosition := 0;
                                         MSOfLastMessage := 5 |}]>
                (Clients exampleLobby)),
           [EvHandler 3003 owner7 (drop 8 shootFrameFrom7)], Continue)
  /\ handleFrame (Env := exampleEnv) exampleLobby guest8 5000000 BinaryMessage
       shootFrameFrom7 []
     = handleMessage (Env := exampleEnv) exampleLobby guest8 5000000 shootFrameFrom7 []
  /\ 7 <> Client_ID guest8.
Proof. split; [|split; [|split]]; [vm_compute; reflexivity ..|discriminate]. Qed.

Lemma handleMessage_checks_stored_client_witness :
  (exists senderID spec,
     ExtractClientIDAndMessageID (Environment := exampleEnv) shootFrameFrom7
     = inl (senderID, spec, drop 8 shootFrameFrom7)
     /\ 3003 = Spec_ID spec
     /\ Clients exampleLobby !! senderID = Some owner7
     /\ mayOriginate (SendPermissions spec) (Client_Type owner7) = true)
  /\ handleMessage (Env := exampleEnv) exampleLobby guest8 5000000 spawnFrameFrom8 []
     = debugOrBreak (Env := exampleEnv) exampleLobby (Some guest8) 401
         ("Unauthorized: client " +:+ pretty (Client_ID guest8)
          +:+ " is not allowed to send messages of id "
          +:+ pretty (Spec_ID (specOr ASTEROID_SPAWN_EVENT)))
         Continue.
Proof.
  split.
  - apply (proj1 (@handleMessage_checks_stored_client exampleEnv exampleLobby
                    guest8 5000000 shootFrameFrom7 [])
             (setClients exampleLobby
                (<[7 := withState owner7 {| LastKnownPosition := 0;
                                            MSOfLastMessage := 5 |}]>
                   (Clients exampleLobby)))
             [EvHandler 3003 owner7 (drop 8 shootFrameFrom7)] Continue
             3003 owner7 (drop 8 shootFrameFrom7));
      vm_compute; reflexivity.
  - apply (proj1 (proj2 (proj2 (@handleMessage_checks_stored_client exampleEnv
                                  exampleLobby guest8 5000000 spawnFrameFrom8 [])))
             8 (specOr ASTEROID_SPAWN_EVENT) (drop 8 spawnFrameFrom8) guest8);
      vm_compute; reflexivity.
Defined.

Lemma unknown_sender_debug_targets_nil_witness :
  handleMessage (Env := exampleEnv) exampleLobby guest8 5000000 shootFrameFrom9 []
  = debugOrBreak (Env := exampleEnv) exampleLobby None 401
      ("Unauthorized: client " +:+ pretty 9 +:+ " not found in lobby "
       +:+ pretty (Lobby_ID exampleLobby))
      Continue.
Proof.
  apply (@unknown_sender_debug_targets_nil exampleEnv exampleLobby guest8 5000000
           shootFrameFrom9 [] 9 (specOr PLAYER_SHOOT_EVENT) (drop 8 shootFrameFrom9));
    vm_compute; reflexivity.
Defined.

Lemma RemoveClient_not_found_panics_witness :
  RemoveClient (Env := exampleEnv) exampleLobby stranger9
  = Panic "invalid memory address or nil pointer dereference"
  /\ handleConnection (Env := exampleEnv) exampleLobby guest8 false
       [CloseFrame 1000 "bye"]
     = Panic "invalid memory address or nil pointer dereference".
Proof.
  split.
  - apply (proj1 (@RemoveClient_not_found_panics exampleEnv exampleLobby stranger9)).
    vm_compute. reflexivity.
  - apply (proj2 (proj2 (@RemoveClient_not_found_panics exampleEnv exampleLobby guest8))).
    exact exampleLobby_keyed.
Defined.

(** ** The lobby manager *)

Lemma existingLobbyFor_Some lobbies colonyID l :
  existingLobbyFor lobbies colonyID = Some l ->
  (exists k, lobbies !! k = Some l) /\ ColonyID l = colonyID.
Proof.
  unfold existingLobbyFor.
  destruct (List.find _ (map_to_list lobbies)) as [[k l']|] eqn:Hf; [|discriminate].
  intros [= <-]. apply List.find_some in Hf as [Hin Hc]. simpl in *.
  split.
  - exists k. apply elem_of_map_to_list, list_elem_of_In. exact Hin.
  - apply Z.eqb_eq. exact Hc.
Qed.

Lemma existingLobbyFor_None lobbies colonyID :
  existingLobbyFor lobbies colonyID = None <->
  (forall k l, lobbies !! k = Some l -> ColonyID l <> colonyID).
Proof.
  unfold existingLobbyFor. split.
  - destruct (List.find _ (map_to_list lobbies)) as [[k' l']|] eqn:Hf; [discriminate|].
    intros _ k l Hl.
    apply elem_of_map_to_list, list_elem_of_In in Hl.
    pose proof (List.find_none _ _ Hf _ Hl) as Hc. simpl in Hc.
    apply Z.eqb_neq. exact Hc.
  - intros Hall.
    destruct (List.find _ (map_to_list lobbies)) as [[k' l']|] eqn:Hf; [|reflexivity].
    apply List.find_some in Hf as [Hin Hc]. simpl in Hc.
    apply list_elem_of_In, elem_of_map_to_list in Hin.
    apply Z.eqb_eq in Hc. destruct (Hall _ _ Hin Hc).
Qed.

Lemma CreateLobby_new lm ownerID colonyID userSetEncoding :
  acceptsNewLobbies lm = true ->
  (forall k l, Lobbies lm !! k = Some l -> ColonyID l <> colonyID) ->
  CreateLobby lm ownerID colonyID userSetEncoding
  = (setLobbies (setNextLobbyID lm (wrap32 (nextLobbyID lm + 1)))
       (<[wrap32 (nextLobbyID lm + 1) :=
            NewLobby (wrap32 (nextLobbyID lm + 1)) ownerID colonyID
              (if decide (userSetEncoding = MESSAGE_ENCODING_BINARY)
               then Config_Encoding (configuration lm) else userSetEncoding)]>
          (Lobbies lm)),
     inl (NewLobby (wrap32 (nextLobbyID lm + 1)) ownerID colonyID
            (if decide (userSetEncoding = MESSAGE_ENCODING_BINARY)
             then Config_Encoding (configuration lm) else userSetEncoding))).
Proof.
  intros Hacc Hnone. unfold CreateLobby. rewrite Hacc. simpl.
  rewrite (proj2 (existingLobbyFor_None _ _) Hnone). reflexivity.
Qed.



(** The identifier of a new lobby is the counter plus one, and while the
    32-bit counter has not wrapped it is above every identifier in use. *)
Lemma CreateLobby_allocates_fresh lm ownerID colonyID userSetEncoding :
  acceptsNewLobbies lm = true ->
  (forall k l, Lobbies lm !! k = Some l -> ColonyID l <> colonyID) ->
  0 <= nextLobbyID lm < 2 ^ 32 - 1 ->
  lobbyIDsBelowCounter lm ->
  exists lm' lobby,
    CreateLobby lm ownerID colonyID userSetEncoding = (lm', inl lobby)
    /\ Lobby_ID lobby = nextLobbyID lm + 1
    /\ nextLobbyID lm' = nextLobbyID lm + 1
    /\ (forall k l, Lobbies lm !! k = Some l -> k < Lobby_ID lobby)
    /\ lobbyIDsBelowCounter lm'.
Proof.
  intros Hacc Hnone Hrange Hinv.
  rewrite (CreateLobby_new lm ownerID colonyID userSetEncoding Hacc Hnone).
  assert (Hw : wrap32 (nextLobbyID lm + 1) = nextLobbyID lm + 1).
  { unfold wrap32. apply Z.mod_small. lia. }
  rewrite Hw. eexists _, _. split; [reflexivity|]. simpl.
  split; [reflexivity|]. split; [reflexivity|]. split.
  - intros k l Hl. specialize (Hinv _ _ Hl). lia.
  - intros k l Hl. simpl in Hl.
    apply lookup_insert_Some in Hl as [[<- _]|[_ Hl]]; simpl; [lia|].
    specialize (Hinv _ _ Hl). lia.
Qed.

(** C6, on the first creation: a fresh manager holds 1 in [nextLobbyID],
    and the first lobby it creates is inserted under identifier 2, not 1. *)
Theorem first_lobby_gets_ID_2 cfg ownerID colonyID userSetEncoding :
  nextLobbyID (CreateLobbyManager cfg) = 1
  /\ exists lm' lobby,
       CreateLobby (CreateLobbyManager cfg) ownerID colonyID userSetEncoding
       = (lm', inl lobby)
       /\ Lobby_ID lobby = 2
       /\ Lobbies lm' !! 2 = Some lobby
       /\ Lobbies lm' !! 1 = None.
Proof.
  split; [reflexivity|].
  unfold CreateLobby, CreateLobbyManager, existingLobbyFor. simpl.
  rewrite map_to_list_empty. simpl.
  eexists _, _. split; [reflexivity|]. simpl.
  split; [reflexivity|]. split.
  - apply lookup_insert_eq.
  - rewrite lookup_insert_ne by discriminate. apply lookup_empty.
Qed.

Section ManagerProperties.
Context `{Env : Environment}.

(** C4, as amended: while a lobby whose [Closing] flag is set is in the
    manager's map, [IsJoinPossible] and [JoinLobby] against it both return
    the join error of type [JoinErrorClosing]; the manager, and with it the
    lobby's client map, is as before, and nothing is broadcast.  Once the
    lobby has been unregistered, which is what [close] queues it for, both
    return the join error of type [JoinErrorNotFound] instead, and
    [IsJoinPossible] asks for the colony to be closed; again the manager is
    as before.  In neither state does a join succeed. *)
Theorem closing_lobby_refuses_joins lm lobbyID lobby clientID colonyID
    colonyOwnerID clientIGN conn :
  Lobbies lm !! lobbyID = Some lobby ->
  Closing lobby = true ->
  IsJoinPossible lm lobbyID clientID colonyID colonyOwnerID
  = ([], Some {| Err_LobbyID := lobbyID; Err_Type := JoinErrorClosing;
                 Reason := "Lobby is closing" |})
  /\ JoinLobby lm lobbyID clientID clientIGN conn
     = (lm, [], Some {| Err_LobbyID := lobbyID; Err_Type := JoinErrorClosing;
                        Reason := "Lobby is closing" |})
  /\ forall lm' ev,
       Lobby_ID lobby = lobbyID ->
       UnregisterLobby lm lobby = (lm', ev) ->
       IsJoinPossible lm' lobbyID clientID colonyID colonyOwnerID
       = ([EvGoCloseColony colonyID colonyOwnerID],
          Some {| Err_LobbyID := lobbyID; Err_Type := JoinErrorNotFound;
                  Reason := "Lobby does not exist" |})
       /\ JoinLobby lm' lobbyID clientID clientIGN conn
          = (lm', [], Some {| Err_LobbyID := lobbyID; Err_Type := JoinErrorNotFound;
                              Reason := "Lobby does not exist" |}).
Proof.
  intros Hl Hc. split; [|split].
  - unfold IsJoinPossible. rewrite Hl, Hc. reflexivity.
  - unfold JoinLobby. rewrite Hl, Hc. reflexivity.
  - intros lm' ev Hid. unfold UnregisterLobby. rewrite Hid, Hl.
    intros [= <- _]. unfold IsJoinPossible, JoinLobby. simpl.
    rewrite lookup_delete_eq. split; reflexivity.
Qed.

(** C5, as amended: [JoinLobby] has no check for the server's identifier.
    A join with [clientID = SERVER_ID] against a lobby that is not closing
    and does not hold that identifier, whose join message serializes,
    succeeds: a client with identifier [0xFFFFFFFF] is created, stored in
    the lobby's client map and given a read loop. *)
Theorem JoinLobby_accepts_SERVER_ID lm lobbyID lobby clientIGN conn msg :
  Lobbies lm !! lobbyID = Some lobby ->
  Closing lobby = false ->
  Clients lobby !! SERVER_ID = None ->
  Serialize_PlayerJoined PLAYER_JOINED_EVENT SERVER_ID clientIGN = inl msg ->
  exists lm' ev lobby' client,
    JoinLobby lm lobbyID SERVER_ID clientIGN conn = (lm', ev, None)
    /\ Lobbies lm' !! lobbyID = Some lobby'
    /\ Clients lobby' !! SERVER_ID = Some client
    /\ Client_ID client = 4294967295
    /\ In (EvGoHandleConnection (Lobby_ID lobby) client) ev.
Proof.
  intros Hl Hc Hn Hs. unfold JoinLobby. rewrite Hl, Hc, Hn. simpl.
  rewrite Hs. eexists _, _, _, _. split; [reflexivity|]. simpl.
  split; [apply lookup_insert_eq|]. simpl.
  split; [apply lookup_insert_eq|].
  split; [reflexivity|]. right. left. reflexivity.
Qed.

(** C7: a join against a lobby that is in the map, is not closing and
    does not hold the identifier, and whose notification serializes,
    broadcasts the notification on the client map as it is before the
    insertion: the joining identifier is not a key of the map the
    broadcast runs on, so it is not among the recipients; only after the
    broadcast is the client stored and its session started. *)
Theorem JoinLobby_broadcasts_before_insert lm lobbyID lobby clientID clientIGN
    conn msg :
  Lobbies lm !! lobbyID = Some lobby ->
  Closing lobby = false ->
  Clients lobby !! clientID = None ->
  Serialize_PlayerJoined PLAYER_JOINED_EVENT clientID clientIGN = inl msg ->
  exists client notice,
    JoinLobby lm lobbyID clientID clientIGN conn
    = (setLobbies lm
         (<[lobbyID := setClients lobby (<[clientID := client]> (Clients lobby))]>
            (Lobbies lm)),
       [notice; EvGoHandleConnection (Lobby_ID lobby) client], None)
    /\ notice = EvBroadcast (Lobby_ID lobby) (Lobby_Encoding lobby)
                  (Clients lobby) SERVER_ID msg
    /\ Client_ID client = clientID
    /\ (clientID ∉ recipients notice)
    /\ (forall k, k ∈ recipients notice <-> is_Some (Clients lobby !! k))
    /\ Clients (setClients lobby (<[clientID := client]> (Clients lobby))) !! clientID
       = Some client.
Proof.
  intros Hl Hc Hn Hs. unfold JoinLobby. rewrite Hl, Hc, Hn. simpl. rewrite Hs.
  eexists _, _. split; [reflexivity|]. split; [reflexivity|].
  split; [reflexivity|].
  assert (Hrec : forall k,
            k ∈ recipients (EvBroadcast (Lobby_ID lobby) (Lobby_Encoding lobby)
                              (Clients lobby) SERVER_ID msg)
            <-> is_Some (Clients lobby !! k)).
  { intros k. simpl. rewrite list_elem_of_fmap. split.
    - intros [[k' c] [-> Hin]]. apply elem_of_map_to_list in Hin. simpl. eauto.
    - intros [c Hk]. exists (k, c). split; [reflexivity|].
      apply elem_of_map_to_list. exact Hk. }
  split; [|split; [exact Hrec|apply lookup_insert_eq]].
  intros Hin. apply Hrec in Hin. rewrite Hn in Hin. destruct Hin as [c Hin].
  discriminate.
Qed.

End ManagerProperties.

Lemma closing_lobby_refuses_joins_witness :
  IsJoinPossible closingManager 2 9 42 7
  = ([], Some {| Err_LobbyID := 2; Err_Type := JoinErrorClosing;
                 Reason := "Lobby is closing" |})
  /\ JoinLobby (Env := exampleEnv) closingManager 2 9 "stranger" 102
     = (closingManager, [], Some {| Err_LobbyID := 2; Err_Type := JoinErrorClosing;
                                    Reason := "Lobby is closing" |})
  /\ JoinLobby (Env := exampleEnv)
       (UnregisterLobby closingManager (setClosing exampleLobby true)).1
       2 9 "stranger" 102
     = ((UnregisterLobby closingManager (setClosing exampleLobby true)).1, [],
        Some {| Err_LobbyID := 2; Err_Type := JoinErrorNotFound;
                Reason := "Lobby does not exist" |}).
Proof.
  destruct (@closing_lobby_refuses_joins exampleEnv closingManager 2
              (setClosing exampleLobby true) 9 42 7 "stranger" 102
              eq_refl eq_refl) as (Hp & Hj & Hu).
  split; [exact Hp|]. split; [exact Hj|].
  exact (proj2 (Hu _ _ eq_refl (surjective_pairing _))).
Defined.

(** C4 as stated fails: the owner of the example lobby leaves, which sets
    the closing flag and sends the lobby to the close queue; once the
    queue has been processed, a join against the lobby, whose flag is
    still set, is refused with [JoinErrorNotFound], not with
    [JoinErrorClosing]. *)
Lemma closing_lobby_join_not_found :
  match handleConnection (Env := exampleEnv) exampleLobby owner7 false [] with
  | Ok (closing, ev) =>
      Closing closing = true
      /\ enqueued ev = [2]
      /\ let lm1 :=
           (processClosures
              (setLobbies exampleManager (<[2 := closing]> (Lobbies exampleManager)))
              [closing]).1 in
         JoinLobby (Env := exampleEnv) lm1 2 9 "stranger" 102
         = (lm1, [], Some {| Err_LobbyID := 2; Err_Type := JoinErrorNotFound;
                             Reason := "Lobby does not exist" |})
         /\ IsJoinPossible lm1 2 9 42 7
            = ([EvGoCloseColony 42 7],
               Some {| Err_LobbyID := 2; Err_Type := JoinErrorNotFound;
                       Reason := "Lobby does not exist" |})
  | Panic _ => False
  end.
Proof. vm_compute. repeat split; reflexivity. Qed.

(** C5 as stated fails: a join with [clientID = 0xFFFFFFFF] against the
    example lobby succeeds and stores a client with that identifier. *)
Lemma JoinLobby_stores_SERVER_ID :
  let '(lm', _, err) :=
    JoinLobby (Env := exampleEnv) exampleManager 2 4294967295 "server" 103 in
  err = None
  /\ (Lobbies lm' !! 2) ≫= (fun l => Clients l !! 4294967295)
     = Some (NewClient 4294967295 "server" ORIGIN_TYPE_GUEST 103
               MESSAGE_ENCODING_BASE16).
Proof. vm_compute. split; reflexivity. Qed.

Lemma JoinLobby_accepts_SERVER_ID_witness :
  exists lm' ev lobby' client,
    JoinLobby (Env := exampleEnv) exampleManager 2 SERVER_ID "server" 103
    = (lm', ev, None)
    /\ Lobbies lm' !! 2 = Some lobby'
    /\ Clients lobby' !! SERVER_ID = Some client
    /\ Client_ID client = 4294967295
    /\ In (EvGoHandleConnection (Lobby_ID exampleLobby) client) ev.
Proof.
  apply (@JoinLobby_accepts_SERVER_ID exampleEnv exampleManager 2 exampleLobby
           "server" 103
           (BigEndian_PutUint32 SERVER_ID ++ bytes_of_string "server"));
    reflexivity.
Defined.

Lemma JoinLobby_broadcasts_before_insert_witness :
  exists client notice,
    JoinLobby (Env := exampleEnv) exampleManager 2 9 "stranger" 102
    = (setLobbies exampleManager
         (<[2 := setClients exampleLobby (<[9 := client]> (Clients exampleLobby))]>
            (Lobbies exampleManager)),
       [notice; EvGoHandleConnection (Lobby_ID exampleLobby) client], None)
    /\ notice = EvBroadcast (Lobby_ID exampleLobby) (Lobby_Encoding exampleLobby)
                  (Clients exampleLobby) SERVER_ID
                  (BigEndian_PutUint32 9 ++ bytes_of_string "stranger")
    /\ Client_ID client = 9
    /\ (9 ∉ recipients notice)
    /\ (forall k, k ∈ recipients notice <-> is_Some (Clients exampleLobby !! k))
    /\ Clients (setClients exampleLobby (<[9 := client]> (Clients exampleLobby))) !! 9
       = Some client.
Proof.
  apply (@JoinLobby_broadcasts_before_insert exampleEnv exampleManager 2
           exampleLobby 9 "stranger" 102
           (BigEndian_PutUint32 9 ++ bytes_of_string "stranger"));
    reflexivity.
Defined.

(** * Further properties *)

(** ** ComputeStructure: acceptance, layout, panics *)

Lemma ComputeStructure_body_Ok_iff name len i e st :
  hasVariableSizeElement st = false ->
  (exists st', ComputeStructure_body name len i e st = Ok st')
  <-> isValidKind (ShortKind e) = None
      /\ (isKindOfVariableSize (ShortKind e) = true -> i = len - 1).
Proof.
  intros Hv. unfold ComputeStructure_body. rewrite Hv, andb_false_r.
  destruct (isValidKind (ShortKind e)) as [err|].
  - split; [intros [st' H]; discriminate | intros [H _]; discriminate].
  - destruct (isKindOfVariableSize (ShortKind e)); simpl.
    + destruct (Z.eqb_spec i (len - 1)); simpl.
      * split; [auto | eauto].
      * split; [intros [st' H]; discriminate
               | intros [_ H]; specialize (H eq_refl); contradiction].
    + split; [intros _; split; [reflexivity|discriminate] | eauto].
Qed.

Lemma ComputeStructure_body_Ok name len i e st st' :
  ComputeStructure_body name len i e st = Ok st' ->
  computedStructure st' = computedStructure st ++ [describe (offset st) e]
  /\ offset st' = wrap32 (offset st + sizeOfSerializedKind (ShortKind e))
  /\ hasVariableSizeElement st' = hasVariableSizeElement st.
Proof.
  unfold ComputeStructure_body.
  repeat match goal with
         | |- context [match ?x with _ => _ end] => destruct x; try discriminate
         end;
    intros [= <-]; repeat split; reflexivity.
Qed.

Lemma ComputeStructure_loop_Ok_iff name len rest : forall i st,
  hasVariableSizeElement st = false ->
  (exists st', ComputeStructure_loop name len i rest st = Ok st')
  <-> (forall (j : nat) e, rest !! j = Some e ->
         isValidKind (ShortKind e) = None
         /\ (isKindOfVariableSize (ShortKind e) = true ->
             i + Z.of_nat j = len - 1)).
Proof.
  induction rest as [|e rest IH]; intros i st Hv; simpl.
  - split; [intros _ j e H; discriminate | eauto].
  - split.
    + intros [st' H].
      destruct (ComputeStructure_body name len i e st) as [st1|] eqn:Hb;
        [|discriminate].
      pose proof (proj1 (ComputeStructure_body_Ok_iff name len i e st Hv)
                    (ex_intro _ _ Hb)) as [Hk Hl].
      assert (Hv1 : hasVariableSizeElement st1 = false).
      { destruct (ComputeStructure_body_Ok _ _ _ _ _ _ Hb) as (_ & _ & ->). exact Hv. }
      pose proof (proj1 (IH (i + 1) st1 Hv1) (ex_intro _ _ H)) as Hrest.
      intros [|j] e' Hj; simpl in Hj.
      * injection Hj as <-. split; [exact Hk|].
        intros Hvar. specialize (Hl Hvar). lia.
      * destruct (Hrest j e' Hj) as [Hk' Hl']. split; [exact Hk'|].
        intros Hvar. specialize (Hl' Hvar). lia.
    + intros Hall.
      destruct (proj2 (ComputeStructure_body_Ok_iff name len i e st Hv))
        as [st1 Hb].
      { destruct (Hall 0%nat e eq_refl) as [Hk Hl]. split; [exact Hk|].
        intros Hvar. specialize (Hl Hvar). lia. }
      rewrite Hb.
      assert (Hv1 : hasVariableSizeElement st1 = false).
      { destruct (ComputeStructure_body_Ok _ _ _ _ _ _ Hb) as (_ & _ & ->). exact Hv. }
      apply (IH (i + 1) st1 Hv1).
      intros j e' Hj. destruct (Hall (S j) e' Hj) as [Hk Hl].
      split; [exact Hk|]. intros Hvar. specialize (Hl Hvar). lia.
Qed.

(** X1: [ComputeStructure] returns, rather than panics, exactly for the
    structures in which every kind is supported and every element of
    variable size is the last element. *)
Theorem ComputeStructure_accepts_iff name s :
  (exists m cs, ComputeStructure name s = Ok (m, cs)) <-> acceptable s.
Proof.
  unfold ComputeStructure, acceptable.
  pose proof (ComputeStructure_loop_Ok_iff name (Z.of_nat (length s)) s 0
    {| computedStructure := []; offset := MESSAGE_HEADER_SIZE;
       hasVariableSizeElement := false; minimumTotalSize := 0 |} eq_refl) as H.
  split.
  - intros [m [cs Hc]].
    destruct (ComputeStructure_loop _ _ _ _ _) as [st|] eqn:Hl; [|discriminate].
    intros i e Hi. destruct (proj1 H (ex_intro _ _ eq_refl) i e Hi) as [Hk Hv].
    split; [exact Hk|]. intros Hvar. specialize (Hv Hvar). lia.
  - intros Hall.
    destruct (proj2 H) as [st Hst].
    { intros j e Hj. destruct (Hall j e Hj) as [Hk Hv]. split; [exact Hk|].
      intros Hvar. specialize (Hv Hvar). lia. }
    rewrite Hst. eauto.
Qed.

Lemma ComputeStructure_accepts_iff_witness :
  acceptable ASTEROID_SPAWN_structure /\ ~ acceptable twoStrings.
Proof.
  split.
  - apply (proj1 (ComputeStructure_accepts_iff "AsteroidsAsteroidSpawn"
                    ASTEROID_SPAWN_structure)).
    eexists _, _. vm_compute. reflexivity.
  - intros Hacc.
    destruct (proj2 (ComputeStructure_accepts_iff "Two" twoStrings) Hacc)
      as [m [cs H]].
    vm_compute in H. discriminate H.
Defined.

Lemma ComputeStructure_loop_layout name len rest : forall i st st',
  ComputeStructure_loop name len i rest st = Ok st' ->
  length (computedStructure st')
  = (length (computedStructure st) + length rest)%nat
  /\ (forall j el, computedStructure st !! j = Some el ->
        computedStructure st' !! j = Some el)
  /\ forall (j : nat) e, rest !! j = Some e ->
       computedStructure st' !! (length (computedStructure st) + j)%nat
       = Some (describe
                 (if j is O then offset st
                  else wrap32 (offset st + sumByteSizes (take j rest))) e).
Proof.
  induction rest as [|e rest IH]; intros i st st' H; simpl in H.
  - injection H as <-. split; [simpl; lia|]. split; [auto|].
    intros j e Hj. discriminate.
  - destruct (ComputeStructure_body name len i e st) as [st1|] eqn:Hb;
      [|discriminate].
    apply ComputeStructure_body_Ok in Hb as (Hcs & Hoff & _).
    destruct (IH _ _ _ H) as (Hlen & Hkeep & Hnew).
    rewrite Hcs in Hlen, Hkeep, Hnew.
    rewrite length_app in Hlen, Hnew. simpl in Hlen, Hnew.
    split; [simpl; lia|]. split.
    + intros j el Hj. apply Hkeep. apply lookup_app_l_Some. exact Hj.
    + intros [|j] e' Hj; simpl in Hj.
      * injection Hj as <-. rewrite Nat.add_0_r. apply Hkeep.
        rewrite lookup_app_r by lia. rewrite Nat.sub_diag. reflexivity.
      * specialize (Hnew j e' Hj).
        replace (length (computedStructure st) + S j)%nat
          with (length (computedStructure st) + 1 + j)%nat by lia.
        rewrite Hnew. f_equal. f_equal. rewrite Hoff.
        destruct j; simpl.
        -- f_equal. lia.
        -- rewrite wrap32_add_l. f_equal. lia.
Qed.

(** X2: in an accepted structure the computed descriptors follow the
    reference structure element by element: same field name, description
    and kind, the serialized size of the kind as byte size, and as offset
    the header size plus the sizes of the elements before it (in 32-bit
    arithmetic). *)
Theorem ComputeStructure_layout name s m cs :
  ComputeStructure name s = Ok (m, cs) ->
  length cs = length s
  /\ forall (i : nat) e, s !! i = Some e ->
       cs !! i
       = Some (describe (wrap32 (MESSAGE_HEADER_SIZE + sumByteSizes (take i s))) e).
Proof.
  unfold ComputeStructure.
  destruct (ComputeStructure_loop _ _ _ _ _) as [st|] eqn:Hl; [|discriminate].
  intros [= <- <-].
  destruct (ComputeStructure_loop_layout _ _ _ _ _ _ Hl) as (Hlen & _ & Hnew).
  simpl in Hlen, Hnew. split; [exact Hlen|].
  intros i e Hi. rewrite (Hnew i e Hi). f_equal. f_equal.
  destruct i; reflexivity.
Qed.

Lemma ComputeStructure_layout_witness :
  match ComputeStructure "AsteroidsAsteroidSpawn" ASTEROID_SPAWN_structure with
  | Ok (_, cs) =>
      length cs = length ASTEROID_SPAWN_structure
      /\ cs !! 3%nat
         = Some (describe (wrap32 (MESSAGE_HEADER_SIZE
                                   + sumByteSizes (take 3 ASTEROID_SPAWN_structure)))
                   (NewElementDescriptor "Health" "health" Uint8))
  | Panic _ => False
  end.
Proof.
  destruct (ComputeStructure "AsteroidsAsteroidSpawn" ASTEROID_SPAWN_structure)
    as [[m cs]|] eqn:H; [|vm_compute in H; discriminate H].
  destruct (ComputeStructure_layout _ _ _ _ H) as [Hlen Hel].
  split; [exact Hlen|]. apply Hel. reflexivity.
Defined.

Lemma append_inj_r (p a b : string) : p +:+ a = p +:+ b -> a = b.
Proof. induction p as [|c p IH]; simpl; [auto|]. intros [= H]. auto. Qed.

Lemma ComputeStructure_loop_panics name len rest : forall i st msg,
  hasVariableSizeElement st = false ->
  ComputeStructure_loop name len i rest st = Panic msg ->
  (exists e, e ∈ rest /\ isValidKind (ShortKind e) = Some msg)
  \/ msg = "message " +:+ name
           +:+ " has a variable size element that is not the last element".
Proof.
  induction rest as [|e rest IH]; intros i st msg Hv H; simpl in H; [discriminate|].
  destruct (ComputeStructure_body name len i e st) as [st1|msg1] eqn:Hb.
  - assert (Hv1 : hasVariableSizeElement st1 = false).
    { destruct (ComputeStructure_body_Ok _ _ _ _ _ _ Hb) as (_ & _ & ->). exact Hv. }
    destruct (IH _ _ _ Hv1 H) as [[e' [He' Hk]]|Hm]; [left|right; exact Hm].
    exists e'. split; [right; exact He'|exact Hk].
  - injection H as <-. revert Hb. unfold ComputeStructure_body.
    rewrite Hv, andb_false_r.
    destruct (isValidKind (ShortKind e)) as [err|] eqn:Hk.
    + intros [= <-]. left. exists e. split; [left|exact Hk].
    + destruct (isKindOfVariableSize (ShortKind e) && negb (i =? len - 1));
        [|discriminate].
      intros [= <-]. right. reflexivity.
Qed.

(** X3: when [ComputeStructure] panics, the reason is an unsupported kind
    of some element or a variable-size element that is not the last one;
    the panic for several variable-size elements is never raised (the
    flag it tests is never set), so two strings are refused with the
    not-the-last-element message. *)
Theorem ComputeStructure_panic_reasons name s msg :
  ComputeStructure name s = Panic msg ->
  ((exists e, e ∈ s /\ isValidKind (ShortKind e) = Some msg)
   \/ msg = "message " +:+ name
            +:+ " has a variable size element that is not the last element")
  /\ msg <> "message " +:+ name +:+ " has multiple variable size elements".
Proof.
  unfold ComputeStructure.
  destruct (ComputeStructure_loop _ _ _ _ _) as [st|msg'] eqn:Hl; [discriminate|].
  intros [= ->].
  apply ComputeStructure_loop_panics in Hl; [|reflexivity].
  split; [exact Hl|]. intros ->.
  destruct Hl as [[e [_ Hk]]|Hm].
  - destruct (ShortKind e); cbn in Hk; try discriminate Hk;
      injection Hk as Hk; discriminate Hk.
  - apply (append_inj_r "message "), (append_inj_r name) in Hm. discriminate Hm.
Qed.

Lemma ComputeStructure_panic_reasons_witness :
  ((exists e, e ∈ twoStrings
      /\ isValidKind (ShortKind e)
         = Some "message Two has a variable size element that is not the last element")
   \/ "message Two has a variable size element that is not the last element"
      = "message " +:+ "Two"
        +:+ " has a variable size element that is not the last element")
  /\ "message Two has a variable size element that is not the last element"
     <> "message " +:+ "Two" +:+ " has multiple variable size elements".
Proof.
  apply (ComputeStructure_panic_reasons "Two" twoStrings). reflexivity.
Defined.

Lemma ComputeStructure_elements name s m cs el :
  ComputeStructure name s = Ok (m, cs) -> el ∈ cs ->
  exists off e, el = describe off e /\ isValidKind (ShortKind e) = None.
Proof.
  unfold ComputeStructure.
  destruct (ComputeStructure_loop _ _ _ _ _) as [st|] eqn:Hl; [|discriminate].
  intros [= <- <-] Hel.
  pose proof (proj1 (ComputeStructure_loop_Ok_iff name (Z.of_nat (length s)) s 0
    {| computedStructure := []; offset := MESSAGE_HEADER_SIZE;
       hasVariableSizeElement := false; minimumTotalSize := 0 |} eq_refl)
    (ex_intro _ _ Hl)) as Hacc.
  destruct (ComputeStructure_loop_layout _ _ _ _ _ _ Hl) as (Hlen & _ & Hnew).
  simpl in Hlen, Hnew.
  apply list_elem_of_lookup in Hel as [i Hi].
  assert (Hlt : (i < length s)%nat).
  { rewrite <- Hlen. apply lookup_lt_is_Some. eauto. }
  apply lookup_lt_is_Some in Hlt as [e He].
  rewrite (Hnew i e He) in Hi. injection Hi as <-.
  eexists _, e. split; [reflexivity|]. exact (proj1 (Hacc i e He)).
Qed.

(** X4: in an accepted structure an element has byte size 0 exactly when
    its kind is [string], [int], [uint] or [uintptr], while it is of
    variable size exactly when its kind is [string]: a byte size of 0 does
    not identify the variable-size element. *)
Theorem ComputeStructure_zero_size_kinds name s m cs el :
  ComputeStructure name s = Ok (m, cs) ->
  el ∈ cs ->
  (ByteSize el = 0 <->
   ElementKind el = String \/ ElementKind el = Int
   \/ ElementKind el = Uint \/ ElementKind el = Uintptr)
  /\ (isKindOfVariableSize (ElementKind el) = true <-> ElementKind el = String).
Proof.
  intros Hc Hel.
  destruct (ComputeStructure_elements _ _ _ _ _ Hc Hel) as (off & e & -> & Hk). simpl.
  destruct (ShortKind e); simpl in *; try discriminate Hk;
    (split; split; intros H;
     [first [lia | tauto | discriminate H]
     | first [reflexivity | destruct H as [H|[H|[H|H]]]; discriminate H]
     | first [discriminate H | reflexivity]
     | first [reflexivity | discriminate H]]).
Qed.

Lemma ComputeStructure_zero_size_kinds_witness :
  match ComputeStructure "Example" intInTheMiddle with
  | Ok (_, cs) =>
      exists el, cs !! 1%nat = Some el /\ ElementKind el = Int
                 /\ ByteSize el = 0
                 /\ isKindOfVariableSize (ElementKind el) = false
  | Panic _ => False
  end.
Proof.
  destruct (ComputeStructure "Example" intInTheMiddle) as [[m cs]|] eqn:H;
    [|vm_compute in H; discriminate H].
  assert (Hel : cs !! 1%nat = Some (describe 12 (NewElementDescriptor "Count" "count" Int))).
  { vm_compute in H. injection H as _ <-. reflexivity. }
  eexists. split; [exact Hel|]. split; [reflexivity|]. split.
  - apply (ComputeStructure_zero_size_kinds "Example" intInTheMiddle m cs _ H).
    + apply list_elem_of_lookup. exists 1%nat. exact Hel.
    + right. left. reflexivity.
  - reflexivity.
Defined.

(** ** The read loop: refusals, handler errors, text frames *)

Section ReadLoopFurther.
Context `{Env : Environment}.

Lemma handleMessage_without_dispatch lobby client now msg behind lobby' ev ctl :
  handleMessage lobby client now msg behind = Ok (lobby', ev, ctl) ->
  Forall (fun e => isHandlerCall e = false) ev ->
  lobby' = lobby /\ exists t code text, ev = [EvSendDebugInfo t code text] /\ (code = 400 \/ code = 401).
Proof.
  intros H Hno. unfold handleMessage in H.
  destruct (ExtractClientIDAndMessageID msg) as [[[sid spec] rem]|err] eqn:Hx.
  - destruct (Clients lobby !! sid) as [c|] eqn:Hc.
    + destruct (mayOriginate (SendPermissions spec) (Client_Type c)) eqn:Hp; simpl in H.
      * exfalso.
        pose proof (handleMessage_accepted lobby client now msg behind _ _ _ _
                      Hx Hc Hp lobby' ev ctl) as Ha.
        unfold handleMessage in Ha. rewrite Hx, Hc, Hp in Ha. simpl in Ha. specialize (Ha H).
        destruct ev as [|e ev]; [discriminate|]. injection Ha as ->.
        apply Forall_cons in Hno as [Hh _]. discriminate.
      * apply debugOrBreak_returns in H as [-> ->]. split; [reflexivity|]. eauto 10.
    + apply debugOrBreak_returns in H as [-> ->]. split; [reflexivity|]. eauto 10.
  - apply debugOrBreak_returns in H as [-> ->]. split; [reflexivity|]. eauto 10.
Qed.

(** X5: a frame for which no handler is called leaves the lobby exactly as
    it was, and all that the loop body does for it is to send refusals:
    debug frames with code 400, 401 or 404. *)
Theorem handleFrame_without_dispatch lobby client now dataType msg behind lobby' ev ctl :
  handleFrame lobby client now dataType msg behind = Ok (lobby', ev, ctl) ->
  Forall (fun e => isHandlerCall e = false) ev ->
  lobby' = lobby /\ Forall isRefusal ev.
Proof.
  intros H Hno. unfold handleFrame in H.
  destruct (dataType =? TextMessage).
  - destruct (hex_DecodeString msg) as [msg' [derr|]].
    + destruct (debugOrBreak lobby (Some client) 400 "Error decoding message" Continue)
        as [[[l1 ev1] c1]|] eqn:Hd; [|discriminate].
      apply debugOrBreak_returns in Hd as [-> ->].
      destruct c1.
      * destruct (handleMessage lobby client now msg' behind) as [[[l2 ev2] c2]|] eqn:Hm; [|discriminate].
        injection H as <- <- <-.
        apply Forall_cons in Hno as [_ Hno].
        destruct (handleMessage_without_dispatch _ _ _ _ _ _ _ _ Hm Hno) as [-> (t & code & text & -> & Hcode)].
        split; [reflexivity|]. repeat (apply Forall_cons; split; [simpl; tauto|]); apply List.Forall_nil.
      * injection H as <- <- <-. split; [reflexivity|]. repeat (apply Forall_cons; split; [simpl; tauto|]); apply List.Forall_nil.
    + destruct (handleMessage_without_dispatch _ _ _ _ _ _ _ _ H Hno) as [-> (t & code & text & -> & Hcode)].
      split; [reflexivity|]. repeat (apply Forall_cons; split; [simpl; tauto|]); apply List.Forall_nil.
  - destruct (negb (dataType =? BinaryMessage)).
    + apply debugOrBreak_returns in H as [-> ->]. split; [reflexivity|]. repeat (apply Forall_cons; split; [simpl; tauto|]); apply List.Forall_nil.
    + destruct (handleMessage_without_dispatch _ _ _ _ _ _ _ _ H Hno) as [-> (t & code & text & -> & Hcode)].
      split; [reflexivity|]. repeat (apply Forall_cons; split; [simpl; tauto|]); apply List.Forall_nil.
Qed.

(** X6: when the handler of an accepted message fails with an error that
    is not the unresponsive-clients error, the lobby is left as the
    handler left it (the disclosed state of the sender is not updated and
    the activity tracker is not fed), and the stored client is sent two
    Debug(500) frames, one by [processClientMessage] and one by the loop;
    only the delivery of the second decides whether the loop goes on. *)
Theorem failing_handler_reported_twice lobby client now msg behind senderID spec rem c
    l1 evH e r1 :
  ExtractClientIDAndMessageID msg = inl (senderID, spec, rem) ->
  Clients lobby !! senderID = Some c ->
  mayOriginate (SendPermissions spec) (Client_Type c) = true ->
  invokeHandler (Handler spec) lobby c spec rem = Ok (l1, evH, Some e) ->
  isUnresponsiveClientsError e = false ->
  let text1 := "Error handling message: " +:+ e in
  let text2 := "Error processing message: " +:+
               ("Error handling message ID " +:+ pretty (Spec_ID spec)
                +:+ " from clientID " +:+ pretty (Client_ID c) +:+ ": " +:+ e) in
  SendDebugInfoToClient (Some c) 500 text1 = Ok r1 ->
  forall r2, SendDebugInfoToClient (Some c) 500 text2 = Ok r2 ->
  handleMessage lobby client now msg behind
  = Ok (l1,
        EvHandler (Spec_ID spec) c rem :: evH
          ++ [EvSendDebugInfo (Some c) 500 text1; EvSendDebugInfo (Some c) 500 text2],
        if r2 is Some _ then Break else Continue).
Proof.
  intros Hx Hc Hp Hh Hu text1 text2 H1 r2 H2.
  unfold handleMessage. rewrite Hx, Hc, Hp. simpl.
  unfold processClientMessage. rewrite Hh, Hu. simpl.
  fold text1. rewrite H1. unfold debugOrBreak. fold text2. rewrite H2.
  destruct r2; cbn [app]; rewrite <- app_assoc; reflexivity.
Qed.

(** X7: an unresponsive-clients error of the handler is swallowed: the
    loop body does exactly what it does when the handler succeeds, the
    state of the sender is tracked, no debug frame is sent and the loop
    goes on. *)
Theorem handler_success_or_unresponsive lobby client now msg behind senderID spec rem c
    l1 evH herr l2 :
  ExtractClientIDAndMessageID msg = inl (senderID, spec, rem) ->
  Clients lobby !! senderID = Some c ->
  mayOriginate (SendPermissions spec) (Client_Type c) = true ->
  invokeHandler (Handler spec) lobby c spec rem = Ok (l1, evH, herr) ->
  (herr = None \/ exists e, herr = Some e /\ isUnresponsiveClientsError e = true) ->
  trackClientMessage l1 c spec rem behind now = Ok l2 ->
  handleMessage lobby client now msg behind
  = Ok (l2, EvHandler (Spec_ID spec) c rem :: evH, Continue).
Proof.
  intros Hx Hc Hp Hh Herr Ht.
  unfold handleMessage. rewrite Hx, Hc, Hp. simpl.
  unfold processClientMessage. rewrite Hh.
  destruct Herr as [->|[e [-> Hu]]]; [|rewrite Hu; simpl]; rewrite Ht; reflexivity.
Qed.

(** X8: a text frame that is not valid hexadecimal is answered with
    Debug(400), but the loop body does not stop there: the bytes decoded
    before the error are parsed, and if they form a message that passes
    the checks its handler is called. *)
Theorem undecodable_text_frame_is_still_parsed lobby client now msg behind msg' derr
    senderID spec rem c lobby' ev ctl :
  hex_DecodeString msg = (msg', Some derr) ->
  SendDebugInfoToClient (Some client) 400 "Error decoding message" = Ok None ->
  ExtractClientIDAndMessageID msg' = inl (senderID, spec, rem) ->
  Clients lobby !! senderID = Some c ->
  mayOriginate (SendPermissions spec) (Client_Type c) = true ->
  handleFrame lobby client now TextMessage msg behind = Ok (lobby', ev, ctl) ->
  exists ev',
    ev = EvSendDebugInfo (Some client) 400 "Error decoding message"
           :: EvHandler (Spec_ID spec) c rem :: ev'.
Proof.
  intros Hd Hs Hx Hc Hp H. unfold handleFrame in H. simpl in H. rewrite Hd in H.
  unfold debugOrBreak in H at 1. rewrite Hs in H.
  destruct (handleMessage lobby client now msg' behind) as [[[l2 ev2] c2]|] eqn:Hm; [|discriminate].
  injection H as <- <- <-.
  pose proof (handleMessage_accepted _ _ _ _ _ _ _ _ _ Hx Hc Hp _ _ _ Hm) as Hh.
  destruct ev2 as [|e ev2]; [discriminate|]. injection Hh as ->.
  exists ev2. reflexivity.
Qed.

End ReadLoopFurther.

Lemma handleFrame_without_dispatch_witness :
  exampleLobby = exampleLobby
  /\ Forall isRefusal
       [EvSendDebugInfo (Some guest8) 404 ("Invalid message type: " +:+ pretty 9)].
Proof.
  apply (@handleFrame_without_dispatch exampleEnv exampleLobby guest8 5000000 9 [] []
           exampleLobby
           [EvSendDebugInfo (Some guest8) 404 ("Invalid message type: " +:+ pretty 9)]
           Continue).
  - vm_compute. reflexivity.
  - apply Forall_cons. split; [reflexivity|]. apply List.Forall_nil.
Defined.

Lemma failing_handler_reported_twice_witness :
  handleMessage (Env := failingEnv) exampleLobby guest8 5000000 shootFrameFrom7 []
  = Ok (exampleLobby,
        EvHandler 3003 owner7 (drop 8 shootFrameFrom7) :: []
          ++ [ EvSendDebugInfo (Some owner7) 500 ("Error handling message: " +:+ "boom");
               EvSendDebugInfo (Some owner7) 500
                 ("Error processing message: " +:+
                  ("Error handling message ID " +:+ pretty 3003
                   +:+ " from clientID " +:+ pretty 7 +:+ ": " +:+ "boom")) ],
        Continue).
Proof.
  apply (fun Hx Hc Hp Hh Hu H1 =>
           @failing_handler_reported_twice failingEnv exampleLobby guest8 5000000
             shootFrameFrom7 [] 7 (specOr PLAYER_SHOOT_EVENT)
             (drop 8 shootFrameFrom7) owner7 exampleLobby [] "boom" None Hx Hc Hp Hh Hu H1 None);
    vm_compute; reflexivity.
Defined.

Lemma handler_success_or_unresponsive_witness :
  handleMessage (Env := unresponsiveEnv) exampleLobby guest8 5000000 shootFrameFrom7
    []
  = Ok (setClients exampleLobby
          (<[7 := withState owner7 {| LastKnownPosition := 0;
                                      MSOfLastMessage := 5 |}]>
             (Clients exampleLobby)),
        [EvHandler 3003 owner7 (drop 8 shootFrameFrom7)], Continue).
Proof.
  apply (@handler_success_or_unresponsive unresponsiveEnv exampleLobby guest8 5000000
           shootFrameFrom7 [] 7 (specOr PLAYER_SHOOT_EVENT) (drop 8 shootFrameFrom7)
           owner7 exampleLobby [] (Some "unresponsive clients"));
    try (vm_compute; reflexivity).
  right. exists "unresponsive clients". split; reflexivity.
Defined.

Lemma undecodable_text_frame_is_still_parsed_witness :
  exists ev',
    [ EvSendDebugInfo (Some guest8) 400 "Error decoding message";
      EvHandler 3003 owner7 (drop 8 shootFrameFrom7) ]
    = EvSendDebugInfo (Some guest8) 400 "Error decoding message"
        :: EvHandler (Spec_ID (specOr PLAYER_SHOOT_EVENT)) owner7
             (drop 8 shootFrameFrom7) :: ev'.
Proof.
  apply (@undecodable_text_frame_is_still_parsed exampleEnv exampleLobby guest8
           5000000 brokenTextFrame [] shootFrameFrom7 "encoding/hex: invalid byte"
           7 (specOr PLAYER_SHOOT_EVENT) (drop 8 shootFrameFrom7) owner7
           (setClients exampleLobby
              (<[7 := withState owner7 {| LastKnownPosition := 0;
                                          MSOfLastMessage := 5 |}]>
                 (Clients exampleLobby)))
           _ Continue);
    vm_compute; reflexivity.
Defined.

(** ** Leaving a lobby *)

Section LeavingProperties.
Context `{Env : Environment}.


(** X10: when the read of a session fails and the client is in the lobby,
    the client is removed.  For a session of owner type the lobby is then
    closed: while the close queue is open, [LOBBY_CLOSING] is broadcast
    after [PLAYER_LEFT] to the clients that remain, the closing flag is
    set and the lobby is sent to the close queue; once
    [ShutdownLobbyManager] has closed the queue, the send panics.  For any
    other session the closing flag stays as it is and nothing is sent to
    the queue, whatever the state of the queue. *)
Theorem disconnect_of_owner_closes_lobby lobby client c queueClosed :
  clientsKeyedByID lobby ->
  Clients lobby !! Client_ID client = Some c ->
  let remaining := delete (Client_ID client) (Clients lobby) in
  let left := PrepareServerMessage PLAYER_LEFT_EVENT ++ IDBytes c
                ++ bytes_of_string (IGN c) in
  (Client_Type client = ORIGIN_TYPE_OWNER ->
   handleConnection lobby client true [] = Panic "send on closed channel")
  /\ (Client_Type client = ORIGIN_TYPE_OWNER ->
   exists lobby',
     handleConnection lobby client false []
     = Ok (lobby',
           [ EvConnClose (Conn c);
             EvBroadcast (Lobby_ID lobby) (Lobby_Encoding lobby) remaining
               SERVER_ID left;
             EvBroadcast (Lobby_ID lobby) (Lobby_Encoding lobby) remaining
               SERVER_ID (PrepareServerMessage LOBBY_CLOSING_EVENT);
             EvEnqueueClose (Lobby_ID lobby) ])
     /\ Closing lobby' = true /\ Clients lobby' = remaining)
  /\ (Client_Type client <> ORIGIN_TYPE_OWNER ->
      exists lobby',
        handleConnection lobby client queueClosed []
        = Ok (lobby',
              [ EvConnClose (Conn c);
                EvBroadcast (Lobby_ID lobby) (Lobby_Encoding lobby) remaining
                  SERVER_ID left ])
        /\ Closing lobby' = Closing lobby /\ Clients lobby' = remaining).
Proof.
  intros Hk Hc remaining left.
  pose proof (Hk _ _ Hc) as Hid.
  unfold handleConnection, readLoop, onDisconnect, handleOwnerDisconnect,
    handleGuestDisconnect, RemoveClient, close, BroadcastMessage.
  rewrite Hc, Hid. split; [|split].
  - intros ->. reflexivity.
  - intros ->. simpl. eexists. split; [reflexivity|]. split; reflexivity.
  - intros Hne. destruct (Client_Type client); [|contradiction|];
      simpl; eexists; (split; [reflexivity|]); split; reflexivity.
Qed.


End LeavingProperties.


Lemma disconnect_of_owner_closes_lobby_witness :
  handleConnection (Env := exampleEnv) exampleLobby owner7 true []
  = Panic "send on closed channel"
  /\ (exists lobby',
     handleConnection (Env := exampleEnv) exampleLobby owner7 false []
     = Ok (lobby',
           [ EvConnClose (Conn owner7);
             EvBroadcast 2 MESSAGE_ENCODING_BASE16 (delete 7 (Clients exampleLobby))
               SERVER_ID
               (PrepareServerMessage_model example_PLAYER_LEFT_EVENT
                  ++ IDBytes owner7 ++ bytes_of_string "owner");
             EvBroadcast 2 MESSAGE_ENCODING_BASE16 (delete 7 (Clients exampleLobby))
               SERVER_ID (PrepareServerMessage_model example_LOBBY_CLOSING_EVENT);
             EvEnqueueClose 2 ])
     /\ Closing lobby' = true
     /\ Clients lobby' = delete 7 (Clients exampleLobby))
  /\ (exists lobby',
        handleConnection (Env := exampleEnv) exampleLobby guest8 true []
        = Ok (lobby',
              [ EvConnClose (Conn guest8);
                EvBroadcast 2 MESSAGE_ENCODING_BASE16 (delete 8 (Clients exampleLobby))
                  SERVER_ID
                  (PrepareServerMessage_model example_PLAYER_LEFT_EVENT
                     ++ IDBytes guest8 ++ bytes_of_string "guest") ])
        /\ Closing lobby' = false
        /\ Clients lobby' = delete 8 (Clients exampleLobby)).
Proof.
  split; [|split].
  - apply (proj1 (@disconnect_of_owner_closes_lobby exampleEnv exampleLobby owner7
                    owner7 true exampleLobby_keyed eq_refl)).
    reflexivity.
  - apply (proj1 (proj2 (@disconnect_of_owner_closes_lobby exampleEnv exampleLobby
                           owner7 owner7 true exampleLobby_keyed eq_refl))).
    reflexivity.
  - apply (proj2 (proj2 (@disconnect_of_owner_closes_lobby exampleEnv exampleLobby
                           guest8 guest8 true exampleLobby_keyed eq_refl))).
    discriminate.
Defined.


(** ** Clients: identifier bytes and positions *)

Lemma byteZ_Zbyte z : byteZ (Zbyte z) = z mod 256.
Proof.
  unfold byteZ, Zbyte.
  assert (Hr : 0 <= z mod 256 < 256) by (apply Z.mod_pos_bound; lia).
  destruct (Byte.of_N (Z.to_N (z mod 256))) as [b|] eqn:Hb.
  - apply Byte.to_of_N in Hb. rewrite Hb. lia.
  - apply Byte.of_N_None_iff in Hb. lia.
Qed.

Lemma compose_bytes v :
  Z.lor (Z.lor (Z.lor (v mod 256) (Z.shiftl (Z.shiftr v 8 mod 256) 8))
               (Z.shiftl (Z.shiftr v 16 mod 256) 16))
        (Z.shiftl (Z.shiftr v 24 mod 256) 24)
  = v mod 2 ^ 32.
Proof.
  change 256 with (2 ^ 8).
  apply Z.bits_inj'. intros n Hn.
  rewrite !Z.lor_spec, !Z.shiftl_spec by lia.
  destruct (Z.lt_ge_cases n 32) as [H32|H32].
  - rewrite (Z.mod_pow2_bits_low v 32 n) by lia.
    destruct (Z.lt_ge_cases n 8).
    { rewrite Z.mod_pow2_bits_low by lia.
      rewrite !(Z.testbit_neg_r _ (n - _)) by lia.
      rewrite !orb_false_r. reflexivity. }
    rewrite (Z.mod_pow2_bits_high v 8 n) by lia. simpl.
    destruct (Z.lt_ge_cases n 16).
    { rewrite Z.mod_pow2_bits_low by lia. rewrite Z.shiftr_spec by lia.
      rewrite !(Z.testbit_neg_r _ (n - _)) by lia.
      rewrite !orb_false_r. f_equal. lia. }
    rewrite (Z.mod_pow2_bits_high _ 8 (n - 8)) by lia. simpl.
    destruct (Z.lt_ge_cases n 24).
    { rewrite Z.mod_pow2_bits_low by lia. rewrite Z.shiftr_spec by lia.
      rewrite !(Z.testbit_neg_r _ (n - _)) by lia.
      rewrite !orb_false_r. f_equal. lia. }
    rewrite (Z.mod_pow2_bits_high _ 8 (n - 16)) by lia. simpl.
    rewrite Z.mod_pow2_bits_low by lia. rewrite Z.shiftr_spec by lia.
    f_equal. lia.
  - rewrite (Z.mod_pow2_bits_high v 32 n) by lia.
    rewrite !Z.mod_pow2_bits_high by lia. reflexivity.
Qed.

Lemma LittleEndian_roundtrip v rest :
  LittleEndian_Uint32 (LittleEndian_PutUint32 v ++ rest) = Ok (wrap32 v).
Proof.
  unfold LittleEndian_Uint32, LittleEndian_PutUint32. simpl.
  rewrite !byteZ_Zbyte. f_equal. apply compose_bytes.
Qed.

Lemma BigEndian_roundtrip v rest :
  BigEndian_Uint32 (BigEndian_PutUint32 v ++ rest) = Ok (wrap32 v).
Proof.
  unfold BigEndian_Uint32, BigEndian_PutUint32. simpl.
  rewrite !byteZ_Zbyte. f_equal. apply compose_bytes.
Qed.

(** X12: the identifier bytes cached in a new client are four bytes that
    decode, in the byte order of the client file, to the identifier (as a
    32-bit value), and the new client starts with the zero disclosed
    state. *)
Theorem NewClient_IDBytes_roundtrip id ign clientType conn encoding :
  length (IDBytes (NewClient id ign clientType conn encoding)) = 4%nat
  /\ LittleEndian_Uint32 (IDBytes (NewClient id ign clientType conn encoding))
     = Ok (wrap32 id)
  /\ State (NewClient id ign clientType conn encoding)
     = {| LastKnownPosition := 0; MSOfLastMessage := 0 |}.
Proof.
  split; [reflexivity|]. split; [|reflexivity].
  exact (LittleEndian_roundtrip id []).
Qed.

Lemma slice_middle (s behind pre mid post : list Byte.byte) :
  s ++ behind = pre ++ mid ++ post ->
  slice s behind (Z.of_nat (length pre))
    (Z.of_nat (length pre) + Z.of_nat (length mid))
  = Ok mid.
Proof.
  intros Heq.
  rewrite slice_within; [| lia | lia |].
  - f_equal. rewrite Heq, Nat2Z.id, drop_app_length.
    replace (Z.to_nat (Z.of_nat (length pre) + Z.of_nat (length mid)
                       - Z.of_nat (length pre)))
      with (length mid) by lia.
    apply take_app_length.
  - rewrite <- length_app, Heq, !length_app. lia.
Qed.

(** X13: a position that a client writes with [LittleEndian_PutUint32] at
    the offset of the second element of [PLAYER_MOVE_EVENT] is what
    [UpdateAny] stores as [LastKnownPosition] (as a 32-bit value),
    together with the time stamp, whatever lies behind the payload. *)
Theorem UpdateAny_reads_back_position PM now dcs el pre p post behind :
  Structure PM !! 1%nat = Some el ->
  ByteSize el = 4 ->
  Offset el = Z.of_nat (length pre) ->
  Offset el + 4 < 2 ^ 32 ->
  UpdateAny PM now dcs (Spec_ID PM) (pre ++ LittleEndian_PutUint32 p ++ post) behind
  = Ok {| LastKnownPosition := wrap32 p; MSOfLastMessage := nowInMS now |}.
Proof.
  intros Hel Hsz Hoff Hsmall.
  apply (UpdateAny_move_message PM now dcs _ _ el (LittleEndian_PutUint32 p)).
  - exact Hel.
  - rewrite Hsz.
    replace (wrap32 (Offset el + 4)) with (Offset el + 4)
      by (unfold wrap32; rewrite Z.mod_small; lia).
    rewrite Hoff.
    apply (slice_middle _ behind pre (LittleEndian_PutUint32 p) (post ++ behind)).
    rewrite <- !app_assoc. reflexivity.
  - exact (LittleEndian_roundtrip p []).
Qed.

Lemma UpdateAny_reads_back_position_witness :
  UpdateAny example_PLAYER_MOVE_EVENT 5000000 NewDisclosedClientState 2007
    ((BigEndian_PutUint32 8 ++ BigEndian_PutUint32 2007 ++ LittleEndian_PutUint32 8)
       ++ LittleEndian_PutUint32 4294967301 ++ []) [Byte.x00; Byte.x00]
  = Ok {| LastKnownPosition := wrap32 4294967301; MSOfLastMessage := nowInMS 5000000 |}.
Proof.
  apply (UpdateAny_reads_back_position example_PLAYER_MOVE_EVENT 5000000
           NewDisclosedClientState
           {| ByteSize := 4; Offset := 12; FieldName := "colonyLocationID";
              Description := "Colony Location ID"; ElementKind := Uint32 |});
    [reflexivity | reflexivity | reflexivity | vm_compute; reflexivity].
Defined.

(** X14: for the identifier of [PLAYER_MOVE_EVENT], [UpdateAny] panics,
    and so stores nothing and stamps nothing, when the event has no second
    element or when that element ends beyond the capacity of the payload.
    A payload that is merely too short does not make it panic: the call
    cannot tell the payload from the bytes behind it in the backing array,
    and when the payload ends where the element begins, the position that
    is stored is read from the bytes behind the payload. *)
Theorem UpdateAny_short_payload PM now dcs payload behind :
  (Structure PM !! 1%nat = None ->
   UpdateAny PM now dcs (Spec_ID PM) payload behind = Panic "index out of range")
  /\ (forall el,
        Structure PM !! 1%nat = Some el ->
        Z.of_nat (length payload + length behind)
        < wrap32 (Offset el + ByteSize el) ->
        UpdateAny PM now dcs (Spec_ID PM) payload behind
        = Panic "slice bounds out of range")
  /\ (forall el p rest,
        Structure PM !! 1%nat = Some el ->
        ByteSize el = 4 ->
        Offset el + 4 < 2 ^ 32 ->
        Offset el = Z.of_nat (length payload) ->
        behind = LittleEndian_PutUint32 p ++ rest ->
        UpdateAny PM now dcs (Spec_ID PM) payload behind
        = Ok {| LastKnownPosition := wrap32 p; MSOfLastMessage := nowInMS now |})
  /\ (forall messageID,
        UpdateAny PM now dcs messageID payload behind
        = UpdateAny PM now dcs messageID (payload ++ behind) []).
Proof.
  split; [|split; [|split]].
  - unfold UpdateAny, index. rewrite Z.eqb_refl. intros ->. reflexivity.
  - unfold UpdateAny, index. rewrite Z.eqb_refl. intros el -> Hshort.
    rewrite slice_outside by lia. reflexivity.
  - intros el p rest Hel Hsz Hsmall Hoff ->.
    apply (UpdateAny_move_message PM now dcs _ _ el (LittleEndian_PutUint32 p)).
    + exact Hel.
    + rewrite Hsz.
      replace (wrap32 (Offset el + 4)) with (Offset el + 4)
        by (unfold wrap32; rewrite Z.mod_small; lia).
      rewrite Hoff.
      apply (slice_middle _ _ payload (LittleEndian_PutUint32 p) rest).
      reflexivity.
    + exact (LittleEndian_roundtrip p []).
  - intros messageID. unfold UpdateAny, slice.
    rewrite length_app, app_nil_r. simpl. rewrite Nat.add_0_r. reflexivity.
Qed.

Lemma UpdateAny_short_payload_witness :
  UpdateAny example_PLAYER_MOVE_EVENT 5000000 NewDisclosedClientState 2007
    (drop 8 moveMessage) []
  = Panic "slice bounds out of range"
  /\ UpdateAny example_PLAYER_MOVE_EVENT 5000000 NewDisclosedClientState 2007
       (take 12 moveMessage) (LittleEndian_PutUint32 9 ++ [Byte.x00])
     = Ok {| LastKnownPosition := wrap32 9; MSOfLastMessage := nowInMS 5000000 |}.
Proof.
  split.
  - apply (proj1 (proj2 (UpdateAny_short_payload example_PLAYER_MOVE_EVENT 5000000
                           NewDisclosedClientState (drop 8 moveMessage) []))
             {| ByteSize := 4; Offset := 12; FieldName := "colonyLocationID";
                Description := "Colony Location ID"; ElementKind := Uint32 |});
      [reflexivity | vm_compute; reflexivity].
  - apply (proj1 (proj2 (proj2 (UpdateAny_short_payload example_PLAYER_MOVE_EVENT
                                  5000000 NewDisclosedClientState
                                  (take 12 moveMessage)
                                  (LittleEndian_PutUint32 9 ++ [Byte.x00]))))
             {| ByteSize := 4; Offset := 12; FieldName := "colonyLocationID";
                Description := "Colony Location ID"; ElementKind := Uint32 |}
             9 [Byte.x00]);
      [reflexivity | reflexivity | vm_compute; reflexivity | reflexivity | reflexivity].
Defined.

(** ** The lobby manager: creation, joins, invariants *)

Lemma CreateLobby_inv lm o c e lm' r :
  CreateLobby lm o c e = (lm', r) ->
  (acceptsNewLobbies lm = false /\ lm' = lm /\ exists err, r = inr err)
  \/ (acceptsNewLobbies lm = true /\ lm' = lm
      /\ exists k l, r = inl l /\ Lobbies lm !! k = Some l /\ ColonyID l = c)
  \/ (acceptsNewLobbies lm = true
      /\ (forall k l, Lobbies lm !! k = Some l -> ColonyID l <> c)
      /\ exists l, r = inl l
         /\ l = NewLobby (wrap32 (nextLobbyID lm + 1)) o c
                  (if decide (e = MESSAGE_ENCODING_BINARY)
                   then Config_Encoding (configuration lm) else e)
         /\ lm' = setLobbies (setNextLobbyID lm (wrap32 (nextLobbyID lm + 1)))
                    (<[wrap32 (nextLobbyID lm + 1) := l]> (Lobbies lm))).
Proof.
  unfold CreateLobby. destruct (acceptsNewLobbies lm) eqn:Ha; simpl.
  - destruct (existingLobbyFor (Lobbies lm) c) as [l|] eqn:He.
    + intros [= <- <-]. right. left.
      apply existingLobbyFor_Some in He as [[k Hk] Hc]. split; [reflexivity|]. split; [reflexivity|]. eauto.
    + intros [= <- <-]. right. right. split; [reflexivity|]. split.
      * apply existingLobbyFor_None. exact He.
      * eexists. split; [reflexivity|]. split; reflexivity.
  - intros [= <- <-]. left. eauto.
Qed.




Lemma CreateLobby_preserves_wellFormed lm o c e lm' r :
  CreateLobby lm o c e = (lm', r) -> managerWellFormed lm -> managerWellFormed lm'.
Proof.
  intros H (Hk & Hu & Hc).
  apply CreateLobby_inv in H as [(_ & -> & _)|[(_ & -> & _)|(Ha & Hnone & l0 & Hr & Hl0 & ->)]];
    [repeat split; assumption ..|].
  set (id := wrap32 (nextLobbyID lm + 1)) in *.
  repeat split.
  - intros k l Hl. simpl in Hl. apply lookup_insert_Some in Hl as [[<- <-]|[_ Hl]].
    + rewrite Hl0. reflexivity.
    + exact (Hk _ _ Hl).
  - intros k1 k2 l1 l2 H1 H2 Heq. simpl in H1, H2.
    apply lookup_insert_Some in H1 as [[<- <-]|[Hn1 H1]];
      apply lookup_insert_Some in H2 as [[<- <-]|[Hn2 H2]].
    + reflexivity.
    + exfalso. apply (Hnone _ _ H2). rewrite <- Heq, Hl0. reflexivity.
    + exfalso. apply (Hnone _ _ H1). rewrite Heq, Hl0. reflexivity.
    + exact (Hu _ _ _ _ H1 H2 Heq).
  - intros k l Hl. simpl in Hl. apply lookup_insert_Some in Hl as [[<- <-]|[_ Hl]].
    + rewrite Hl0. intros k' c' Hc'. simpl in Hc'. rewrite lookup_empty in Hc'. discriminate.
    + exact (Hc _ _ Hl).
Qed.

Section ManagerFurther.
Context `{Env : Environment}.

Lemma JoinLobby_inv lm lobbyID clientID ign conn lm' ev err :
  JoinLobby lm lobbyID clientID ign conn = (lm', ev, err) ->
  (lm' = lm /\ ev = [] /\ exists e, err = Some e)
  \/ exists lobby msg,
       Lobbies lm !! lobbyID = Some lobby /\ Closing lobby = false
       /\ Clients lobby !! clientID = None
       /\ Serialize_PlayerJoined PLAYER_JOINED_EVENT clientID ign = inl msg
       /\ err = None
       /\ let client := NewClient clientID ign
                          (Ternary (OwnerID lobby =? clientID) ORIGIN_TYPE_OWNER ORIGIN_TYPE_GUEST)
                          conn (Lobby_Encoding lobby) in
          lm' = setLobbies lm (<[lobbyID := setClients lobby (<[clientID := client]> (Clients lobby))]> (Lobbies lm))
          /\ ev = BroadcastMessage lobby SERVER_ID msg ++ [EvGoHandleConnection (Lobby_ID lobby) client].
Proof.
  unfold JoinLobby.
  destruct (Lobbies lm !! lobbyID) as [lobby|] eqn:Hl; [|intros [= <- <- <-]; left; eauto].
  destruct (Closing lobby) eqn:Hc; [intros [= <- <- <-]; left; eauto|].
  destruct (Clients lobby !! clientID) as [c|] eqn:Hcl; [intros [= <- <- <-]; left; eauto|].
  simpl.
  destruct (Serialize_PlayerJoined PLAYER_JOINED_EVENT clientID ign) as [msg|e] eqn:Hs;
    [|intros [= <- <- <-]; left; eauto].
  intros [= <- <- <-]. right. exists lobby, msg. repeat split; auto.
Qed.

Lemma JoinLobby_preserves_wellFormed lm lobbyID clientID ign conn lm' ev err :
  JoinLobby lm lobbyID clientID ign conn = (lm', ev, err) ->
  managerWellFormed lm -> managerWellFormed lm'.
Proof.
  intros H (Hk & Hu & Hc).
  apply JoinLobby_inv in H as [(-> & _)|(lobby & msg & Hl & Hcl & Hn & Hs & _ & Hlm & _)];
    [repeat split; assumption|].
  simpl in Hlm. subst lm'. repeat split.
  - intros k l Hkl. simpl in Hkl. apply lookup_insert_Some in Hkl as [[<- <-]|[_ Hkl]].
    + simpl. exact (Hk _ _ Hl).
    + exact (Hk _ _ Hkl).
  - intros k1 k2 l1 l2 H1 H2 Heq. simpl in H1, H2.
    apply lookup_insert_Some in H1 as [[<- <-]|[Hn1 H1]];
      apply lookup_insert_Some in H2 as [[<- <-]|[Hn2 H2]].
    + reflexivity.
    + simpl in Heq. exact (Hu _ _ _ _ Hl H2 Heq).
    + simpl in Heq. exact (Hu _ _ _ _ H1 Hl Heq).
    + exact (Hu _ _ _ _ H1 H2 Heq).
  - intros k l Hkl. simpl in Hkl. apply lookup_insert_Some in Hkl as [[<- <-]|[_ Hkl]].
    + intros k' c' Hc'. simpl in Hc'.
      apply lookup_insert_Some in Hc' as [[<- <-]|[_ Hc']]; [reflexivity|].
      exact (Hc _ _ Hl _ _ Hc').
    + exact (Hc _ _ Hkl).
Qed.

(** X16: [IsJoinPossible] and [JoinLobby] make the same three checks: an
    error of [IsJoinPossible] is the error [JoinLobby] returns on the same
    state, without any effect; when [IsJoinPossible] returns nil, a join
    whose notification serializes succeeds; and a join that succeeds is
    one that [IsJoinPossible] allows. *)
Theorem IsJoinPossible_agrees_with_JoinLobby lm lobbyID clientID colonyID ownerID ign conn :
  (forall e evp, IsJoinPossible lm lobbyID clientID colonyID ownerID = (evp, Some e) ->
     JoinLobby lm lobbyID clientID ign conn = (lm, [], Some e))
  /\ (forall evp msg,
        IsJoinPossible lm lobbyID clientID colonyID ownerID = (evp, None) ->
        Serialize_PlayerJoined PLAYER_JOINED_EVENT clientID ign = inl msg ->
        exists lm' ev, JoinLobby lm lobbyID clientID ign conn = (lm', ev, None))
  /\ (forall lm' ev,
        JoinLobby lm lobbyID clientID ign conn = (lm', ev, None) ->
        IsJoinPossible lm lobbyID clientID colonyID ownerID = ([], None)).
Proof.
  unfold IsJoinPossible, JoinLobby.
  destruct (Lobbies lm !! lobbyID) as [lobby|];
    [|split; [|split]; intros; simplify_eq; eauto].
  destruct (Closing lobby); [split; [|split]; intros; simplify_eq; eauto|].
  destruct (Clients lobby !! clientID); [split; [|split]; intros; simplify_eq; eauto|].
  simpl. split; [|split].
  - intros e evp [=].
  - intros evp msg _ ->. eauto.
  - intros lm' ev _. reflexivity.
Qed.

(** X17: after a join has succeeded, a second join with the same client
    identifier in the same lobby is refused with
    [JoinErrorAlreadyInLobby], by [JoinLobby] and by [IsJoinPossible], and
    the manager stays as it is. *)
Theorem second_join_is_refused lm lobbyID clientID ign conn lm' ev :
  JoinLobby lm lobbyID clientID ign conn = (lm', ev, None) ->
  forall ign' conn' colonyID ownerID,
    let refusal := {| Err_LobbyID := lobbyID; Err_Type := JoinErrorAlreadyInLobby;
                      Reason := "User is already in lobby" |} in
    JoinLobby lm' lobbyID clientID ign' conn' = (lm', [], Some refusal)
    /\ IsJoinPossible lm' lobbyID clientID colonyID ownerID = ([], Some refusal).
Proof.
  intros H ign' conn' colonyID ownerID refusal.
  apply JoinLobby_inv in H as [(_ & _ & e & He)|(lobby & msg & Hl & Hcl & Hn & Hs & _ & Hlm & _)];
    [discriminate|].
  simpl in Hlm. subst lm'. unfold JoinLobby, IsJoinPossible. simpl.
  rewrite lookup_insert_eq. simpl. rewrite Hcl, lookup_insert_eq. split; reflexivity.
Qed.

(** X18: the client that a successful join stores has owner type exactly
    when its identifier is the lobby's owner identifier and guest type
    otherwise; it carries the name and connection given, the encoding of
    the lobby and the zero disclosed state; the other clients of the lobby
    and the other lobbies are as before. *)
Theorem JoinLobby_origin_type lm lobbyID clientID ign conn lm' ev lobby :
  JoinLobby lm lobbyID clientID ign conn = (lm', ev, None) ->
  Lobbies lm !! lobbyID = Some lobby ->
  exists lobby' client,
    Lobbies lm' !! lobbyID = Some lobby'
    /\ Clients lobby' !! clientID = Some client
    /\ (Client_Type client = ORIGIN_TYPE_OWNER <-> clientID = OwnerID lobby)
    /\ (Client_Type client = ORIGIN_TYPE_GUEST <-> clientID <> OwnerID lobby)
    /\ IGN client = ign /\ Conn client = conn
    /\ Client_Encoding client = Lobby_Encoding lobby
    /\ State client = NewDisclosedClientState
    /\ (forall k, k <> clientID -> Clients lobby' !! k = Clients lobby !! k)
    /\ (forall k, k <> lobbyID -> Lobbies lm' !! k = Lobbies lm !! k).
Proof.
  intros H Hl0.
  apply JoinLobby_inv in H as [(_ & _ & e & He)|(lobby1 & msg & Hl & Hcl & Hn & Hs & _ & Hlm & _)];
    [discriminate|].
  rewrite Hl0 in Hl. injection Hl as <-.
  simpl in Hlm. subst lm'. eexists _, _. simpl.
  split; [apply lookup_insert_eq|]. simpl. split; [apply lookup_insert_eq|]. simpl.
  unfold Ternary. destruct (Z.eqb_spec (OwnerID lobby) clientID) as [Heq|Hne].
  - repeat split; try reflexivity; try congruence; try discriminate.
    + intros k Hk. apply lookup_insert_ne. congruence.
    + intros k Hk. apply lookup_insert_ne. congruence.
  - repeat split; try reflexivity; try congruence; try discriminate.
    + intros k Hk. apply lookup_insert_ne. congruence.
    + intros k Hk. apply lookup_insert_ne. congruence.
Qed.

End ManagerFurther.

Lemma IsJoinPossible_agrees_with_JoinLobby_witness :
  JoinLobby (Env := exampleEnv) closingManager 2 9 "stranger" 102
  = (closingManager, [],
     Some {| Err_LobbyID := 2; Err_Type := JoinErrorClosing;
             Reason := "Lobby is closing" |})
  /\ (exists lm' ev,
        JoinLobby (Env := exampleEnv) exampleManager 2 9 "stranger" 102
        = (lm', ev, None)).
Proof.
  split.
  - apply (proj1 (@IsJoinPossible_agrees_with_JoinLobby exampleEnv closingManager
                    2 9 42 7 "stranger" 102) _ []).
    reflexivity.
  - apply (proj1 (proj2 (@IsJoinPossible_agrees_with_JoinLobby exampleEnv
                           exampleManager 2 9 42 7 "stranger" 102))
             [] (BigEndian_PutUint32 9 ++ bytes_of_string "stranger"));
      reflexivity.
Defined.

Lemma second_join_is_refused_witness :
  JoinLobby (Env := exampleEnv) managerAfterJoin9 2 9 "again" 103
  = (managerAfterJoin9, [],
     Some {| Err_LobbyID := 2; Err_Type := JoinErrorAlreadyInLobby;
             Reason := "User is already in lobby" |})
  /\ IsJoinPossible managerAfterJoin9 2 9 42 7
     = ([], Some {| Err_LobbyID := 2; Err_Type := JoinErrorAlreadyInLobby;
                    Reason := "User is already in lobby" |}).
Proof.
  apply (@second_join_is_refused exampleEnv exampleManager 2 9 "stranger" 102
           managerAfterJoin9
           [ EvBroadcast 2 MESSAGE_ENCODING_BASE16 (Clients exampleLobby) SERVER_ID
               (BigEndian_PutUint32 9 ++ bytes_of_string "stranger");
             EvGoHandleConnection 2 stranger9 ]).
  vm_compute. reflexivity.
Defined.

Lemma JoinLobby_origin_type_witness :
  exists lobby' client,
    Lobbies (setLobbies managerWithLobby3
               (<[3 := setClients (NewLobby 3 11 43 MESSAGE_ENCODING_BASE16)
                         (<[11 := NewClient 11 "eleven" ORIGIN_TYPE_OWNER 104
                                    MESSAGE_ENCODING_BASE16]> ∅)]>
                  (Lobbies managerWithLobby3))) !! 3 = Some lobby'
    /\ Clients lobby' !! 11 = Some client
    /\ (Client_Type client = ORIGIN_TYPE_OWNER
        <-> 11 = OwnerID (NewLobby 3 11 43 MESSAGE_ENCODING_BASE16))
    /\ (Client_Type client = ORIGIN_TYPE_GUEST
        <-> 11 <> OwnerID (NewLobby 3 11 43 MESSAGE_ENCODING_BASE16))
    /\ IGN client = "eleven" /\ Conn client = 104
    /\ Client_Encoding client = Lobby_Encoding (NewLobby 3 11 43 MESSAGE_ENCODING_BASE16)
    /\ State client = NewDisclosedClientState
    /\ (forall k, k <> 11 ->
          Clients lobby' !! k = Clients (NewLobby 3 11 43 MESSAGE_ENCODING_BASE16) !! k)
    /\ (forall k, k <> 3 ->
          Lobbies (setLobbies managerWithLobby3
               (<[3 := setClients (NewLobby 3 11 43 MESSAGE_ENCODING_BASE16)
                         (<[11 := NewClient 11 "eleven" ORIGIN_TYPE_OWNER 104
                                    MESSAGE_ENCODING_BASE16]> ∅)]>
                  (Lobbies managerWithLobby3))) !! k
          = Lobbies managerWithLobby3 !! k).
Proof.
  apply (@JoinLobby_origin_type exampleEnv managerWithLobby3 3 11 "eleven" 104 _
           [ EvBroadcast 3 MESSAGE_ENCODING_BASE16 ∅ SERVER_ID
               (BigEndian_PutUint32 11 ++ bytes_of_string "eleven");
             EvGoHandleConnection 3
               (NewClient 11 "eleven" ORIGIN_TYPE_OWNER 104 MESSAGE_ENCODING_BASE16) ]);
    vm_compute; reflexivity.
Defined.

(** ** The lobby manager: unregistering, shutdown, the close queue *)

Lemma count_foldl {A} (l : list A) (a : Z) :
  foldl (fun count (_ : A) => count + 1) a l = a + Z.of_nat (length l).
Proof.
  revert a. induction l as [|x l IH]; intros a; simpl; [lia|]. rewrite IH. lia.
Qed.

Lemma ClientCount_size lobby : ClientCount lobby = Z.of_nat (size (Clients lobby)).
Proof. unfold ClientCount. rewrite count_foldl, length_map_to_list. lia. Qed.

Lemma GetLobbyCount_size lm : GetLobbyCount lm = Z.of_nat (size (Lobbies lm)).
Proof. unfold GetLobbyCount. rewrite count_foldl, length_map_to_list. lia. Qed.

Lemma lobbyEvents_InLobby evs : lobbyEvents (InLobby <$> evs) = evs.
Proof.
  unfold lobbyEvents. induction evs as [|e evs IH]; [reflexivity|].
  rewrite fmap_cons. cbn [omap list_omap]. simpl. f_equal. exact IH.
Qed.

Lemma lobbyEvents_app a b : lobbyEvents (a ++ b) = lobbyEvents a ++ lobbyEvents b.
Proof. unfold lobbyEvents. apply omap_app. Qed.

Section ClosingProperties.
Context `{Env : Environment}.
Variable idb : bytes.

(** X19: unregistering a lobby that is not in the map does nothing.
    Unregistering one that is takes it out of the map and closes the
    connection of every client still in it, one close per client, without
    any broadcast; a second unregistration does nothing; and from then on
    [IsJoinPossible] against its identifier answers not-found and asks the
    main backend to close the colony, and [JoinLobby] answers not-found. *)
Theorem UnregisterLobby_effects lm lobby :
  (Lobbies lm !! Lobby_ID lobby = None -> UnregisterLobby lm lobby = (lm, []))
  /\ (forall stored, Lobbies lm !! Lobby_ID lobby = Some stored ->
      exists lm' ev,
        UnregisterLobby lm lobby = (lm', ev)
        /\ Lobbies lm' = delete (Lobby_ID lobby) (Lobbies lm)
        /\ Z.of_nat (length ev) = ClientCount stored
        /\ (forall e, e ∈ ev <-> exists k c, Clients stored !! k = Some c /\ e = EvConnClose (Conn c))
        /\ UnregisterLobby lm' lobby = (lm', [])
        /\ forall clientID colonyID ownerID ign conn,
             let notFound := {| Err_LobbyID := Lobby_ID lobby; Err_Type := JoinErrorNotFound;
                                Reason := "Lobby does not exist" |} in
             IsJoinPossible lm' (Lobby_ID lobby) clientID colonyID ownerID
             = ([EvGoCloseColony colonyID ownerID], Some notFound)
             /\ JoinLobby lm' (Lobby_ID lobby) clientID ign conn = (lm', [], Some notFound)).
Proof.
  unfold UnregisterLobby. split.
  - intros ->. reflexivity.
  - intros stored ->. eexists _, _. split; [reflexivity|]. simpl.
    split; [reflexivity|]. split.
    { unfold shutdown. rewrite length_fmap, ClientCount_size, length_map_to_list. reflexivity. }
    split.
    { intros e. unfold shutdown. rewrite list_elem_of_fmap. split.
      - intros [[k c] [-> Hin]]. apply elem_of_map_to_list in Hin. simpl. eauto.
      - intros (k & c & Hc & ->). exists (k, c). split; [reflexivity|].
        apply elem_of_map_to_list. exact Hc. }
    split.
    { rewrite lookup_delete_eq. reflexivity. }
    intros clientID colonyID ownerID ign conn.
    unfold IsJoinPossible, JoinLobby. simpl. rewrite lookup_delete_eq. split; reflexivity.
Qed.

Lemma shutdown_fold kvs : forall (m0 : gmap LobbyID Lobby) ev0,
  NoDup kvs.*1 ->
  exists m ev,
    foldl (shutdownLobby idb false) (Ok (m0, ev0)) kvs = Ok (m, ev)
    /\ (forall k, m !! k = match list_to_map (M := gmap LobbyID Lobby) kvs !! k with
                           | Some v => Some (setClosing v true)
                           | None => m0 !! k
                           end)
    /\ enqueued ev
       = enqueued ev0 ++ ((fun kv : LobbyID * Lobby => Lobby_ID kv.2) <$> kvs).
Proof.
  induction kvs as [|[k v] kvs IH]; intros m0 ev0 Hnd.
  - exists m0, ev0. split; [reflexivity|]. simpl.
    split; [intros k; rewrite lookup_empty; reflexivity|].
    rewrite app_nil_r. reflexivity.
  - rewrite fmap_cons in Hnd. apply NoDup_cons in Hnd as [Hnotin Hnd].
    simpl in Hnotin. cbn [foldl].
    assert (Hstep : shutdownLobby idb false (Ok (m0, ev0)) (k, v)
                    = Ok (<[k := setClosing v true]> m0,
                          ev0 ++ BroadcastMessage v SERVER_ID idb
                              ++ BroadcastMessage v SERVER_ID
                                   (PrepareServerMessage LOBBY_CLOSING_EVENT)
                              ++ [EvEnqueueClose (Lobby_ID v)]))
      by reflexivity.
    rewrite Hstep.
    destruct (IH (<[k := setClosing v true]> m0)
                 (ev0 ++ BroadcastMessage v SERVER_ID idb
                      ++ BroadcastMessage v SERVER_ID
                           (PrepareServerMessage LOBBY_CLOSING_EVENT)
                      ++ [EvEnqueueClose (Lobby_ID v)]) Hnd)
      as (m & ev & Hf & Hm & He).
    exists m, ev. split; [exact Hf|]. split.
    + intros k'. rewrite Hm. rewrite list_to_map_cons. simpl.
      destruct (decide (k = k')) as [<-|Hne].
      * rewrite (not_elem_of_list_to_map_1 kvs k Hnotin), !lookup_insert_eq.
        reflexivity.
      * rewrite !lookup_insert_ne by exact Hne. reflexivity.
    + rewrite He. unfold enqueued. rewrite !omap_app. rewrite fmap_cons. simpl.
      rewrite <- app_assoc. reflexivity.
Qed.

Lemma shutdown_fold_panic queueClosed kvs e :
  foldl (shutdownLobby idb queueClosed) (Panic e) kvs = Panic e.
Proof. induction kvs as [|kv kvs IH]; [reflexivity|exact IH]. Qed.

Lemma ShutdownLobbyManager_closed lm :
  CloseQueueClosed lm = true ->
  exists msg, ShutdownLobbyManager idb lm = Panic msg.
Proof.
  intros Hc. unfold ShutdownLobbyManager. simpl. rewrite Hc.
  destruct (map_to_list (Lobbies lm)) as [|kv kvs].
  - eexists. reflexivity.
  - cbn [foldl]. unfold shutdownLobby at 2. simpl.
    rewrite shutdown_fold_panic. eexists. reflexivity.
Qed.

Lemma ShutdownLobbyManager_open lm :
  CloseQueueClosed lm = false ->
  exists lm' ev,
    ShutdownLobbyManager idb lm = Ok (lm', ev)
    /\ acceptsNewLobbies lm' = false
    /\ Lobbies lm' = (fun l => setClosing l true) <$> Lobbies lm
    /\ nextLobbyID lm' = nextLobbyID lm
    /\ CloseQueueClosed lm' = true
    /\ enqueued (lobbyEvents ev)
       = (fun kv : LobbyID * Lobby => Lobby_ID kv.2) <$> map_to_list (Lobbies lm)
    /\ last ev = Some EvCloseQueueClosed.
Proof.
  intros Ho. unfold ShutdownLobbyManager. simpl. rewrite Ho.
  destruct (shutdown_fold (map_to_list (Lobbies lm)) (Lobbies lm) []
              (NoDup_fst_map_to_list _)) as (lobbies & evs & Hf & Hm & He).
  rewrite Hf. eexists _, _. split; [reflexivity|]. simpl.
  assert (Hmap : lobbies = (fun l => setClosing l true) <$> Lobbies lm).
  { apply map_eq. intros k. rewrite Hm, list_to_map_to_list, lookup_fmap.
    destruct (Lobbies lm !! k); reflexivity. }
  split; [reflexivity|]. split; [exact Hmap|]. split; [reflexivity|].
  split; [reflexivity|]. split.
  { rewrite lobbyEvents_app, lobbyEvents_InLobby. simpl. rewrite app_nil_r. exact He. }
  rewrite last_snoc. reflexivity.
Qed.

Lemma ShutdownLobbyManager_state lm lm' ev :
  ShutdownLobbyManager idb lm = Ok (lm', ev) ->
  CloseQueueClosed lm = false
  /\ acceptsNewLobbies lm' = false
  /\ Lobbies lm' = (fun l => setClosing l true) <$> Lobbies lm
  /\ nextLobbyID lm' = nextLobbyID lm
  /\ CloseQueueClosed lm' = true
  /\ enqueued (lobbyEvents ev)
     = (fun kv : LobbyID * Lobby => Lobby_ID kv.2) <$> map_to_list (Lobbies lm)
  /\ last ev = Some EvCloseQueueClosed.
Proof.
  intros H. destruct (CloseQueueClosed lm) eqn:Hq.
  - destruct (ShutdownLobbyManager_closed lm Hq) as [msg Hp]. congruence.
  - destruct (ShutdownLobbyManager_open lm Hq) as (lm1 & ev1 & Hs & Hrest).
    rewrite Hs in H. injection H as <- <-. split; [reflexivity|]. exact Hrest.
Qed.


Lemma processClosures_cons lm lobby queue :
  processClosures lm (lobby :: queue)
  = let '(lm1, ev1) := UnregisterLobby lm lobby in
    let '(lm2, ev2) := processClosures lm1 queue in (lm2, ev1 ++ ev2).
Proof.
  unfold processClosures. simpl.
  destruct (UnregisterLobby lm lobby) as [lm1 ev1].
  assert (H : forall q lmx e1 e2,
    foldl (fun (acc : LobbyManager * list Event) lobby =>
             let '(lm', ev') := UnregisterLobby acc.1 lobby in (lm', acc.2 ++ ev'))
          (lmx, e1 ++ e2) q
    = let '(lm2, ev2) := foldl (fun (acc : LobbyManager * list Event) lobby =>
             let '(lm', ev') := UnregisterLobby acc.1 lobby in (lm', acc.2 ++ ev'))
          (lmx, e2) q in (lm2, e1 ++ ev2)).
  { induction q as [|l q IH]; intros lmx e1 e2; simpl; [reflexivity|].
    destruct (UnregisterLobby lmx l) as [lmy ey]. rewrite <- app_assoc. apply IH. }
  specialize (H queue lm1 ev1 []). rewrite app_nil_r in H. exact H.
Qed.

Lemma processClosures_lookup queue : forall lm lm' ev,
  processClosures lm queue = (lm', ev) ->
  (forall k, Lobbies lm' !! k
             = if decide (k ∈ Lobby_ID <$> queue) then None else Lobbies lm !! k)
  /\ acceptsNewLobbies lm' = acceptsNewLobbies lm
  /\ nextLobbyID lm' = nextLobbyID lm.
Proof.
  induction queue as [|lobby queue IH]; intros lm lm' ev H.
  - injection H as <- <-. split; [|split; reflexivity].
    intros k. destruct (decide _) as [Hin|_]; [|reflexivity].
    rewrite fmap_nil in Hin. apply elem_of_nil in Hin. destruct Hin.
  - rewrite processClosures_cons in H.
    destruct (UnregisterLobby lm lobby) as [lm1 ev1] eqn:Hu.
    destruct (processClosures lm1 queue) as [lm2 ev2] eqn:Hp.
    injection H as <- <-.
    destruct (IH _ _ _ Hp) as (Hlook & Hacc & Hnext).
    assert (H1 : Lobbies lm1 = delete (Lobby_ID lobby) (Lobbies lm)
                 /\ acceptsNewLobbies lm1 = acceptsNewLobbies lm
                 /\ nextLobbyID lm1 = nextLobbyID lm).
    { revert Hu. unfold UnregisterLobby.
      destruct (Lobbies lm !! Lobby_ID lobby) eqn:Hl; intros [= <- _]; simpl.
      - repeat split; reflexivity.
      - rewrite delete_id by exact Hl. repeat split; reflexivity. }
    destruct H1 as (Hl1 & Ha1 & Hn1).
    split; [|split; congruence].
    intros k. rewrite Hlook, Hl1, fmap_cons.
    destruct (decide (k ∈ Lobby_ID <$> queue)) as [Hin|Hnin].
    + rewrite decide_True by (apply elem_of_cons; right; exact Hin). reflexivity.
    + destruct (decide (k = Lobby_ID lobby)) as [->|Hne].
      * rewrite decide_True by (apply elem_of_cons; left; reflexivity).
        apply lookup_delete_eq.
      * rewrite decide_False by (rewrite elem_of_cons; tauto).
        apply lookup_delete_ne. congruence.
Qed.

(** X21: after the close queue has been drained, none of the lobbies
    received from it is in the map, also when a lobby was queued more than
    once, and the lobbies that were not queued are untouched. *)
Theorem processClosures_effects queue : forall lm lm' ev,
  processClosures lm queue = (lm', ev) ->
  (forall l, l ∈ queue -> Lobbies lm' !! Lobby_ID l = None)
  /\ (forall k, k ∉ Lobby_ID <$> queue -> Lobbies lm' !! k = Lobbies lm !! k)
  /\ acceptsNewLobbies lm' = acceptsNewLobbies lm
  /\ nextLobbyID lm' = nextLobbyID lm.
Proof.
  intros lm lm' ev H.
  destruct (processClosures_lookup _ _ _ _ H) as (Hlook & Hacc & Hnext).
  split; [|split; [|split; assumption]].
  - intros l Hl. rewrite Hlook, decide_True; [reflexivity|].
    apply list_elem_of_fmap. eauto.
  - intros k Hk. rewrite Hlook, decide_False by exact Hk. reflexivity.
Qed.


End ClosingProperties.


Lemma UnregisterLobby_effects_witness :
  UnregisterLobby exampleManager unknownLobby = (exampleManager, [])
  /\ exists lm' ev,
       UnregisterLobby exampleManager exampleLobby = (lm', ev)
       /\ Lobbies lm' = delete (Lobby_ID exampleLobby) (Lobbies exampleManager)
       /\ Z.of_nat (length ev) = ClientCount exampleLobby
       /\ (forall e, e ∈ ev <->
             exists k c, Clients exampleLobby !! k = Some c /\ e = EvConnClose (Conn c))
       /\ UnregisterLobby lm' exampleLobby = (lm', [])
       /\ forall clientID colonyID ownerID ign conn,
            let notFound := {| Err_LobbyID := Lobby_ID exampleLobby;
                               Err_Type := JoinErrorNotFound;
                               Reason := "Lobby does not exist" |} in
            IsJoinPossible lm' (Lobby_ID exampleLobby) clientID colonyID ownerID
            = ([EvGoCloseColony colonyID ownerID], Some notFound)
            /\ JoinLobby (Env := exampleEnv) lm' (Lobby_ID exampleLobby) clientID ign conn
               = (lm', [], Some notFound).
Proof.
  split.
  - apply (proj1 (@UnregisterLobby_effects exampleEnv exampleManager unknownLobby)).
    reflexivity.
  - apply (proj2 (@UnregisterLobby_effects exampleEnv exampleManager exampleLobby)).
    reflexivity.
Defined.


Lemma processClosures_effects_witness :
  let r := processClosures exampleManager [exampleLobby; exampleLobby] in
  (forall l, l ∈ [exampleLobby; exampleLobby] -> Lobbies r.1 !! Lobby_ID l = None)
  /\ (forall k, k ∉ Lobby_ID <$> [exampleLobby; exampleLobby] ->
        Lobbies r.1 !! k = Lobbies exampleManager !! k)
  /\ acceptsNewLobbies r.1 = acceptsNewLobbies exampleManager
  /\ nextLobbyID r.1 = nextLobbyID exampleManager.
Proof.
  intros r.
  apply (processClosures_effects [exampleLobby; exampleLobby] exampleManager r.1 r.2).
  apply surjective_pairing.
Defined.


(** ** The lobby manager: counts, closing lobbies, reachable states *)

Section ReachableProperties.
Context `{Env : Environment}.

(** X23: the counts follow the membership: a new lobby has no client, a
    join that succeeds raises the lobby's client count by one, the removal
    of a client lowers it by one, and a creation raises the lobby count by
    one when the colony is new and the identifier free, and leaves it when
    the colony has a lobby. *)
Theorem counts_follow_membership lm :
  (forall id ownerID colonyID encoding,
     ClientCount (NewLobby id ownerID colonyID encoding) = 0)
  /\ (forall lobbyID clientID ign conn lm' ev lobby lobby',
        JoinLobby lm lobbyID clientID ign conn = (lm', ev, None) ->
        Lobbies lm !! lobbyID = Some lobby ->
        Lobbies lm' !! lobbyID = Some lobby' ->
        ClientCount lobby' = ClientCount lobby + 1)
  /\ (forall lobby client lobby' ev,
        clientsKeyedByID lobby ->
        RemoveClient lobby client = Ok (lobby', ev) ->
        ClientCount lobby' = ClientCount lobby - 1)
  /\ (forall ownerID colonyID encoding lm' lobby,
        CreateLobby lm ownerID colonyID encoding = (lm', inl lobby) ->
        ((exists k l, Lobbies lm !! k = Some l /\ ColonyID l = colonyID) ->
         GetLobbyCount lm' = GetLobbyCount lm)
        /\ ((forall k l, Lobbies lm !! k = Some l -> ColonyID l <> colonyID) ->
            Lobbies lm !! Lobby_ID lobby = None ->
            GetLobbyCount lm' = GetLobbyCount lm + 1)).
Proof.
  split; [|split; [|split]].
  - intros. reflexivity.
  - intros lobbyID clientID ign conn lm' ev lobby lobby' H Hl Hl'.
    apply JoinLobby_inv in H
      as [(_ & _ & e & He)|(lobby1 & msg & Hl1 & _ & Hn & _ & _ & Hlm & _)];
      [discriminate|].
    rewrite Hl in Hl1. injection Hl1 as <-.
    simpl in Hlm. subst lm'. simpl in Hl'. rewrite lookup_insert_eq in Hl'.
    injection Hl' as <-. rewrite !ClientCount_size. simpl.
    rewrite (map_size_insert_None _ _ _ Hn). lia.
  - intros lobby client lobby' ev Hk H.
    rewrite !ClientCount_size, (RemoveClient_present _ _ _ _ Hk H).
    revert H. unfold RemoveClient.
    destruct (Clients lobby !! Client_ID client) as [c|] eqn:Hc; [|discriminate].
    intros _. rewrite (map_size_delete_Some _ _ (ex_intro _ c Hc)).
    assert (size (Clients lobby) <> 0%nat)
      by (apply map_size_ne_0_lookup; eauto).
    lia.
  - intros ownerID colonyID encoding lm' lobby H.
    apply CreateLobby_inv in H
      as [(_ & _ & err & Hr)|[(_ & -> & k & l & _ & Hl & Hc)
                             |(_ & Hnone & l0 & Hr & Hl0 & ->)]];
      [discriminate| |].
    + split; [reflexivity|]. intros Hnone. destruct (Hnone _ _ Hl Hc).
    + injection Hr as ->. split.
      * intros [k [l [Hl Hc]]]. destruct (Hnone _ _ Hl Hc).
      * intros _ Hfree. rewrite !GetLobbyCount_size. simpl.
        rewrite Hl0 in Hfree. simpl in Hfree.
        rewrite (map_size_insert_None _ _ _ Hfree). lia.
Qed.

(** X24: while a lobby that is closing is still in the map, a creation
    for its colony returns that closing lobby instead of a new one, and
    the lobby so returned cannot be joined. *)
Theorem CreateLobby_returns_closing_lobby lm k lobby ownerID encoding :
  acceptsNewLobbies lm = true ->
  colonyUnique lm ->
  Lobbies lm !! k = Some lobby ->
  Closing lobby = true ->
  CreateLobby lm ownerID (ColonyID lobby) encoding = (lm, inl lobby)
  /\ forall clientID ign conn,
       JoinLobby lm k clientID ign conn
       = (lm, [], Some {| Err_LobbyID := k; Err_Type := JoinErrorClosing;
                          Reason := "Lobby is closing" |}).
Proof.
  intros Hacc Hu Hl Hc. split.
  - destruct (CreateLobby lm ownerID (ColonyID lobby) encoding) as [lm' r] eqn:H.
    apply CreateLobby_inv in H
      as [(Ha & _)|[(_ & -> & k' & l' & -> & Hl' & Hc')|(_ & Hnone & _)]].
    + congruence.
    + pose proof (Hu _ _ _ _ Hl' Hl Hc') as ->. congruence.
    + destruct (Hnone _ _ Hl eq_refl).
  - intros clientID ign conn. unfold JoinLobby. rewrite Hl, Hc. reflexivity.
Qed.

Lemma onDisconnect_shape client lobby user queueClosed lobby' ev :
  onDisconnect client lobby user queueClosed = Ok (lobby', ev) ->
  Lobby_ID lobby' = Lobby_ID lobby /\ ColonyID lobby' = ColonyID lobby
  /\ exists k, Clients lobby' = delete k (Clients lobby).
Proof.
  unfold onDisconnect, handleGuestDisconnect, handleOwnerDisconnect, RemoveClient,
    close.
  destruct (Client_Type client);
    destruct (Clients lobby !! Client_ID user) as [c|]; try discriminate;
    destruct queueClosed; try discriminate;
    simpl; intros [= <- _]; simpl; eauto.
Qed.

(** X25: every state that the manager reaches from a fresh manager by
    creations, joins, ends of sessions, unregistrations and shutdowns has
    each lobby stored under its own identifier, at most one lobby for a
    colony, and in every lobby each client stored under its own
    identifier. *)
Theorem reachable_managers_are_wellFormed cfg lm :
  rtc managerStep (CreateLobbyManager cfg) lm -> managerWellFormed lm.
Proof.
  intros Hr.
  apply (rtc_ind_r (R := managerStep) (fun lm => managerWellFormed lm)
           (CreateLobbyManager cfg));
    [| |exact Hr]; clear lm Hr.
  - repeat split; [intros k l H | intros k1 k2 l1 l2 H | intros k l H];
      simpl in H; rewrite lookup_empty in H; discriminate H.
  - intros lm1 lm2 _ Hstep IH.
    destruct Hstep as [lm o c e lm' r H
                      |lm lobbyID clientID ign conn lm' ev err H
                      |lm k lobby client lobby' ev Hl H
                      |lm lobby lm' ev H
                      |lm idBytes lm' ev H].
    + exact (CreateLobby_preserves_wellFormed _ _ _ _ _ _ H IH).
    + exact (JoinLobby_preserves_wellFormed _ _ _ _ _ _ _ _ H IH).
    + destruct IH as (Hk & Hu & Hc).
      destruct (onDisconnect_shape _ _ _ _ _ _ H) as (Hid & Hcol & kd & Hcl).
      repeat split.
      * intros k' l Hkl. simpl in Hkl.
        apply lookup_insert_Some in Hkl as [[<- <-]|[_ Hkl]].
        -- rewrite Hid. exact (Hk _ _ Hl).
        -- exact (Hk _ _ Hkl).
      * intros k1 k2 l1 l2 H1 H2 Heq. simpl in H1, H2.
        apply lookup_insert_Some in H1 as [[<- <-]|[Hn1 H1]];
          apply lookup_insert_Some in H2 as [[<- <-]|[Hn2 H2]].
        -- reflexivity.
        -- rewrite Hcol in Heq. exact (Hu _ _ _ _ Hl H2 Heq).
        -- rewrite Hcol in Heq. exact (Hu _ _ _ _ H1 Hl Heq).
        -- exact (Hu _ _ _ _ H1 H2 Heq).
      * intros k' l Hkl. simpl in Hkl.
        apply lookup_insert_Some in Hkl as [[<- <-]|[_ Hkl]].
        -- intros kc c Hkc. rewrite Hcl in Hkc.
           apply lookup_delete_Some in Hkc as [_ Hkc]. exact (Hc _ _ Hl _ _ Hkc).
        -- exact (Hc _ _ Hkl).
    + destruct IH as (Hk & Hu & Hc).
      assert (Hsub : forall k l, Lobbies lm' !! k = Some l -> Lobbies lm !! k = Some l).
      { revert H. unfold UnregisterLobby.
        destruct (Lobbies lm !! Lobby_ID lobby) as [stored|];
          intros [= <- _]; simpl; [|auto].
        intros k l Hkl. apply lookup_delete_Some in Hkl as [_ Hkl]. exact Hkl. }
      repeat split.
      * intros k l Hkl. exact (Hk _ _ (Hsub _ _ Hkl)).
      * intros k1 k2 l1 l2 H1 H2. exact (Hu _ _ _ _ (Hsub _ _ H1) (Hsub _ _ H2)).
      * intros k l Hkl. exact (Hc _ _ (Hsub _ _ Hkl)).
    + destruct IH as (Hk & Hu & Hc).
      destruct (ShutdownLobbyManager_state _ _ _ _ H) as (_ & _ & Hmap & _).
      assert (Hsub : forall k l, Lobbies lm' !! k = Some l ->
                exists l0, Lobbies lm !! k = Some l0 /\ l = setClosing l0 true).
      { intros k l. rewrite Hmap, lookup_fmap.
        destruct (Lobbies lm !! k) as [l0|]; [|discriminate].
        intros [= <-]. eauto. }
      repeat split.
      * intros k l Hkl. destruct (Hsub _ _ Hkl) as (l0 & Hl0 & ->). exact (Hk _ _ Hl0).
      * intros k1 k2 l1 l2 H1 H2 Heq.
        destruct (Hsub _ _ H1) as (a & Ha & ->).
        destruct (Hsub _ _ H2) as (b & Hb & ->).
        exact (Hu _ _ _ _ Ha Hb Heq).
      * intros k l Hkl. destruct (Hsub _ _ Hkl) as (l0 & Hl0 & ->).
        exact (Hc _ _ Hl0).
Qed.

End ReachableProperties.

Lemma counts_follow_membership_witness :
  ClientCount (setClients exampleLobby (<[9 := stranger9]> (Clients exampleLobby)))
  = ClientCount exampleLobby + 1.
Proof.
  apply (proj1 (proj2 (@counts_follow_membership exampleEnv exampleManager))
           2 9 "stranger" 102 managerAfterJoin9
           [ EvBroadcast 2 MESSAGE_ENCODING_BASE16 (Clients exampleLobby) SERVER_ID
               (BigEndian_PutUint32 9 ++ bytes_of_string "stranger");
             EvGoHandleConnection 2 stranger9 ]);
    vm_compute; reflexivity.
Defined.

Lemma closingManager_colonyUnique : colonyUnique closingManager.
Proof.
  intros k1 k2 l1 l2 H1 H2 _. unfold closingManager in H1, H2. simpl in H1, H2.
  apply lookup_insert_Some in H1 as [[<- _]|[_ H1]];
    [|rewrite lookup_empty in H1; discriminate].
  apply lookup_insert_Some in H2 as [[<- _]|[_ H2]];
    [reflexivity|rewrite lookup_empty in H2; discriminate].
Qed.

Lemma CreateLobby_returns_closing_lobby_witness :
  CreateLobby closingManager 7 42 MESSAGE_ENCODING_BINARY
  = (closingManager, inl (setClosing exampleLobby true))
  /\ forall clientID ign conn,
       JoinLobby (Env := exampleEnv) closingManager 2 clientID ign conn
       = (closingManager, [],
          Some {| Err_LobbyID := 2; Err_Type := JoinErrorClosing;
                  Reason := "Lobby is closing" |}).
Proof.
  apply (@CreateLobby_returns_closing_lobby exampleEnv closingManager 2
           (setClosing exampleLobby true) 7 MESSAGE_ENCODING_BINARY).
  - reflexivity.
  - exact closingManager_colonyUnique.
  - reflexivity.
  - reflexivity.
Defined.

Lemma reachable_managers_are_wellFormed_witness :
  managerWellFormed
    (JoinLobby (Env := exampleEnv)
       (CreateLobby (CreateLobbyManager exampleConfig) 7 42 MESSAGE_ENCODING_BINARY).1
       2 7 "owner" 100).1.1.
Proof.
  apply (@reachable_managers_are_wellFormed exampleEnv exampleConfig).
  eapply rtc_l.
  - eapply (step_create _ 7 42 MESSAGE_ENCODING_BINARY). apply surjective_pairing.
  - eapply rtc_l; [|apply rtc_refl].
    eapply (step_join _ 2 7 "owner" 100). vm_compute. reflexivity.
Defined.

(** ** The HTTP handlers *)

Section HandlerProperties.
Context `{Env : Environment}.
Variable strconv_Atoi : string -> Z * option string.
Variable strconv_ParseUint32 : string -> Z * option string.
Variable DEBUG_IDBytes : bytes.
Variable BytesOfUint32 : Z -> bytes.
Variable EncodeBase16 : bytes -> bytes.

Lemma connect_wellParsed lm query upgrade lid cid col own :
  wellParsed strconv_Atoi strconv_ParseUint32 query lid cid col own ->
  webSocketConnectionRequestHandler strconv_Atoi strconv_ParseUint32
    DEBUG_IDBytes BytesOfUint32 EncodeBase16 lm query upgrade
  = let '(evPossible, possible) := IsJoinPossible lm (wrap32 lid) (wrap32 cid) col own in
    match possible with
    | Some err =>
        (lm, InLobby <$> evPossible,
         Some (httpError (LobbyJoinError_Error err)
                 match Err_Type err with
                 | JoinErrorNotFound => "Lobby not found"
                 | JoinErrorAlreadyInLobby => "User already in lobby"
                 | _ => "Lobby is closing"
                 end
                 match Err_Type err with
                 | JoinErrorNotFound => StatusNotFound
                 | JoinErrorAlreadyInLobby => StatusConflict
                 | _ => StatusGone
                 end))
    | None =>
        match upgrade with
        | UpgradeRefused answer =>
            (lm, InLobby <$> evPossible,
             Some (httpErrorAfter answer None "Failed to upgrade connection"))
        | UpgradeAborted => (lm, InLobby <$> evPossible, None)
        | Upgraded conn =>
            match JoinLobby lm (wrap32 lid) (wrap32 cid) (query "IGN") conn with
            | (lm', evJoin, Some joinError) =>
                (lm',
                 (InLobby <$> (evPossible ++ evJoin))
                   ++ [EvConnWriteText conn
                         (EncodeBase16 (DEBUG_IDBytes ++ BytesOfUint32 500
                            ++ bytes_of_string (LobbyJoinError_Error joinError)));
                       InLobby (EvConnClose conn)],
                 None)
            | (lm', evJoin, None) => (lm', InLobby <$> (evPossible ++ evJoin), None)
            end
        end
    end.
Proof.
  intros (Hign & Hl & Hc & Hcol & Hown).
  unfold webSocketConnectionRequestHandler. rewrite Hl, Hc, Hcol, Hown.
  apply String.eqb_neq in Hign. rewrite Hign.
  unfold IsJoinPossible.
  destruct (Lobbies lm !! _) as [lobby|]; [|reflexivity].
  destruct (Closing lobby); [reflexivity|].
  destruct (Clients lobby !! _); reflexivity.
Qed.

(** X26: a connection request whose parameters parse is refused before the
    connection is upgraded, and without any change to the manager, with
    status 404 when the lobby does not exist (and then the closing of the
    colony is started), 410 when the lobby is closing, and 409 when the
    client is already in the lobby; the closing flag is looked at before
    the membership. *)
Theorem connect_refusals lm query upgrade lid cid col own :
  wellParsed strconv_Atoi strconv_ParseUint32 query lid cid col own ->
  (Lobbies lm !! (wrap32 lid : LobbyID) = None ->
   exists response,
     webSocketConnectionRequestHandler strconv_Atoi strconv_ParseUint32
       DEBUG_IDBytes BytesOfUint32 EncodeBase16 lm query upgrade
     = (lm, [InLobby (EvGoCloseColony col own)], Some response)
     /\ Status response = 404)
  /\ (forall lobby, Lobbies lm !! (wrap32 lid : LobbyID) = Some lobby ->
      Closing lobby = true ->
      exists response,
        webSocketConnectionRequestHandler strconv_Atoi strconv_ParseUint32
          DEBUG_IDBytes BytesOfUint32 EncodeBase16 lm query upgrade
        = (lm, [], Some response) /\ Status response = 410)
  /\ (forall lobby c, Lobbies lm !! (wrap32 lid : LobbyID) = Some lobby ->
      Closing lobby = false ->
      Clients lobby !! (wrap32 cid : ClientID) = Some c ->
      exists response,
        webSocketConnectionRequestHandler strconv_Atoi strconv_ParseUint32
          DEBUG_IDBytes BytesOfUint32 EncodeBase16 lm query upgrade
        = (lm, [], Some response) /\ Status response = 409).
Proof.
  intros Hp. rewrite (connect_wellParsed _ _ _ _ _ _ _ Hp). unfold IsJoinPossible.
  split; [|split].
  - intros ->. eexists. split; reflexivity.
  - intros lobby -> ->. eexists. split; reflexivity.
  - intros lobby c -> -> ->. eexists. split; reflexivity.
Qed.

(** X27: a connection request for an open lobby that does not hold the
    client yet.  When the upgrade is refused, what reaches the client is
    the answer that the upgrade itself has written, with its status, and
    the line of the handler appended to the body: the status 500 that the
    handler sets is not sent; nothing else happens.  When the upgrade has
    taken the connection over and failed, nothing is sent.  When it
    succeeds and the join notice serializes, nothing is written as an
    answer, the notice is broadcast, the session of the client is started
    and the client is stored under its identifier with the name and the
    connection of the request.  When the notice does not serialize, a
    debug frame is written to the new connection as text and the
    connection is closed; the status 500 that the handler sets then is
    not sent either, and the manager is as before. *)
Theorem connect_joins lm query upgrade lid cid col own lobby :
  wellParsed strconv_Atoi strconv_ParseUint32 query lid cid col own ->
  Lobbies lm !! (wrap32 lid : LobbyID) = Some lobby -> Closing lobby = false ->
  Clients lobby !! (wrap32 cid : ClientID) = None ->
  (forall answer, upgrade = UpgradeRefused answer ->
     webSocketConnectionRequestHandler strconv_Atoi strconv_ParseUint32
       DEBUG_IDBytes BytesOfUint32 EncodeBase16 lm query upgrade
     = (lm, [],
        Some {| Status := Status answer; DebugHeader := DebugHeader answer;
                Body := Body answer +:+ "Failed to upgrade connection"
                          +:+ newline |}))
  /\ (upgrade = UpgradeAborted ->
      webSocketConnectionRequestHandler strconv_Atoi strconv_ParseUint32
        DEBUG_IDBytes BytesOfUint32 EncodeBase16 lm query upgrade
      = (lm, [], None))
  /\ (forall conn msg, upgrade = Upgraded conn ->
      Serialize_PlayerJoined PLAYER_JOINED_EVENT (wrap32 cid) (query "IGN") = inl msg ->
      exists client,
        webSocketConnectionRequestHandler strconv_Atoi strconv_ParseUint32
          DEBUG_IDBytes BytesOfUint32 EncodeBase16 lm query upgrade
        = (setLobbies lm
             (<[wrap32 lid := setClients lobby (<[wrap32 cid := client]> (Clients lobby))]>
                (Lobbies lm)),
           [ InLobby (EvBroadcast (Lobby_ID lobby) (Lobby_Encoding lobby)
                        (Clients lobby) SERVER_ID msg);
             InLobby (EvGoHandleConnection (Lobby_ID lobby) client) ], None)
        /\ Client_ID client = wrap32 cid /\ IGN client = query "IGN"
        /\ Conn client = conn)
  /\ (forall conn e, upgrade = Upgraded conn ->
      Serialize_PlayerJoined PLAYER_JOINED_EVENT (wrap32 cid) (query "IGN") = inr e ->
      exists frame,
        webSocketConnectionRequestHandler strconv_Atoi strconv_ParseUint32
          DEBUG_IDBytes BytesOfUint32 EncodeBase16 lm query upgrade
        = (lm, [EvConnWriteText conn frame; InLobby (EvConnClose conn)], None)).
Proof.
  intros Hp Hl Hc Hn. rewrite (connect_wellParsed _ _ _ _ _ _ _ Hp).
  unfold IsJoinPossible, JoinLobby. rewrite Hl, Hc, Hn. simpl.
  split; [|split; [|split]].
  - intros answer ->. reflexivity.
  - intros ->. reflexivity.
  - intros conn msg -> ->. eexists. split; [reflexivity|].
    repeat split; reflexivity.
  - intros conn e -> ->. eexists. reflexivity.
Qed.

(** X28: a connection request without a player name, or with a lobby,
    client, colony or owner parameter that is missing or does not parse,
    is answered with 400; the manager is not touched and nothing else
    happens.  The missing name is reported whatever the other parameters
    are. *)
Theorem connect_bad_parameters lm query upgrade :
  (query "IGN" = ""
   \/ (getAsInt strconv_Atoi query "lobbyID").2 <> None
   \/ (getAsInt strconv_Atoi query "clientID").2 <> None
   \/ (getAsUint32 strconv_ParseUint32 query "colonyID").2 <> None
   \/ (getAsUint32 strconv_ParseUint32 query "ownerID").2 <> None) ->
  exists response,
    webSocketConnectionRequestHandler strconv_Atoi strconv_ParseUint32
      DEBUG_IDBytes BytesOfUint32 EncodeBase16 lm query upgrade
    = (lm, [], Some response)
    /\ Status response = 400
    /\ (query "IGN" = "" -> Body response = "IGN not provided" +:+ newline).
Proof.
  intros Hbad. unfold webSocketConnectionRequestHandler.
  destruct (getAsInt strconv_Atoi query "lobbyID") as [lid [el|]];
  destruct (getAsInt strconv_Atoi query "clientID") as [cid [ec|]];
  destruct (getAsUint32 strconv_ParseUint32 query "colonyID") as [col [ecol|]];
  destruct (getAsUint32 strconv_ParseUint32 query "ownerID") as [own [eown|]];
  destruct (String.eqb_spec (query "IGN") "") as [Hi|Hi];
  simpl in *;
  try (eexists; split; [reflexivity|]; split;
       [reflexivity|]; first [reflexivity | intros; contradiction]).
  exfalso. destruct Hbad as [H|[H|[H|[H|H]]]]; contradiction.
Qed.

(** X29: the lobby and client identifiers of a connection request are
    parsed as machine integers and reach the manager modulo 2^32: two
    requests whose identifiers agree modulo 2^32, and which agree on the
    rest, are treated alike. *)
Theorem connect_identifiers_are_truncated lm query query' upgrade
    lid cid lid' cid' col own :
  wellParsed strconv_Atoi strconv_ParseUint32 query lid cid col own ->
  wellParsed strconv_Atoi strconv_ParseUint32 query' lid' cid' col own ->
  query' "IGN" = query "IGN" ->
  lid' mod 2 ^ 32 = lid mod 2 ^ 32 ->
  cid' mod 2 ^ 32 = cid mod 2 ^ 32 ->
  webSocketConnectionRequestHandler strconv_Atoi strconv_ParseUint32
    DEBUG_IDBytes BytesOfUint32 EncodeBase16 lm query' upgrade
  = webSocketConnectionRequestHandler strconv_Atoi strconv_ParseUint32
      DEBUG_IDBytes BytesOfUint32 EncodeBase16 lm query upgrade.
Proof.
  intros Hp Hp' Hi Hl Hc.
  rewrite (connect_wellParsed _ _ _ _ _ _ _ Hp), (connect_wellParsed _ _ _ _ _ _ _ Hp').
  unfold wrap32. rewrite Hl, Hc, Hi. reflexivity.
Qed.


End HandlerProperties.

Lemma exampleQuery_parsed lobbyID clientID lid cid :
  lobbyID <> "" -> clientID <> "" ->
  Atoi_model lobbyID = (lid, None) -> Atoi_model clientID = (cid, None) ->
  wellParsed Atoi_model ParseUint32_model (connectQuery lobbyID clientID) lid cid 42 7.
Proof.
  intros Hl Hc Hpl Hpc. unfold wellParsed, getAsInt, getAsUint32.
  change (connectQuery lobbyID clientID "lobbyID") with lobbyID.
  change (connectQuery lobbyID clientID "clientID") with clientID.
  change (connectQuery lobbyID clientID "IGN") with "nina".
  change (connectQuery lobbyID clientID "colonyID") with "42".
  change (connectQuery lobbyID clientID "ownerID") with "7".
  apply String.eqb_neq in Hl, Hc. rewrite Hl, Hc, Hpl, Hpc.
  split; [discriminate|]. repeat split; reflexivity.
Qed.

Lemma connect_refusals_witness :
  (exists response,
     exampleConnect exampleManager (connectQuery "5" "9") (Upgraded 100)
     = (exampleManager, [InLobby (EvGoCloseColony 42 7)], Some response)
     /\ Status response = 404)
  /\ (exists response,
        exampleConnect closingManager (connectQuery "2" "7") (Upgraded 100)
        = (closingManager, [], Some response) /\ Status response = 410)
  /\ (exists response,
        exampleConnect exampleManager (connectQuery "2" "7") badHandshake
        = (exampleManager, [], Some response) /\ Status response = 409).
Proof.
  unfold exampleConnect. split; [|split].
  - apply (proj1 (connect_refusals (Env := exampleEnv) Atoi_model ParseUint32_model
                    (BigEndian_PutUint32 0) BigEndian_PutUint32 hexEncode
                    exampleManager (connectQuery "5" "9") (Upgraded 100) 5 9 42 7
                    ltac:(apply exampleQuery_parsed; [discriminate|discriminate|reflexivity|reflexivity]))).
    reflexivity.
  - apply (proj1 (proj2 (connect_refusals (Env := exampleEnv) Atoi_model ParseUint32_model
                    (BigEndian_PutUint32 0) BigEndian_PutUint32 hexEncode
                    closingManager (connectQuery "2" "7") (Upgraded 100) 2 7 42 7
                    ltac:(apply exampleQuery_parsed; [discriminate|discriminate|reflexivity|reflexivity])))
             (setClosing exampleLobby true)); reflexivity.
  - apply (proj2 (proj2 (connect_refusals (Env := exampleEnv) Atoi_model ParseUint32_model
                    (BigEndian_PutUint32 0) BigEndian_PutUint32 hexEncode
                    exampleManager (connectQuery "2" "7") badHandshake 2 7 42 7
                    ltac:(apply exampleQuery_parsed; [discriminate|discriminate|reflexivity|reflexivity])))
             exampleLobby owner7); reflexivity.
Defined.

Lemma connect_joins_witness :
  exampleConnect exampleManager (connectQuery "2" "9") badHandshake
  = (exampleManager, [],
     Some {| Status := 400; DebugHeader := None;
             Body := ("Bad Request" +:+ newline)
                       +:+ "Failed to upgrade connection" +:+ newline |})
  /\ exists client,
       exampleConnect exampleManager (connectQuery "2" "9") (Upgraded 102)
       = (setLobbies exampleManager
            (<[2 := setClients exampleLobby (<[9 := client]> (Clients exampleLobby))]>
               (Lobbies exampleManager)),
          [ InLobby (EvBroadcast 2 MESSAGE_ENCODING_BASE16 (Clients exampleLobby)
                       SERVER_ID (BigEndian_PutUint32 9 ++ bytes_of_string "nina"));
            InLobby (EvGoHandleConnection 2 client) ], None)
       /\ Client_ID client = 9 /\ IGN client = "nina" /\ Conn client = 102.
Proof.
  unfold exampleConnect. split.
  - apply (proj1 (connect_joins (Env := exampleEnv) Atoi_model ParseUint32_model
                    (BigEndian_PutUint32 0) BigEndian_PutUint32 hexEncode
                    exampleManager (connectQuery "2" "9") badHandshake 2 9 42 7
                    exampleLobby
                    ltac:(apply exampleQuery_parsed; [discriminate|discriminate|reflexivity|reflexivity])
                    eq_refl eq_refl eq_refl)
             {| Status := StatusBadRequest; DebugHeader := None;
                Body := "Bad Request" +:+ newline |} eq_refl).
  - apply (proj1 (proj2 (proj2 (connect_joins (Env := exampleEnv) Atoi_model
                    ParseUint32_model
                    (BigEndian_PutUint32 0) BigEndian_PutUint32 hexEncode
                    exampleManager (connectQuery "2" "9") (Upgraded 102) 2 9 42 7
                    exampleLobby
                    ltac:(apply exampleQuery_parsed; [discriminate|discriminate|reflexivity|reflexivity])
                    eq_refl eq_refl eq_refl))) 102
             (BigEndian_PutUint32 9 ++ bytes_of_string "nina") eq_refl eq_refl).
Defined.

Lemma connect_bad_parameters_witness :
  exists response,
    exampleConnect exampleManager
      (queryOf [("lobbyID", "two"); ("clientID", "9")]) (Upgraded 102)
    = (exampleManager, [], Some response)
    /\ Status response = 400
    /\ Body response = "IGN not provided" +:+ newline.
Proof.
  destruct (connect_bad_parameters (Env := exampleEnv) Atoi_model ParseUint32_model
              (BigEndian_PutUint32 0) BigEndian_PutUint32 hexEncode
              exampleManager (queryOf [("lobbyID", "two"); ("clientID", "9")])
              (Upgraded 102) (or_introl eq_refl)) as (response & H & Hs & Hb).
  exists response. split; [exact H|]. split; [exact Hs|]. exact (Hb eq_refl).
Defined.

Lemma connect_identifiers_are_truncated_witness :
  exampleConnect exampleManager (connectQuery "4294967298" "-1") (Upgraded 102)
  = exampleConnect exampleManager (connectQuery "2" "4294967295") (Upgraded 102).
Proof.
  unfold exampleConnect.
  apply (connect_identifiers_are_truncated (Env := exampleEnv) Atoi_model
           ParseUint32_model (BigEndian_PutUint32 0) BigEndian_PutUint32 hexEncode
           exampleManager (connectQuery "2" "4294967295")
           (connectQuery "4294967298" "-1") (Upgraded 102)
           2 4294967295 4294967298 (-1) 42 7).
  - apply exampleQuery_parsed; [discriminate|discriminate|reflexivity|reflexivity].
  - apply exampleQuery_parsed; [discriminate|discriminate|reflexivity|reflexivity].
  - reflexivity.
  - reflexivity.
  - reflexivity.
Defined.

